(** * NestLoudsTrieStore: the dictionary-zip build pipeline and persistence

    A shallow embedding of [src/terark/db/dfadb/nlt_store.cpp]:

    - the effective sample ratio and the acceptance threshold computed at
      the head of [NestLoudsTrieStore::build_by_iter];
    - the two passes of [build_by_iter] over the source iterator, in the
      branch without a purge bitmap and in the branch with one, together
      with [emptyCheckProtect], the mutex obtained from
      [DictZip_reduceMemMutex], the diagnostics written to stderr and the
      calls to [abort];
    - [NestLoudsTrieStore::load] and [NestLoudsTrieStore::save].

    The C++ [double]s are read as exact rationals ([Q]); [llong] and
    [size_t] values are integers ([Z]), and where a signed value is
    converted to [size_t] the reduction modulo [2^64] is written out. *)

From Stdlib Require Import ZArith QArith Qround Lqa Lia List String.
From stdpp Require Import gmap strings list.

Open Scope Z_scope.

(** ** Bytes and bitmaps *)

Abbreviation bytes := (list Byte.byte).

(** [valvec<byte>::empty()] and [fstring::empty()]. *)
Definition empty (r : bytes) : bool :=
  match r with
  | [] => true
  | _ :: _ => false
  end.

(** A bitmap is an array of machine words ([bm_uint_t]). *)
Definition WordBits : Z := 64.

(** Modelled from the spec: [terark_bit_test] is a macro of the terark
    headers, which are not among the sources; section 6 gives bitmaps the
    standard test-bit semantics, one bit per record: bit [i] is bit
    [i mod WordBits] of word [i / WordBits].  Words past the end of the
    array read as zero. *)
Definition terark_bit_test (bits : list Z) (i : Z) : bool :=
  Z.testbit (nth (Z.to_nat (i / WordBits)) bits 0) (i mod WordBits).

(** Modelled from the spec: [febitvec] is a class of the terark headers; of
    it the code uses [size()], the number of bits, and [bldata()], the
    words.  Section 6: a purge bitmap of length 0 means that nothing is
    purged. *)
Record febitvec := { fv_size : nat; bldata : list Z }.

(** ** The sample ratio (lines 132-141 and 165-166) *)

Module SampleRatio.

Definition FLT_EPSILON : Q := 1 # (2 ^ 23).
Definition INT32_MAX : Z := 2 ^ 31 - 1.
Definition UINT64_MAX : Z := 2 ^ 64 - 1.

(** [schema.m_dictZipSampleRatio > FLT_EPSILON ? ... : 0.05] *)
Definition requested_or_default (r0 : Q) : Q :=
  if Qlt_le_dec FLT_EPSILON r0 then r0 else 5 # 100.

(** [if (dataSize * sampleRatio >= INT32_MAX * 0.95)
       sampleRatio = INT32_MAX * 0.95 / dataSize;]
    The test and the quotient are those of exact arithmetic; the code
    rounds both to double precision. *)
Definition shrink (dataSize : Z) (sampleRatio : Q) : Q :=
  if Qlt_le_dec (inject_Z dataSize * sampleRatio)
                (inject_Z INT32_MAX * (95 # 100))
  then sampleRatio
  else inject_Z INT32_MAX * (95 # 100) / inject_Z dataSize.

(** [std::min(sampleRatio, 0.5)]: the second argument when it is
    smaller, the first otherwise. *)
Definition cap (sampleRatio : Q) : Q :=
  if Qlt_le_dec (1 # 2) sampleRatio then 1 # 2 else sampleRatio.

Definition effective_sample_ratio (r0 : Q) (dataSize : Z) : Q :=
  cap (shrink dataSize (requested_or_default r0)).

(** [random.min() + (random.max() - random.min()) * sampleRatio],
    converted to [uint64_t]; [std::mt19937_64] ranges over
    [0 .. 2^64 - 1].  The product is that of exact arithmetic; the code
    rounds [2^64 - 1] to the double [2^64] and the product to double
    precision, so its threshold is this one up to that rounding. *)
Definition sampleUpperBound (sampleRatio : Q) : Z :=
  Qfloor (inject_Z 0 + inject_Z (UINT64_MAX - 0) * sampleRatio).

End SampleRatio.

(** ** The world around [build_by_iter] *)

(** Fields of [Schema] read by the functions below. *)
Record Schema := {
  m_dictZipSampleRatio : Q;
  m_checksumLevel : Z;
  m_useFastZip : bool;
  m_rankSelectClass : Z
}.

(** Modelled from the spec: the store behind the iterator (class
    [ReadableStore], declared outside the sources).  Section 3 makes it an
    ordered, 0-based sequence of byte-string records; [numDataRows] is its
    length and [dataInflateSize] the byte size it declares. *)
Record ReadableStore := {
  records : list bytes;
  dataInflateSize : Z
}.

Definition numDataRows (st : ReadableStore) : Z :=
  Z.of_nat (length (records st)).

(** What the diagnostics written to stderr report. *)
Inductive diag :=
| SeekMiss (logicId physicId logicNum physicNum : Z)
    (* lines 201-203 *)
| CountMismatch (physicId physicNum logicNum : Z)
    (* lines 220-222 and 247-249 *)
| IncrementMismatch (hasData : bool)
    (logicId physicId physicId2 physicNum logicNum : Z).
    (* lines 234-236 *)

(** Calls that leave the function, in the order they are made. *)
Inductive event :=
| EvIncrement (result : option Z)      (* iter.increment(&id, &rec) *)
| EvSeekExact (id : Z) (found : bool)  (* iter.seekExact(id, &rec) *)
| EvReset                              (* iter.reset() *)
| EvAddSample (sample : bytes)         (* builder->addSample *)
| EvPrepare (n : Z) (path : string)    (* builder->prepare *)
| EvAddRecord (r : bytes)              (* builder->addRecord *)
| EvCompleteBuild                      (* zds->completeBuild *)
| EvDestroyBuilder                     (* builder.reset() *)
| EvLock                               (* lock.lock() *)
| EvUnlock                             (* lock.unlock() *)
| EvStderr (d : diag).                 (* fprintf(stderr, ...) *)

(** History of a pass: one entry for each logical id that is not purged,
    written when the pass is done with it ([physicId++]).  [v_live] records
    whether the branch guarded by the deletion test was taken. *)
Record visit := {
  v_logic : Z;
  v_physic : Z;
  v_live : bool
}.

Record State := {
  cursor : nat;           (* position of the iterator in [records] *)
  rec : bytes;            (* valvec<byte> rec *)
  draws : nat;            (* numbers drawn from [random] so far *)
  owns_lock : bool;       (* std::unique_lock::owns_lock() *)
  trace : list event;
  walk1 : list visit;     (* history of the sampling pass *)
  walk2 : list visit      (* history of the recording pass *)
}.

Definition initial : State :=
  {| cursor := 0; rec := []; draws := 0; owns_lock := false;
     trace := []; walk1 := []; walk2 := [] |}.

(** How a call can end other than by returning. *)
Inductive failure :=
| Abort              (* abort(): the process is terminated *)
| InvalidArgument    (* std::invalid_argument thrown *)
| AssertionFailed    (* assert(...) *)
| OutOfFuel.         (* the model's loop bound was too small *)

Inductive outcome (A : Type) :=
| Ret (a : A)
| Fail (f : failure).
Arguments Ret {A} a.
Arguments Fail {A} f.

(** State and failure monad: a failure keeps the state reached. *)
Definition M (A : Type) : Type := State -> outcome A * State.

Definition ret {A} (a : A) : M A := fun s => (Ret a, s).

Definition bind {A B} (m : M A) (k : A -> M B) : M B :=
  fun s =>
    match m s with
    | (Ret a, s') => k a s'
    | (Fail f, s') => (Fail f, s')
    end.

Definition fail {A} (f : failure) : M A := fun s => (Fail f, s).

Notation "'let*' x := m 'in' k" := (bind m (fun x => k))
  (at level 10, x pattern, m at level 99, k at level 200).
Notation "m ;; k" := (bind m (fun _ => k))
  (at level 100, k at level 200, right associativity).

Definition emit (e : event) : M unit := fun s =>
  (Ret tt,
   {| cursor := cursor s; rec := rec s; draws := draws s;
      owns_lock := owns_lock s; trace := trace s ++ [e];
      walk1 := walk1 s; walk2 := walk2 s |}).

Definition get_rec : M bytes := fun s => (Ret (rec s), s).

Definition note_visit1 (v : visit) : M unit := fun s =>
  (Ret tt,
   {| cursor := cursor s; rec := rec s; draws := draws s;
      owns_lock := owns_lock s; trace := trace s;
      walk1 := walk1 s ++ [v]; walk2 := walk2 s |}).

Definition note_visit2 (v : visit) : M unit := fun s =>
  (Ret tt,
   {| cursor := cursor s; rec := rec s; draws := draws s;
      owns_lock := owns_lock s; trace := trace s;
      walk1 := walk1 s; walk2 := walk2 s ++ [v] |}).

(** [lock.lock()] and [lock.unlock()] on the [std::unique_lock] that was
    created with [std::defer_lock]. *)
Definition lock_lock : M unit := fun s =>
  (Ret tt,
   {| cursor := cursor s; rec := rec s; draws := draws s;
      owns_lock := true; trace := trace s ++ [EvLock];
      walk1 := walk1 s; walk2 := walk2 s |}).

Definition lock_unlock : M unit := fun s =>
  (Ret tt,
   {| cursor := cursor s; rec := rec s; draws := draws s;
      owns_lock := false; trace := trace s ++ [EvUnlock];
      walk1 := walk1 s; walk2 := walk2 s |}).

Import SampleRatio.

Section Build.

Variable schema : Schema.
Variable fpath : string.
(** The store [iter.getStore()] points to. *)
Variable store : ReadableStore.
(** [isDel] and [isPurged]; [None] is the null pointer. *)
Variable isDel : option (list Z).
Variable isPurged : option febitvec.
(** The numbers the [std::mt19937_64] generator returns, in order. *)
Variable random : nat -> Z.
(** The value the uninitialised [llong recId] of line 168 holds. *)
Variable recId_indeterminate : Z.

(** Modelled from the spec: [StoreIterator] (declared outside the
    sources).  Section 6: [increment] advances and yields the physical
    id and the bytes, or nothing at the end; [seekExact] is random
    access, nothing if the id is absent; [reset] rewinds.  A call that
    yields nothing leaves [rec] and the id passed in as they were, and
    [seekExact] does not move the cursor of [increment].
    [iter_increment id] is [iter.increment(&id, &rec)]: the result is
    the returned flag and the new value of [id]. *)
Definition iter_increment (id : Z) : M (bool * Z) := fun s =>
  match records store !! cursor s with
  | Some r =>
      let id := Z.of_nat (cursor s) in
      (Ret (true, id),
       {| cursor := S (cursor s); rec := r; draws := draws s;
          owns_lock := owns_lock s;
          trace := trace s ++ [EvIncrement (Some id)];
          walk1 := walk1 s; walk2 := walk2 s |})
  | None =>
      (Ret (false, id),
       {| cursor := cursor s; rec := rec s; draws := draws s;
          owns_lock := owns_lock s;
          trace := trace s ++ [EvIncrement None];
          walk1 := walk1 s; walk2 := walk2 s |})
  end.

Definition lookup_record (id : Z) : option bytes :=
  if id <? 0 then None else records store !! Z.to_nat id.

Definition iter_seekExact (id : Z) : M bool := fun s =>
  match lookup_record id with
  | Some r =>
      (Ret true,
       {| cursor := cursor s; rec := r; draws := draws s;
          owns_lock := owns_lock s;
          trace := trace s ++ [EvSeekExact id true];
          walk1 := walk1 s; walk2 := walk2 s |})
  | None =>
      (Ret false,
       {| cursor := cursor s; rec := rec s; draws := draws s;
          owns_lock := owns_lock s;
          trace := trace s ++ [EvSeekExact id false];
          walk1 := walk1 s; walk2 := walk2 s |})
  end.

Definition iter_reset : M unit := fun s =>
  (Ret tt,
   {| cursor := 0; rec := rec s; draws := draws s;
      owns_lock := owns_lock s; trace := trace s ++ [EvReset];
      walk1 := walk1 s; walk2 := walk2 s |}).

(** [random()] *)
Definition random_draw : M Z := fun s =>
  (Ret (random (draws s)),
   {| cursor := cursor s; rec := rec s; draws := S (draws s);
      owns_lock := owns_lock s; trace := trace s;
      walk1 := walk1 s; walk2 := walk2 s |}).

(** Lines 113-121. *)
Definition emptyCheckProtect (sampleLenSum : Z) (r : bytes) : M unit :=
  if 0 =? sampleLenSum then
    if empty r
    then emit (EvAddSample (list_byte_of_string "Hello World!"))
    else emit (EvAddSample r)
  else ret tt.

(** Lines 172-175 and 210-213:
    [if (!rec.empty() && random() < sampleUpperBound)
       { builder->addSample(rec); sampled++; }];
    the generator is not called for an empty record. *)
Definition maybe_sample (sampleUpperBound sampled : Z) : M Z :=
  let* r := get_rec in
  if empty r then ret sampled
  else
    let* x := random_draw in
    if x <? sampleUpperBound
    then emit (EvAddSample r);; ret (sampled + 1)
    else ret sampled.

(** [NULL == isDel || !terark_bit_test(isDel, recId)] *)
Definition null_or_not_deleted (recId : Z) : bool :=
  match isDel with
  | None => true
  | Some del => negb (terark_bit_test del recId)
  end.

(** *** Without a purge bitmap (lines 168-186) *)

(** [while (iter.increment(&recId, &rec)) { ... }] of lines 170-177.
    The result is the last value of [recId] and [sampled]. *)
Fixpoint sample_loop (fuel : nat) (sampleUpperBound recId sampled : Z)
  : M (Z * Z) :=
  let* (hasData, recId) := iter_increment recId in
  if hasData then
    match fuel with
    | O => fail OutOfFuel
    | S fuel =>
        let live := null_or_not_deleted recId in
        let* sampled :=
          (if live then maybe_sample sampleUpperBound sampled
           else ret sampled) in
        note_visit1 {| v_logic := recId; v_physic := recId;
                       v_live := live |};;
        sample_loop fuel sampleUpperBound recId sampled
    end
  else ret (recId, sampled).

(** [while (iter.increment(&recId, &rec)) { ... }] of lines 182-186. *)
Fixpoint record_loop (fuel : nat) (recId : Z) : M Z :=
  let* (hasData, recId) := iter_increment recId in
  if hasData then
    match fuel with
    | O => fail OutOfFuel
    | S fuel =>
        let live := null_or_not_deleted recId in
        (if live
         then let* r := get_rec in emit (EvAddRecord r)
         else ret tt);;
        note_visit2 {| v_logic := recId; v_physic := recId;
                       v_live := live |};;
        record_loop fuel recId
    end
  else ret recId.

Definition build_without_purge (sampleUpperBound : Z) : M unit :=
  let fuel := length (records store) in
  let* (recId, sampled) :=
    sample_loop fuel sampleUpperBound recId_indeterminate 0 in
  let* r := get_rec in
  emptyCheckProtect sampled r;;
  lock_lock;;
  emit (EvPrepare (recId + 1) fpath);;
  iter_reset;;
  let* _ := record_loop fuel recId in
  ret tt.

(** *** With a purge bitmap (lines 189-250) *)

(** Conversion of a value to [size_t]. *)
Definition to_size_t (z : Z) : Z := z mod 2 ^ 64.

Section Purged.

(** [isDel], not null (line 189), and [isPurged->bldata()]. *)
Variable del : list Z.
Variable isPurgedptr : list Z.
Variable logicNum physicNum : Z.
Variable sampleUpperBound : Z.

(** Body of the loop of lines 196-218; the result is the new value of
    [physicId], [newPhysicId] and [sampled]. *)
Definition sample_purged_body (logicId physicId newPhysicId sampled : Z)
  : M (Z * Z * Z) :=
  if negb (terark_bit_test isPurgedptr logicId) then
    if negb (terark_bit_test del logicId) then
      let* hasData := iter_seekExact physicId in
      if negb hasData then
        emit (EvStderr (SeekMiss logicId physicId logicNum physicNum));;
        fail Abort
      else
        let* sampled := maybe_sample sampleUpperBound sampled in
        note_visit1 {| v_logic := logicId; v_physic := physicId;
                       v_live := true |};;
        ret (physicId + 1, newPhysicId + 1, sampled)
    else
      note_visit1 {| v_logic := logicId; v_physic := physicId;
                     v_live := false |};;
      ret (physicId + 1, newPhysicId, sampled)
  else ret (physicId, newPhysicId, sampled).

(** [for (size_t logicId = 0; logicId < logicNum; ++logicId)], with
    [n] iterations left. *)
Fixpoint sample_purged_loop (n : nat)
    (logicId physicId newPhysicId sampled : Z) : M (Z * Z * Z) :=
  match n with
  | O => ret (physicId, newPhysicId, sampled)
  | S n =>
      let* (physicId, newPhysicId, sampled) :=
        sample_purged_body logicId physicId newPhysicId sampled in
      sample_purged_loop n (logicId + 1) physicId newPhysicId sampled
  end.

(** Body of the loop of lines 229-245; the result is the new value of
    [physicId]. *)
Definition record_purged_body (logicId physicId : Z) : M Z :=
  if negb (terark_bit_test isPurgedptr logicId) then
    let* (hasData, physicId2) := iter_increment (-1) in
    if negb hasData || negb (physicId =? physicId2)
    then
      emit (EvStderr (IncrementMismatch hasData
                        logicId physicId physicId2 physicNum logicNum));;
      fail Abort
    else
      let live := negb (terark_bit_test del logicId) in
      (if live
       then let* r := get_rec in emit (EvAddRecord r)
       else ret tt);;
      note_visit2 {| v_logic := logicId; v_physic := physicId2;
                     v_live := live |};;
      ret (physicId + 1)
  else ret physicId.

Fixpoint record_purged_loop (n : nat) (logicId physicId : Z) : M Z :=
  match n with
  | O => ret physicId
  | S n =>
      let* physicId := record_purged_body logicId physicId in
      record_purged_loop n (logicId + 1) physicId
  end.

(** Lines 219-223 and 246-250: the count is reported, nothing else. *)
Definition check_count (physicId : Z) : M unit :=
  if negb (to_size_t physicId =? physicNum)
  then emit (EvStderr (CountMismatch physicId physicNum logicNum))
  else ret tt.

Definition build_purged : M unit :=
  let* (physicId, newPhysicId, sampled) :=
    sample_purged_loop (Z.to_nat logicNum) 0 0 0 0 in
  check_count physicId;;
  let* r := get_rec in
  emptyCheckProtect sampled r;;
  lock_lock;;
  emit (EvPrepare newPhysicId fpath);;
  iter_reset;;
  let* physicId := record_purged_loop (Z.to_nat logicNum) 0 0 in
  check_count physicId.

End Purged.

Definition build_with_purge (sampleUpperBound : Z) (purged : febitvec)
  : M unit :=
  match isDel with
  | None => fail AssertionFailed
  | Some del =>
      build_purged del (bldata purged)
        (Z.of_nat (fv_size purged)) (to_size_t (numDataRows store))
        sampleUpperBound
  end.

(** Lines 132-255, once [iter.getStore()] is known not to be null. *)
Definition build_from_store : M unit :=
  let sampleRatio :=
    effective_sample_ratio (m_dictZipSampleRatio schema)
      (dataInflateSize store) in
  let sampleUpperBound := sampleUpperBound sampleRatio in
  match isPurged with
  | None => build_without_purge sampleUpperBound
  | Some purged =>
      if (fv_size purged =? 0)%nat
      then build_without_purge sampleUpperBound
      else build_with_purge sampleUpperBound purged
  end;;
  emit EvCompleteBuild;;
  emit EvDestroyBuilder;;
  lock_unlock.

End Build.

(** [NestLoudsTrieStore::build_by_iter].  [getStore] is what
    [iter.getStore()] returns, [None] for a null pointer.  [Ret tt] means
    that the call returned, with [m_store] holding the store just built;
    the state says what was done on the way.  The trace starts with the
    first pass: the construction of [zds] and of the builder (lines
    129-131) is not an event of it, nor is their destruction when line 135
    throws; [EvDestroyBuilder] is the [builder.reset()] of line 253. *)
Definition build_by_iter (schema : Schema) (fpath : string)
    (getStore : option ReadableStore)
    (isDel : option (list Z)) (isPurged : option febitvec)
    (random : nat -> Z) (recId_indeterminate : Z)
  : outcome unit * State :=
  if Qlt_le_dec (m_dictZipSampleRatio schema) 0
  then fail InvalidArgument initial
  else
    match getStore with
    | None => fail InvalidArgument initial
    | Some store =>
        build_from_store schema fpath store isDel isPurged random
          recId_indeterminate initial
    end.

(** ** Persistence (lines 258-281) *)

Module Persist.

(** Modelled from the spec: [fstring::endsWith] belongs to the terark
    headers, which are not among the sources.  [endsWith s x] holds when
    the last [length x] characters of [s] are [x]. *)
Definition endsWith (s x : string) : bool :=
  if (String.length s <? String.length x)%nat then false
  else
    String.eqb
      (substring (String.length s - String.length x) (String.length x) s)
      x.

(** The classes an object behind [m_store] can have: those created by
    [nltBuild], [build] and [build_by_iter], and any other subclass of
    [BlobStore]. *)
Inductive StoreClass :=
| NestLoudsTrieBlobStore_IL
| NestLoudsTrieBlobStore_SE
| NestLoudsTrieBlobStore_SE_512
| FastZipBlobStore
| DictZipBlobStore
| OtherBlobStore (name : string).

Record BlobStore := {
  store_class : StoreClass;
  store_records : list bytes
}.

(** Modelled from the spec: the class hierarchy is declared outside the
    sources.  The three nested-trie stores that [nltBuild] returns as
    [BlobStore] are automata ([BaseDFA]); the two zip stores are not, and
    neither derives from the other. *)
Definition dynamic_cast_BaseDFA (st : BlobStore) : bool :=
  match store_class st with
  | NestLoudsTrieBlobStore_IL
  | NestLoudsTrieBlobStore_SE
  | NestLoudsTrieBlobStore_SE_512 => true
  | _ => false
  end.

Definition dynamic_cast_FastZipBlobStore (st : BlobStore) : bool :=
  match store_class st with
  | FastZipBlobStore => true
  | _ => false
  end.

Definition dynamic_cast_DictZipBlobStore (st : BlobStore) : bool :=
  match store_class st with
  | DictZipBlobStore => true
  | _ => false
  end.

(** The three [save_mmap] member functions called by [save]. *)
Inductive Serializer :=
| BaseDFA_save_mmap
| FastZipBlobStore_save_mmap
| DictZipBlobStore_save_mmap.

(** Modelled from the spec: [save_mmap] and [BlobStore::load_from] are
    declared outside the sources.  Section 6: one self-describing file
    per store, from which [load] reconstructs the store without other
    metadata.  A file remembers which serializer wrote it and the store
    it holds; the file system maps paths to files; [load_from] fails on a
    path that has no file. *)
Record File := {
  written_by : Serializer;
  holds : BlobStore
}.

Definition save_mmap (by_ : Serializer) (st : BlobStore) (fpath : string)
    (fs : gmap string File) : gmap string File :=
  <[fpath := {| written_by := by_; holds := st |}]> fs.

Definition load_from (fpath : string) (fs : gmap string File)
  : option BlobStore :=
  holds <$> fs !! fpath.

(** Lines 259-261: the [fpath] of [load]. *)
Definition load_fpath (path : string) : string :=
  if endsWith path ".nlt" then path else (path ++ ".nlt")%string.

(** Lines 266-268: the [fpath] of [save]. *)
Definition save_fpath (path : string) : string :=
  if endsWith path ".nlt" then path else (path ++ ".nlt")%string.

(** [NestLoudsTrieStore::load]: the new value of [m_store], [None] when
    [load_from] fails. *)
Definition load (path : string) (fs : gmap string File)
  : option BlobStore :=
  let fpath := load_fpath path in
  load_from fpath fs.

(** [NestLoudsTrieStore::save]: the file system after the call, or the
    exception thrown. *)
Definition save (m_store : BlobStore) (path : string)
    (fs : gmap string File) : outcome (gmap string File) :=
  let fpath := save_fpath path in
  if dynamic_cast_BaseDFA m_store then
    Ret (save_mmap BaseDFA_save_mmap m_store fpath fs)
  else if dynamic_cast_FastZipBlobStore m_store then
    Ret (save_mmap FastZipBlobStore_save_mmap m_store fpath fs)
  else if dynamic_cast_DictZipBlobStore m_store then
    Ret (save_mmap DictZipBlobStore_save_mmap m_store fpath fs)
  else Fail InvalidArgument.

(** The class [nltBuild] instantiates (lines 77-88). *)
Definition nltBuild (schema : Schema) : StoreClass :=
  if m_rankSelectClass schema =? -256 then NestLoudsTrieBlobStore_IL
  else if m_rankSelectClass schema =? 256 then NestLoudsTrieBlobStore_SE
  else if m_rankSelectClass schema =? 512
       then NestLoudsTrieBlobStore_SE_512
  else NestLoudsTrieBlobStore_SE_512.

(** The class [NestLoudsTrieStore::build] instantiates (lines 92-106). *)
Definition build (schema : Schema) : StoreClass :=
  if Qlt_le_dec 0 (m_dictZipSampleRatio schema) then DictZipBlobStore
  else if m_useFastZip schema then FastZipBlobStore
  else nltBuild schema.

(** The serializer that belongs to a recognised variant, in the words of
    section 4.4: each variant is persisted only by its own serializer. *)
Definition own_serializer (c : StoreClass) : option Serializer :=
  match c with
  | NestLoudsTrieBlobStore_IL
  | NestLoudsTrieBlobStore_SE
  | NestLoudsTrieBlobStore_SE_512 => Some BaseDFA_save_mmap
  | FastZipBlobStore => Some FastZipBlobStore_save_mmap
  | DictZipBlobStore => Some DictZipBlobStore_save_mmap
  | OtherBlobStore _ => None
  end.

End Persist.

(** ** Vocabulary of the statements *)

(** The physical ids of the entries of a history whose deletion test
    passed: the records a pass treated as live, in order. *)
Definition live_ids (w : list visit) : list Z :=
  map v_physic (List.filter v_live w).

(** The Reconciler of section 4.2, in the words of the specification.
    Mode B: walk the logical ids in sequence with a physical-id counter
    that advances only on ids that are not purged; an id is live when it is
    neither purged nor deleted.  [Reconciler_walk del purged n l p] walks
    [n] logical ids from [l], the counter being at [p]. *)
Fixpoint Reconciler_walk (del purged : list Z) (n : nat)
    (logicId physicId : Z) : list visit :=
  match n with
  | O => []
  | S n =>
      if terark_bit_test purged logicId
      then Reconciler_walk del purged n (logicId + 1) physicId
      else {| v_logic := logicId; v_physic := physicId;
              v_live := negb (terark_bit_test del logicId) |}
           :: Reconciler_walk del purged n (logicId + 1) (physicId + 1)
  end.

(** Mode A: the logical id is the physical id, and an id is live when it
    is not deleted. *)
Definition Reconciler_identity (isDel : option (list Z)) (k : Z) : visit :=
  {| v_logic := k; v_physic := k;
     v_live := null_or_not_deleted isDel k |}.

(** The logical ids [0 .. N-1] that the purge bitmap marks, and those it
    does not mark. *)
Definition purged_ids (purged : list Z) (N : Z) : list Z :=
  List.filter (terark_bit_test purged) (seqZ 0 N).

Definition kept_ids (purged : list Z) (N : Z) : list Z :=
  List.filter (fun l => negb (terark_bit_test purged l)) (seqZ 0 N).

(** Kinds of events. *)
Definition sampling_event (e : event) : bool :=
  match e with
  | EvIncrement _ | EvSeekExact _ _ | EvAddSample _ | EvStderr _ => true
  | _ => false
  end.

Definition recording_event (e : event) : bool :=
  match e with
  | EvIncrement _ | EvAddRecord _ | EvStderr _ => true
  | _ => false
  end.

Definition is_miss (e : event) : bool :=
  match e with
  | EvSeekExact _ false => true
  | _ => false
  end.

Definition is_sample (e : event) : bool :=
  match e with
  | EvAddSample r => negb (empty r)
  | _ => false
  end.

Definition fallback_sample : bytes := list_byte_of_string "Hello World!".

(** The records handed to [addRecord], and the ids that [seekExact] found,
    as the trace shows them. *)
Definition add_records (evs : list event) : list bytes :=
  flat_map (fun e => match e with EvAddRecord r => [r] | _ => [] end) evs.

Definition seek_hits (evs : list event) : list Z :=
  flat_map (fun e => match e with EvSeekExact id true => [id] | _ => [] end)
    evs.

(** The record of a physical id; empty if the store has none. *)
Definition record_of (store : ReadableStore) (id : Z) : bytes :=
  match lookup_record store id with
  | Some r => r
  | None => []
  end.

(** What a piece of the build did to the state: it appended [evs] to the
    trace and [w1], [w2] to the two histories, and left the lock alone. *)
Record step (s s' : State) (evs : list event) (w1 w2 : list visit)
  : Prop := {
  step_lock : owns_lock s' = owns_lock s;
  step_trace : trace s' = trace s ++ evs;
  step_walk1 : walk1 s' = walk1 s ++ w1;
  step_walk2 : walk2 s' = walk2 s ++ w2
}.

(** No [seekExact] in [evs] came back empty-handed. *)
Definition no_miss (evs : list event) : Prop :=
  forallb (fun e => negb (is_miss e)) evs = true.

(** A live entry of a history names a record the store has. *)
Definition in_store (store : ReadableStore) (v : visit) : Prop :=
  v_live v = true -> is_Some (lookup_record store (v_physic v)).

(** What the sampling decisions of a pass added to the trace, [sm] and
    [sm'] being the value of [sampled] before and after. *)
Definition sample_events_ok (sm sm' : Z) (evs : list event) : Prop :=
  forallb sampling_event evs = true /\ no_miss evs /\
  sm' = sm + Z.of_nat (length (List.filter is_sample evs)).

(** The content of [rec] after a walk that started with [r0] in it: the
    record of the last live entry, fetched by [seekExact]. *)
Definition last_fetched (store : ReadableStore) (r0 : bytes)
    (W : list visit) : bytes :=
  fold_left
    (fun r v =>
       if v_live v
       then match lookup_record store (v_physic v) with
            | Some x => x
            | None => r
            end
       else r)
    W r0.

(** Specification of [n] iterations of the sampling loop of the purge
    branch, started at logical id [l] with [physicId = p],
    [newPhysicId = np] and [sampled = sm]. *)
Definition sample_purged_post (store : ReadableStore) (del purged : list Z)
    (logicNum physicNum : Z) (n : nat) (l p np sm : Z) (s : State)
    (o : outcome (Z * Z * Z)) (s' : State) : Prop :=
  let W := Reconciler_walk del purged n l p in
  cursor s' = cursor s /\
  exists evs w, step s s' evs w [] /\
    match o with
    | Ret (p', np', sm') =>
        w = W /\
        p' = p + Z.of_nat (length W) /\
        np' = np + Z.of_nat (length (live_ids W)) /\
        Forall (in_store store) W /\
        sample_events_ok sm sm' evs /\
        rec s' = last_fetched store (rec s) W /\
        seek_hits evs = live_ids W
    | Fail f =>
        f = Abort /\
        exists evs0 l' p' post,
          evs = evs0 ++ [EvSeekExact p' false;
                         EvStderr (SeekMiss l' p' logicNum physicNum)] /\
          forallb sampling_event evs0 = true /\
          no_miss evs0 /\
          seek_hits evs0 = live_ids w /\
          W = w ++ {| v_logic := l'; v_physic := p'; v_live := true |}
                   :: post /\
          lookup_record store p' = None
    end.

(** Specification of [n] iterations of the recording loop of the purge
    branch, started at logical id [l] with [physicId = p]. *)
Definition record_purged_post (store : ReadableStore) (del purged : list Z)
    (logicNum physicNum : Z) (n : nat) (l p : Z) (s : State)
    (o : outcome Z) (s' : State) : Prop :=
  let W := Reconciler_walk del purged n l p in
  exists evs w, step s s' evs [] w /\
    forallb recording_event evs = true /\
    add_records evs = map (record_of store) (live_ids w) /\
    match o with
    | Ret p' =>
        w = W /\ p' = p + Z.of_nat (length W) /\
        Z.of_nat (cursor s') = p'
    | Fail f =>
        f = Abort /\
        exists evs0 v post,
          evs = evs0 ++ [EvIncrement None;
                         EvStderr (IncrementMismatch false (v_logic v)
                                     (v_physic v) (-1) physicNum logicNum)] /\
          W = w ++ v :: post /\
          lookup_record store (v_physic v) = None
    end.

(** The history of a pass of the branch without purge bitmap over the
    records from position [c] on, [n] of them. *)
Definition identity_walk (isDel : option (list Z)) (c : nat) (n : nat)
  : list visit :=
  map (Reconciler_identity isDel) (seqZ (Z.of_nat c) (Z.of_nat n)).

(** The diagnostic of [check_count], and the sample of
    [emptyCheckProtect], as lists of events. *)
Definition count_report (logicNum physicNum physicId : Z) : list event :=
  if negb (to_size_t physicId =? physicNum)
  then [EvStderr (CountMismatch physicId physicNum logicNum)]
  else [].

Definition protect_events (sampled : Z) (r : bytes) : list event :=
  if 0 =? sampled
  then [EvAddSample (if empty r then fallback_sample else r)]
  else [].

(** [NULL == isPurged || isPurged->size() == 0] *)
Definition no_purge (isPurged : option febitvec) : bool :=
  match isPurged with
  | None => true
  | Some purged => (fv_size purged =? 0)%nat
  end.

(** The calls that end a build (lines 252-254). *)
Definition closing : list event :=
  [EvCompleteBuild; EvDestroyBuilder; EvUnlock].

(** The ways a call of [build_by_iter] can go, with what the final state
    holds in each. *)
Inductive anatomy (schema : Schema) (fpath : string)
    (getStore : option ReadableStore) (isDel : option (list Z))
    (isPurged : option febitvec) (recId0 : Z)
  : outcome unit -> State -> Prop :=
| Rejected :
    (m_dictZipSampleRatio schema < 0)%Q \/ getStore = None ->
    anatomy schema fpath getStore isDel isPurged recId0
      (Fail InvalidArgument) initial
| DeletionBitmapMissing :
    no_purge isPurged = false -> isDel = None ->
    anatomy schema fpath getStore isDel isPurged recId0
      (Fail AssertionFailed) initial
| NoPurgeBuilt store s T1 sm T2 :
    getStore = Some store -> no_purge isPurged = true ->
    owns_lock s = false ->
    walk1 s = identity_walk isDel 0 (length (records store)) ->
    walk2 s = identity_walk isDel 0 (length (records store)) ->
    sample_events_ok 0 sm T1 ->
    forallb recording_event T2 = true ->
    add_records T2 = map (record_of store) (live_ids (walk2 s)) ->
    trace s = T1 ++ protect_events sm (List.last (records store) [])
              ++ [EvLock;
                  EvPrepare (match length (records store) with
                             | O => recId0
                             | S _ => numDataRows store - 1
                             end + 1) fpath;
                  EvReset] ++ T2 ++ closing ->
    anatomy schema fpath getStore isDel isPurged recId0 (Ret tt) s
| SamplingAborted store purged del s evs0 l p post :
    getStore = Some store -> isPurged = Some purged -> isDel = Some del ->
    no_purge isPurged = false ->
    owns_lock s = false -> walk2 s = [] ->
    trace s = evs0 ++ [EvSeekExact p false;
                       EvStderr (SeekMiss l p (Z.of_nat (fv_size purged))
                                   (to_size_t (numDataRows store)))] ->
    forallb sampling_event evs0 = true -> no_miss evs0 ->
    seek_hits evs0 = live_ids (walk1 s) ->
    Reconciler_walk del (bldata purged) (fv_size purged) 0 0
    = walk1 s ++ {| v_logic := l; v_physic := p; v_live := true |} :: post ->
    lookup_record store p = None ->
    anatomy schema fpath getStore isDel isPurged recId0 (Fail Abort) s
| RecordingAborted store purged del s T1 sm T2 v post :
    getStore = Some store -> isPurged = Some purged -> isDel = Some del ->
    no_purge isPurged = false ->
    let W := Reconciler_walk del (bldata purged) (fv_size purged) 0 0 in
    let logicNum := Z.of_nat (fv_size purged) in
    let physicNum := to_size_t (numDataRows store) in
    owns_lock s = true ->
    walk1 s = W -> Forall (in_store store) W ->
    W = walk2 s ++ v :: post ->
    lookup_record store (v_physic v) = None ->
    sample_events_ok 0 sm T1 ->
    seek_hits T1 = live_ids W ->
    forallb recording_event T2 = true ->
    add_records T2 = map (record_of store) (live_ids (walk2 s)) ->
    trace s = T1 ++ count_report logicNum physicNum (Z.of_nat (length W))
              ++ protect_events sm (last_fetched store [] W)
              ++ [EvLock; EvPrepare (Z.of_nat (length (live_ids W))) fpath;
                  EvReset]
              ++ T2
              ++ [EvIncrement None;
                  EvStderr (IncrementMismatch false (v_logic v) (v_physic v)
                              (-1) physicNum logicNum)] ->
    anatomy schema fpath getStore isDel isPurged recId0 (Fail Abort) s
| PurgeBuilt store purged del s T1 sm T2 :
    getStore = Some store -> isPurged = Some purged -> isDel = Some del ->
    no_purge isPurged = false ->
    let W := Reconciler_walk del (bldata purged) (fv_size purged) 0 0 in
    let logicNum := Z.of_nat (fv_size purged) in
    let physicNum := to_size_t (numDataRows store) in
    owns_lock s = false ->
    walk1 s = W -> Forall (in_store store) W ->
    walk2 s = W ->
    sample_events_ok 0 sm T1 ->
    seek_hits T1 = live_ids W ->
    forallb recording_event T2 = true ->
    add_records T2 = map (record_of store) (live_ids W) ->
    trace s = T1 ++ count_report logicNum physicNum (Z.of_nat (length W))
              ++ protect_events sm (last_fetched store [] W)
              ++ [EvLock; EvPrepare (Z.of_nat (length (live_ids W))) fpath;
                  EvReset]
              ++ T2
              ++ count_report logicNum physicNum (Z.of_nat (length W))
              ++ closing ->
    anatomy schema fpath getStore isDel isPurged recId0 (Ret tt) s.

Definition is_prepare (e : event) : bool :=
  match e with
  | EvPrepare _ _ => true
  | _ => false
  end.

(** The live physical ids in the words of section 4.2: without purge
    bitmap the ids that are not deleted; with one, the ids the walk gives
    to the logical ids that are neither purged nor deleted. *)
Definition expected_live_ids (store : ReadableStore)
    (isDel : option (list Z)) (isPurged : option febitvec) : list Z :=
  if no_purge isPurged
  then List.filter (null_or_not_deleted isDel) (seqZ 0 (numDataRows store))
  else
    match isPurged, isDel with
    | Some purged, Some del =>
        live_ids (Reconciler_walk del (bldata purged) (fv_size purged) 0 0)
    | _, _ => []
    end.

(** The record left in [rec] by the sampling pass: the last record of the
    store without purge bitmap, the last live record with one; empty if
    there is none. *)
Definition last_record_encountered (store : ReadableStore)
    (isDel : option (list Z)) (isPurged : option febitvec) : bytes :=
  if no_purge isPurged
  then List.last (records store) []
  else
    match isPurged, isDel with
    | Some purged, Some del =>
        last_fetched store []
          (Reconciler_walk del (bldata purged) (fv_size purged) 0 0)
    | _, _ => []
    end.

(** ** Sample inputs *)

Module Samples.

Definition schema0 : Schema :=
  {| m_dictZipSampleRatio := 0; m_checksumLevel := 0;
     m_useFastZip := false; m_rankSelectClass := 512 |}.

Definition two_records : ReadableStore :=
  {| records := [list_byte_of_string "ab"; list_byte_of_string "cd"];
     dataInflateSize := 4 |}.

Definition five_records : ReadableStore :=
  {| records := map list_byte_of_string ["a"; "b"; ""; "d"; "e"];
     dataInflateSize := 4 |}.

Definition seven_records : ReadableStore :=
  {| records := map list_byte_of_string
                  ["r0"; "r2"; "r3"; "r5"; "r6"; "r8"; "r9"];
     dataInflateSize := 14 |}.

Definition ten_records : ReadableStore :=
  {| records := map list_byte_of_string
                  ["r0"; "r1"; "r2"; "r3"; "r4"; "r5"; "r6"; "r7"; "r8";
                   "r9"];
     dataInflateSize := 20 |}.

(** A generator that always returns the largest value: nothing is
    sampled; and one that always returns zero: every record that is not
    empty is sampled. *)
Definition never (_ : nat) : Z := 2 ^ 64 - 1.
Definition always (_ : nat) : Z := 0.

(** Bitmaps of one word. *)
Definition bits (word : Z) : list Z := [word].
Definition bitvec (size : nat) (word : Z) : febitvec :=
  {| fv_size := size; bldata := [word] |}.

End Samples.

(** ** Vocabulary of the further properties *)

(** The samples handed to [addSample], as the trace shows them. *)
Definition add_samples (evs : list event) : list bytes :=
  flat_map (fun e => match e with EvAddSample r => [r] | _ => [] end) evs.

(** The records of the live entries of a history, in order. *)
Definition live_records (store : ReadableStore) (w : list visit)
  : list bytes :=
  map (record_of store) (live_ids w).

(** The entry names a record the store has. *)
Definition has_record (store : ReadableStore) (v : visit) : Prop :=
  is_Some (lookup_record store (v_physic v)).

Definition nonempty (r : bytes) : bool := negb (empty r).

(** Events other than diagnostics and random-access lookups. *)
Definition quiet (e : event) : bool :=
  match e with
  | EvStderr _ | EvSeekExact _ _ => false
  | _ => true
  end.

(** The samples that the decisions
    [!rec.empty() && random() < sampleUpperBound] take from the records
    [recs], the generator having been called [k] times before: a record
    that is empty takes no draw, the others take one each. *)
Fixpoint sampled_from (random : nat -> Z) (sampleUpperBound : Z) (k : nat)
    (recs : list bytes) : list bytes :=
  match recs with
  | [] => []
  | r :: recs =>
      if empty r then sampled_from random sampleUpperBound k recs
      else if random k <? sampleUpperBound
      then r :: sampled_from random sampleUpperBound (S k) recs
      else sampled_from random sampleUpperBound (S k) recs
  end.

(** What the decision on the record [r] adds to the samples, the
    generator having been called [k] times before. *)
Definition decided (random : nat -> Z) (sampleUpperBound : Z) (k : nat)
    (r : bytes) : list bytes :=
  if empty r then []
  else if random k <? sampleUpperBound then [r] else [].

(** What the sampling pass keeps true of the state: the samples handed
    over so far are those the draws select from the records of the live
    entries of its history, and the generator has been called once for
    each live record that is not empty. *)
Record sampling_inv (store : ReadableStore) (random : nat -> Z)
    (bound : Z) (s : State) : Prop := {
  si_samples :
    add_samples (trace s)
    = sampled_from random bound 0 (live_records store (walk1 s));
  si_draws :
    draws s = length (List.filter nonempty (live_records store (walk1 s)))
}.

(** What the recording pass keeps true of the state: the entries of its
    history name records the store has. *)
Definition recording_inv (store : ReadableStore) (s : State) : Prop :=
  Forall (has_record store) (walk2 s).

(** The state differs from [s] only in what the recording pass and the
    calls around it touch: the history of the sampling pass, the number of
    draws and the samples in the trace are those of [s]. *)
Record after_sampling (s s' : State) : Prop := {
  as_walk1 : walk1 s' = walk1 s;
  as_draws : draws s' = draws s;
  as_samples : add_samples (trace s') = add_samples (trace s)
}.

(** A piece of the build that runs after the sampling pass: it leaves
    what that pass established alone, keeps the entries of the recording
    history within the store, and adds only events of kind [P] to a trace
    of such events. *)
Definition keeps (store : ReadableStore) (P : event -> bool) {A}
    (m : M A) : Prop :=
  forall s o s', m s = (o, s') ->
    after_sampling s s' /\
    (recording_inv store s -> recording_inv store s') /\
    (forallb P (trace s) = true -> forallb P (trace s') = true).

(** What holds of the state a build ends in: the samples are those the
    draws selected, or, when they selected none, the one sample that
    [emptyCheckProtect] makes of the record [left] in [rec]. *)
Record build_facts (store : ReadableStore) (random : nat -> Z)
    (bound : Z) (left : bytes) (s : State) : Prop := {
  bf_recording : recording_inv store s;
  bf_draws :
    draws s = length (List.filter nonempty (live_records store (walk1 s)));
  bf_samples :
    let picked :=
      sampled_from random bound 0 (live_records store (walk1 s)) in
    add_samples (trace s) = picked \/
    picked = [] /\
    add_samples (trace s) = [if empty left then fallback_sample else left]
}.

Definition any_event (_ : event) : bool := true.

(** The calls of [prepare], with their arguments, as the trace shows
    them. *)
Definition prepare_calls (evs : list event) : list (Z * string) :=
  flat_map (fun e => match e with
                     | EvPrepare n path => [(n, path)]
                     | _ => []
                     end) evs.

(** The destruction of the builder, the one event of a trace that the
    unwinding of an exception can be the cause of. *)
Definition unwinding_event (e : event) : bool :=
  match e with
  | EvDestroyBuilder => true
  | _ => false
  end.

(** Lines 167-251, the two passes in one branch or the other, for any
    value [threshold] of [sampleUpperBound]: what [build_from_store] runs
    with the threshold it has computed. *)
Definition build_passes (fpath : string) (store : ReadableStore)
    (isDel : option (list Z)) (isPurged : option febitvec)
    (random : nat -> Z) (recId_indeterminate : Z) (threshold : Z)
  : M unit :=
  match isPurged with
  | None =>
      build_without_purge fpath store isDel random recId_indeterminate
        threshold
  | Some purged =>
      if (fv_size purged =? 0)%nat
      then build_without_purge fpath store isDel random
             recId_indeterminate threshold
      else build_with_purge fpath store isDel random threshold purged
  end.

(** * Proofs *)

(** ** Steps *)

Lemma step_refl s : step s s [] [] [].
Proof. constructor; now rewrite ?app_nil_r. Qed.

Lemma step_trans s s1 s2 e1 e2 a1 a2 b1 b2 :
  step s s1 e1 a1 b1 -> step s1 s2 e2 a2 b2 ->
  step s s2 (e1 ++ e2) (a1 ++ a2) (b1 ++ b2).
Proof.
  intros [L1 T1 A1 B1] [L2 T2 A2 B2].
  constructor; rewrite ?app_assoc; congruence.
Qed.

Lemma no_miss_app a b : no_miss a -> no_miss b -> no_miss (a ++ b).
Proof. unfold no_miss. intros Ha Hb. now rewrite forallb_app, Ha, Hb. Qed.

Lemma live_ids_cons v w :
  live_ids (v :: w)
  = if v_live v then v_physic v :: live_ids w else live_ids w.
Proof. unfold live_ids. simpl. destruct (v_live v); reflexivity. Qed.

Lemma live_ids_app a b : live_ids (a ++ b) = live_ids a ++ live_ids b.
Proof. unfold live_ids. now rewrite List.filter_app, map_app. Qed.

Lemma add_records_app a b :
  add_records (a ++ b) = add_records a ++ add_records b.
Proof. apply flat_map_app. Qed.

Lemma seek_hits_app a b : seek_hits (a ++ b) = seek_hits a ++ seek_hits b.
Proof. apply flat_map_app. Qed.

Lemma sampling_add_records evs :
  forallb sampling_event evs = true -> add_records evs = [].
Proof.
  induction evs as [|e evs IH]; [reflexivity|].
  intros [He H]%andb_true_iff.
  change (e :: evs) with ([e] ++ evs). rewrite add_records_app.
  rewrite IH by assumption. now destruct e.
Qed.

Lemma record_of_Some store id r :
  lookup_record store id = Some r -> record_of store id = r.
Proof. unfold record_of. now intros ->. Qed.

(** ** The sampling decision *)

Lemma maybe_sample_spec random bound sm s o s' :
  maybe_sample random bound sm s = (o, s') ->
  cursor s' = cursor s /\ rec s' = rec s /\
  exists sm' evs,
    o = Ret sm' /\ step s s' evs [] [] /\
    (evs = [] /\ sm' = sm \/
     evs = [EvAddSample (rec s)] /\ sm' = sm + 1 /\ empty (rec s) = false).
Proof.
  unfold maybe_sample, bind, get_rec, random_draw, emit, ret.
  destruct (empty (rec s)) eqn:He.
  - intros [= <- <-]. split_and!; try reflexivity.
    exists sm, []. split_and!; [reflexivity|apply step_refl|now left].
  - destruct (random (draws s) <? bound); intros [= <- <-]; cbn;
      (split_and!; try reflexivity).
    + exists (sm + 1), [EvAddSample (rec s)].
      split_and!; [reflexivity| |right; now split_and!].
      constructor; cbn; now rewrite ?app_nil_r.
    + exists sm, []. split_and!; [reflexivity| |now left].
      constructor; cbn; now rewrite ?app_nil_r.
Qed.

(** What the sampling decision adds to the trace. *)

Lemma maybe_sample_ok random bound sm s o s' :
  maybe_sample random bound sm s = (o, s') ->
  cursor s' = cursor s /\ rec s' = rec s /\
  exists sm' evs,
    o = Ret sm' /\ step s s' evs [] [] /\ sample_events_ok sm sm' evs /\
    seek_hits evs = [].
Proof.
  intros E. apply maybe_sample_spec in E as (Hc & Hr & sm' & evs & -> & St & H).
  split_and!; try assumption. exists sm', evs.
  split_and!; try easy;
    destruct H as [[-> ->]|(-> & -> & He)]; try reflexivity;
    unfold sample_events_ok, no_miss; cbn.
  - split_and!; try reflexivity; lia.
  - rewrite He. cbn. split_and!; try reflexivity; lia.
Qed.

Lemma sample_events_ok_nil sm : sample_events_ok sm sm [].
Proof.
  unfold sample_events_ok, no_miss. cbn.
  split_and!; try reflexivity; lia.
Qed.

Lemma sample_events_ok_app a b c e1 e2 :
  sample_events_ok a b e1 -> sample_events_ok b c e2 ->
  sample_events_ok a c (e1 ++ e2).
Proof.
  intros (A1 & A2 & A3) (B1 & B2 & B3).
  unfold sample_events_ok.
  rewrite forallb_app, List.filter_app, length_app, A1, B1.
  split_and!; [reflexivity|now apply no_miss_app|lia].
Qed.

(** ** The purge branch: sampling pass *)

Lemma Reconciler_walk_S del purged n l p :
  Reconciler_walk del purged (S n) l p
  = Reconciler_walk del purged 1 l p
    ++ Reconciler_walk del purged n (l + 1)
         (p + Z.of_nat (length (Reconciler_walk del purged 1 l p))).
Proof.
  cbn [Reconciler_walk]. destruct (terark_bit_test purged l); cbn.
  - now rewrite Z.add_0_r.
  - reflexivity.
Qed.

Section PurgedFacts.
Variables (store : ReadableStore) (random : nat -> Z).
Variables (del purged : list Z) (logicNum physicNum bound : Z).

Lemma sample_purged_body_spec l p np sm s o s' :
  sample_purged_body store random del purged logicNum physicNum bound
    l p np sm s = (o, s') ->
  sample_purged_post store del purged logicNum physicNum 1 l p np sm s o s'.
Proof.
  unfold sample_purged_body, sample_purged_post. cbn [Reconciler_walk].
  destruct (terark_bit_test purged l) eqn:Hp; cbn [negb].
  - intros [= <- <-]. split; [reflexivity|].
    exists [], []. split; [apply step_refl|]. cbn.
    rewrite !Z.add_0_r. split_and!; try reflexivity.
    + constructor.
    + apply sample_events_ok_nil.
  - destruct (terark_bit_test del l) eqn:Hd; cbn [negb].
    + unfold bind, note_visit1, ret. intros [= <- <-].
      split; [reflexivity|].
      exists [], [{| v_logic := l; v_physic := p; v_live := false |}].
      split; [constructor; cbn; now rewrite ?app_nil_r|].
      cbn. rewrite Z.add_0_r. split_and!; try reflexivity.
      * constructor; [intros X; discriminate X|constructor].
      * apply sample_events_ok_nil.
    + unfold bind at 1, iter_seekExact at 1.
      destruct (lookup_record store p) as [r|] eqn:Hl; cbn [negb].
      * unfold bind at 1.
        destruct (maybe_sample _ _ _ _) as [o1 s1] eqn:E1.
        apply maybe_sample_ok in E1
          as (Hc & Hr & sm' & evs & -> & St & Hok & Hseek).
        unfold bind, note_visit1, ret. intros [= <- <-].
        cbn [cursor rec] in *. split; [assumption|].
        exists (EvSeekExact p true :: evs),
          [{| v_logic := l; v_physic := p; v_live := true |}].
        destruct St as [L T A B]. cbn in L, T, A, B.
        split; [constructor; cbn|].
        -- assumption.
        -- rewrite T, <- app_assoc. reflexivity.
        -- rewrite A, app_nil_r. reflexivity.
        -- rewrite B. reflexivity.
        -- cbn. split_and!; try reflexivity.
           ++ constructor; [|constructor]. intros _. cbn. rewrite Hl. eauto.
           ++ change (EvSeekExact p true :: evs)
                with ([EvSeekExact p true] ++ evs).
              eapply sample_events_ok_app; [|exact Hok].
              unfold sample_events_ok, no_miss. cbn.
              split_and!; try reflexivity; lia.
           ++ now rewrite Hl.
           ++ f_equal. exact Hseek.
      * unfold bind, emit, fail. intros [= <- <-].
        split; [reflexivity|].
        exists [EvSeekExact p false;
                EvStderr (SeekMiss l p logicNum physicNum)], [].
        split; [constructor; cbn; rewrite <- ?app_assoc, ?app_nil_r;
                reflexivity|].
        split; [reflexivity|].
        exists [], l, p, []. cbn. split_and!; try reflexivity. assumption.
Qed.

Lemma sample_purged_post_S n l p np sm s p1 np1 sm1 s1 o s' :
  sample_purged_post store del purged logicNum physicNum 1 l p np sm s
    (Ret (p1, np1, sm1)) s1 ->
  sample_purged_post store del purged logicNum physicNum n (l + 1)
    p1 np1 sm1 s1 o s' ->
  sample_purged_post store del purged logicNum physicNum (S n) l p np sm
    s o s'.
Proof.
  unfold sample_purged_post.
  intros (C1 & e1 & w1 & St1 & -> & -> & -> & F1 & Ok1 & R1 & K1)
         (C2 & e2 & w2 & St2 & H2).
  rewrite Reconciler_walk_S.
  set (W1 := Reconciler_walk del purged 1 l p) in *.
  set (W2 := Reconciler_walk del purged n (l + 1)
               (p + Z.of_nat (length W1))) in *.
  split; [congruence|].
  exists (e1 ++ e2), (W1 ++ w2).
  split; [exact (step_trans _ _ _ _ _ _ _ _ _ St1 St2)|].
  destruct o as [[[p' np'] sm']|f].
  - destruct H2 as (-> & -> & -> & F2 & Ok2 & R2 & K2).
    rewrite live_ids_app, !length_app, !Nat2Z.inj_add.
    split_and!; try reflexivity; try lia.
    + apply Forall_app; now split.
    + eapply sample_events_ok_app; eassumption.
    + unfold last_fetched in *. rewrite fold_left_app, <- R1. exact R2.
    + now rewrite seek_hits_app, K1, K2.
  - destruct H2 as (-> & evs0 & l' & p' & post & -> & S0 & N0 & K0 & HW
                    & Hl).
    split; [reflexivity|].
    exists (e1 ++ evs0), l', p', post.
    destruct Ok1 as (O1 & O2 & _).
    rewrite <- !app_assoc, forallb_app, O1, S0, HW.
    split_and!; try reflexivity; try assumption.
    + now apply no_miss_app.
    + now rewrite seek_hits_app, live_ids_app, K1, K0.
Qed.

Lemma sample_purged_post_fail n l p np sm s f s1 :
  sample_purged_post store del purged logicNum physicNum 1 l p np sm s
    (Fail f) s1 ->
  sample_purged_post store del purged logicNum physicNum (S n) l p np sm
    s (Fail f) s1.
Proof.
  unfold sample_purged_post.
  intros (C1 & e1 & w1 & St1 & -> & evs0 & l' & p' & post & -> & S0 & N0
          & K0 & HW & Hl).
  rewrite Reconciler_walk_S, HW.
  split; [assumption|]. eexists; exists w1. split; [exact St1|].
  split; [reflexivity|].
  eexists evs0, l', p', (post ++ _).
  rewrite <- !app_assoc. cbn. split_and!; try reflexivity; assumption.
Qed.

Lemma sample_purged_loop_spec n : forall l p np sm s o s',
  sample_purged_loop store random del purged logicNum physicNum bound
       n l p np sm s = (o, s') ->
  sample_purged_post store del purged logicNum physicNum n l p np sm s o s'.
Proof.
  induction n as [|n IH]; intros l p np sm s o s' E.
  - cbn in E. injection E as <- <-. unfold sample_purged_post; cbn.
    split; [reflexivity|]. exists [], []. split; [apply step_refl|].
    rewrite !Z.add_0_r. split_and!; try reflexivity.
    + constructor.
    + apply sample_events_ok_nil.
  - cbn [sample_purged_loop] in E. unfold bind at 1 in E.
    destruct (sample_purged_body _ _ _ _ _ _ _ _ _ _ _ _)
      as [[[[p1 np1] sm1]|f] s1] eqn:E1;
      apply sample_purged_body_spec in E1.
    + apply IH in E. eapply sample_purged_post_S; eassumption.
    + injection E as <- <-. now apply sample_purged_post_fail.
Qed.
End PurgedFacts.

(** ** The purge branch: recording pass *)

Section PurgedRecording.
Variables (store : ReadableStore).
Variables (del purged : list Z) (logicNum physicNum : Z).

Lemma record_purged_body_spec l p s o s' :
  Z.of_nat (cursor s) = p ->
  record_purged_body store del purged logicNum physicNum l p s = (o, s') ->
  record_purged_post store del purged logicNum physicNum 1 l p s o s'.
Proof.
  intros Hc. unfold record_purged_body, record_purged_post.
  cbn [Reconciler_walk].
  destruct (terark_bit_test purged l) eqn:Hp; cbn [negb].
  - intros [= <- <-]. exists [], []. split; [apply step_refl|].
    cbn. rewrite Z.add_0_r. now split_and!.
  - unfold bind at 1, iter_increment at 1.
    assert (Hrec : forall r, records store !! cursor s = Some r ->
                             record_of store p = r).
    { intros r Hr. apply record_of_Some. unfold lookup_record. subst p.
      destruct (Z.ltb_spec (Z.of_nat (cursor s)) 0); [lia|].
      now rewrite Nat2Z.id. }
    destruct (records store !! cursor s) as [r|] eqn:Hl.
    + rewrite Hc, Z.eqb_refl. cbn [negb orb].
      destruct (terark_bit_test del l) eqn:Hd; cbn [negb];
        unfold bind, get_rec, emit, note_visit2, ret;
        intros [= <- <-]; cbn [cursor].
      * exists [EvIncrement (Some p)],
          [{| v_logic := l; v_physic := p; v_live := false |}].
        split; [constructor; cbn; now rewrite ?app_nil_r|].
        cbn. split_and!; try reflexivity. lia.
      * exists [EvIncrement (Some p); EvAddRecord r],
          [{| v_logic := l; v_physic := p; v_live := true |}].
        split; [constructor; cbn; now rewrite <- ?app_assoc, ?app_nil_r|].
        cbn. split_and!; try reflexivity; try lia.
        now rewrite (Hrec r eq_refl).
    + cbn [negb orb]. unfold bind, emit, fail. intros [= <- <-].
      exists [EvIncrement None;
              EvStderr (IncrementMismatch false l p (-1)
                          physicNum logicNum)], [].
      split; [constructor; cbn; now rewrite <- ?app_assoc, ?app_nil_r|].
      split; [reflexivity|]. split; [reflexivity|]. split; [reflexivity|].
      exists [], {| v_logic := l; v_physic := p;
                    v_live := negb (terark_bit_test del l) |}, [].
      cbn. split_and!; try reflexivity.
      unfold lookup_record. subst p.
      destruct (Z.ltb_spec (Z.of_nat (cursor s)) 0); [reflexivity|].
      now rewrite Nat2Z.id.
Qed.

Lemma record_purged_post_S n l p s p1 s1 o s' :
  record_purged_post store del purged logicNum physicNum 1 l p s
    (Ret p1) s1 ->
  record_purged_post store del purged logicNum physicNum n (l + 1)
    p1 s1 o s' ->
  record_purged_post store del purged logicNum physicNum (S n) l p s o s'.
Proof.
  unfold record_purged_post.
  intros (e1 & w1 & St1 & R1 & A1 & -> & -> & C1)
         (e2 & w2 & St2 & R2 & A2 & H2).
  rewrite Reconciler_walk_S.
  set (W1 := Reconciler_walk del purged 1 l p) in *.
  set (W2 := Reconciler_walk del purged n (l + 1)
               (p + Z.of_nat (length W1))) in *.
  exists (e1 ++ e2), (W1 ++ w2).
  split; [exact (step_trans _ _ _ _ _ _ _ _ _ St1 St2)|].
  rewrite forallb_app, R1, R2. split; [reflexivity|].
  split; [now rewrite add_records_app, live_ids_app, map_app, A1, A2|].
  destruct o as [p'|f].
  - destruct H2 as (-> & -> & C2).
    rewrite !length_app, !Nat2Z.inj_add.
    split_and!; try reflexivity; lia.
  - destruct H2 as (-> & evs0 & v & post & -> & HW & Hl).
    split; [reflexivity|].
    exists (e1 ++ evs0), v, post.
    rewrite <- !app_assoc, HW. now split_and!.
Qed.

Lemma record_purged_post_fail n l p s f s1 :
  record_purged_post store del purged logicNum physicNum 1 l p s
    (Fail f) s1 ->
  record_purged_post store del purged logicNum physicNum (S n) l p s
    (Fail f) s1.
Proof.
  unfold record_purged_post.
  intros (e1 & w1 & St1 & R1 & A1 & -> & evs0 & v & post & -> & HW & Hl).
  rewrite Reconciler_walk_S, HW.
  eexists; exists w1. split; [exact St1|]. split; [exact R1|].
  split; [exact A1|]. split; [reflexivity|].
  exists evs0, v,
    (post ++ Reconciler_walk del purged n (l + 1)
               (p + Z.of_nat (length (w1 ++ v :: post)))).
  rewrite <- !app_assoc. cbn. now split_and!.
Qed.

Lemma record_purged_loop_spec n : forall l p s o s',
  Z.of_nat (cursor s) = p ->
  record_purged_loop store del purged logicNum physicNum n l p s
    = (o, s') ->
  record_purged_post store del purged logicNum physicNum n l p s o s'.
Proof.
  induction n as [|n IH]; intros l p s o s' Hc E.
  - cbn in E. injection E as <- <-. unfold record_purged_post; cbn.
    exists [], []. split; [apply step_refl|].
    rewrite !Z.add_0_r. now split_and!.
  - cbn [record_purged_loop] in E. unfold bind at 1 in E.
    destruct (record_purged_body _ _ _ _ _ _ _ _) as [[p1|f] s1] eqn:E1;
      apply record_purged_body_spec in E1; try assumption.
    + eapply record_purged_post_S; [eassumption|].
      apply IH; [|assumption].
      destruct E1 as (? & ? & ? & ? & ? & ? & ? & C). exact C.
    + injection E as <- <-. now apply record_purged_post_fail.
Qed.
End PurgedRecording.

(** ** The branch without purge bitmap *)

Lemma last_cons_default {A} (x : A) l d :
  List.last (x :: l) d = List.last l x.
Proof.
  revert x d. induction l as [|y l IH]; intros x d; [reflexivity|].
  change (List.last (x :: y :: l) d) with (List.last (y :: l) d).
  now rewrite !IH.
Qed.

Lemma identity_walk_S isDel c n :
  identity_walk isDel c (S n)
  = Reconciler_identity isDel (Z.of_nat c) :: identity_walk isDel (S c) n.
Proof.
  unfold identity_walk. rewrite seqZ_cons by lia. cbn [map].
  do 3 f_equal; lia.
Qed.

Section NoPurgeFacts.
Variables (store : ReadableStore) (isDel : option (list Z)).
Variables (random : nat -> Z) (bound : Z).

Lemma sample_loop_spec fuel : forall recId sm s o s',
  (cursor s + fuel)%nat = length (records store) ->
  sample_loop store isDel random fuel bound recId sm s = (o, s') ->
  exists sm' evs,
    o = Ret (match fuel with
             | O => recId
             | S _ => Z.of_nat (length (records store)) - 1
             end, sm') /\
    step s s' evs (identity_walk isDel (cursor s) fuel) [] /\
    sample_events_ok sm sm' evs /\
    cursor s' = length (records store) /\
    rec s' = List.last (drop (cursor s) (records store)) (rec s).
Proof.
  induction fuel as [|fuel IH]; intros recId sm s o s' Hc.
  - cbn [sample_loop]. unfold bind, iter_increment.
    rewrite lookup_ge_None_2 by lia. unfold ret. intros [= <- <-].
    exists sm, [EvIncrement None]. split_and!; try reflexivity.
    + constructor; cbn; now rewrite ?app_nil_r.
    + unfold sample_events_ok, no_miss. cbn.
      split_and!; try reflexivity; lia.
    + cbn. lia.
    + cbn. now rewrite drop_ge by lia.
  - cbn [sample_loop]. unfold bind at 1, iter_increment at 1.
    destruct (lookup_lt_is_Some_2 (records store) (cursor s)) as [r Hr];
      [lia|].
    rewrite Hr. unfold bind at 1.
    set (s1 := {| cursor := S (cursor s); rec := r; draws := draws s;
                  owns_lock := owns_lock s;
                  trace := trace s
                           ++ [EvIncrement (Some (Z.of_nat (cursor s)))];
                  walk1 := walk1 s; walk2 := walk2 s |}).
    assert (Hbody : exists sm1 e1 s2,
      (if null_or_not_deleted isDel (Z.of_nat (cursor s))
       then maybe_sample random bound sm else ret sm) s1 = (Ret sm1, s2)
      /\ step s1 s2 e1 [] [] /\ sample_events_ok sm sm1 e1
      /\ cursor s2 = cursor s1 /\ rec s2 = rec s1).
    { destruct (null_or_not_deleted isDel (Z.of_nat (cursor s))).
      - destruct (maybe_sample random bound sm s1) as [o1 s2] eqn:E1.
        apply maybe_sample_ok in E1
          as (C1 & R1 & sm1 & e1 & -> & St & Ok).
        now exists sm1, e1, s2.
      - exists sm, [], s1. split_and!; try reflexivity.
        + apply step_refl.
        + apply sample_events_ok_nil. }
    destruct Hbody as (sm1 & e1 & s2 & -> & St & Ok & C2 & R2).
    unfold bind at 1, note_visit1 at 1.
    intros E. apply IH in E; [|cbn; rewrite C2; cbn; lia].
    destruct E as (sm' & evs & -> & St' & Ok' & C' & R').
    exists sm', (EvIncrement (Some (Z.of_nat (cursor s))) :: e1 ++ evs).
    cbn [cursor rec] in St', R'. rewrite C2 in St', R'. rewrite R2 in R'.
    cbn [cursor rec] in St', R'.
    split_and!.
    + f_equal. f_equal. destruct fuel; lia.
    + destruct St as [L T A B], St' as [L' T' A' B'].
      cbn in L, T, A, B, L', T', A', B'.
      rewrite identity_walk_S.
      constructor.
      * congruence.
      * rewrite T', T. now rewrite <- !app_assoc.
      * rewrite A', A, app_nil_r, <- app_assoc. reflexivity.
      * rewrite B', B. now rewrite !app_nil_r.
    + change (EvIncrement (Some (Z.of_nat (cursor s))) :: e1 ++ evs)
        with ([EvIncrement (Some (Z.of_nat (cursor s)))] ++ (e1 ++ evs)).
      eapply sample_events_ok_app.
      * instantiate (1 := sm). unfold sample_events_ok, no_miss. cbn.
        split_and!; try reflexivity; lia.
      * eapply sample_events_ok_app; eassumption.
    + exact C'.
    + rewrite R'. subst s1. cbn [cursor rec].
      rewrite (drop_S _ _ _ Hr). symmetry. apply last_cons_default.
Qed.

Lemma record_loop_spec fuel : forall recId s o s',
  (cursor s + fuel)%nat = length (records store) ->
  record_loop store isDel fuel recId s = (o, s') ->
  exists recId' evs,
    o = Ret recId' /\
    step s s' evs [] (identity_walk isDel (cursor s) fuel) /\
    forallb recording_event evs = true /\
    add_records evs
    = map (record_of store) (live_ids (identity_walk isDel (cursor s) fuel)).
Proof.
  induction fuel as [|fuel IH]; intros recId s o s' Hc.
  - cbn [record_loop]. unfold bind, iter_increment.
    rewrite lookup_ge_None_2 by lia. unfold ret. intros [= <- <-].
    exists recId, [EvIncrement None]. split_and!; try reflexivity.
    constructor; cbn; now rewrite ?app_nil_r.
  - cbn [record_loop]. unfold bind at 1, iter_increment at 1.
    destruct (lookup_lt_is_Some_2 (records store) (cursor s)) as [r Hr];
      [lia|].
    assert (Hrec : record_of store (Z.of_nat (cursor s)) = r).
    { apply record_of_Some. unfold lookup_record.
      destruct (Z.ltb_spec (Z.of_nat (cursor s)) 0); [lia|].
      now rewrite Nat2Z.id. }
    rewrite Hr. rewrite identity_walk_S, live_ids_cons.
    unfold Reconciler_identity at 1 2. cbn [v_live v_physic].
    destruct (null_or_not_deleted isDel (Z.of_nat (cursor s)));
      unfold bind, get_rec, emit, ret, note_visit2; cbn [rec];
      intros E; apply IH in E; try (cbn; lia);
      destruct E as (recId' & evs & -> & [L T A B] & R & AR);
      cbn in L, T, A, B, AR.
    + exists recId',
        (EvIncrement (Some (Z.of_nat (cursor s))) :: EvAddRecord r :: evs).
      split_and!; [reflexivity| |cbn; exact R|].
      * constructor.
        -- congruence.
        -- rewrite T, <- !app_assoc. reflexivity.
        -- rewrite A. reflexivity.
        -- rewrite B, <- app_assoc. reflexivity.
      * cbn [map Reconciler_identity v_physic]. rewrite Hrec, <- AR.
        reflexivity.
    + exists recId', (EvIncrement (Some (Z.of_nat (cursor s))) :: evs).
      split_and!; [reflexivity| |cbn; exact R|].
      * constructor.
        -- congruence.
        -- rewrite T, <- !app_assoc. reflexivity.
        -- rewrite A. reflexivity.
        -- rewrite B, <- app_assoc. reflexivity.
      * rewrite <- AR. reflexivity.
Qed.
End NoPurgeFacts.

(** ** The two branches as a whole *)

Lemma emptyCheckProtect_spec sm r s :
  exists s', emptyCheckProtect sm r s = (Ret tt, s') /\
    step s s' (protect_events sm r) [] [] /\ cursor s' = cursor s.
Proof.
  unfold emptyCheckProtect, protect_events, fallback_sample.
  destruct (0 =? sm); [destruct (empty r)|]; eexists;
    (split; [reflexivity|]); split; try reflexivity;
    constructor; cbn; now rewrite ?app_nil_r.
Qed.

Lemma check_count_spec logicNum physicNum p s :
  exists s', check_count logicNum physicNum p s = (Ret tt, s') /\
    step s s' (count_report logicNum physicNum p) [] [] /\
    cursor s' = cursor s /\ rec s' = rec s.
Proof.
  unfold check_count, count_report.
  destruct (negb (to_size_t p =? physicNum)); eexists;
    (split; [reflexivity|]); split_and!; try reflexivity;
    constructor; cbn; now rewrite ?app_nil_r.
Qed.

Lemma build_without_purge_spec fpath store isDel random recId0 bound o s :
  build_without_purge fpath store isDel random recId0 bound initial
    = (o, s) ->
  let n := length (records store) in
  o = Ret tt /\ owns_lock s = true /\
  walk1 s = identity_walk isDel 0 n /\
  walk2 s = identity_walk isDel 0 n /\
  exists T1 sm T2,
    sample_events_ok 0 sm T1 /\ forallb recording_event T2 = true /\
    add_records T2 = map (record_of store) (live_ids (walk2 s)) /\
    trace s = T1 ++ protect_events sm (List.last (records store) [])
              ++ [EvLock;
                  EvPrepare (match n with
                             | O => recId0
                             | S _ => Z.of_nat n - 1
                             end + 1) fpath;
                  EvReset] ++ T2.
Proof.
  unfold build_without_purge. unfold bind at 1.
  destruct (sample_loop _ _ _ _ _ _ _ _) as [o1 s1] eqn:E1.
  apply sample_loop_spec in E1; [|reflexivity].
  destruct E1 as (sm & T1 & -> & [L1 Tr1 A1 B1] & Ok1 & C1 & R1).
  cbn in L1, Tr1, A1, B1, R1.
  unfold bind at 1, get_rec at 1. unfold bind at 1.
  destruct (emptyCheckProtect_spec sm (rec s1) s1)
    as (s2 & -> & [L2 Tr2 A2 B2] & C2).
  unfold bind at 1, lock_lock at 1. unfold bind at 1, emit at 1.
  unfold bind at 1, iter_reset at 1.
  cbn [cursor rec draws owns_lock trace walk1 walk2].
  unfold bind at 1.
  destruct (record_loop _ _ _ _ _) as [o3 s3] eqn:E3.
  apply record_loop_spec in E3; [|reflexivity].
  destruct E3 as (recId' & T2 & -> & [L3 Tr3 A3 B3] & R3 & AR3).
  cbn in L3, Tr3, A3, B3, AR3.
  unfold ret. intros [= <- <-].
  assert (HB : walk2 s3 = identity_walk isDel 0 (length (records store))).
  { rewrite B3, B2, app_nil_r, B1. reflexivity. }
  split_and!; try reflexivity; try congruence.
  - rewrite A3, app_nil_r, A2, app_nil_r, A1. reflexivity.
  - exists T1, sm, T2. split_and!; try assumption.
    + now rewrite HB.
    + rewrite Tr3, Tr2, Tr1, <- !app_assoc, R1. reflexivity.
Qed.

Lemma count_report_recording logicNum physicNum p :
  forallb recording_event (count_report logicNum physicNum p) = true.
Proof. unfold count_report. now destruct (negb _). Qed.

Lemma count_report_sampling logicNum physicNum p :
  forallb sampling_event (count_report logicNum physicNum p) = true.
Proof. unfold count_report. now destruct (negb _). Qed.

Lemma build_purged_spec fpath store random del purged logicNum physicNum
    bound o s :
  build_purged fpath store random del purged logicNum physicNum bound
    initial = (o, s) ->
  let W := Reconciler_walk del purged (Z.to_nat logicNum) 0 0 in
  let observed := Z.of_nat (length W) in
  (o = Fail Abort /\ owns_lock s = false /\ walk2 s = [] /\
   exists evs0 l' p' post,
     trace s = evs0 ++ [EvSeekExact p' false;
                        EvStderr (SeekMiss l' p' logicNum physicNum)] /\
     forallb sampling_event evs0 = true /\ no_miss evs0 /\
     seek_hits evs0 = live_ids (walk1 s) /\
     W = walk1 s ++ {| v_logic := l'; v_physic := p'; v_live := true |}
                    :: post /\
     lookup_record store p' = None)
  \/
  (walk1 s = W /\ Forall (in_store store) W /\ owns_lock s = true /\
   exists T1 sm T2,
     sample_events_ok 0 sm T1 /\ forallb recording_event T2 = true /\
     seek_hits T1 = live_ids W /\
     add_records T2 = map (record_of store) (live_ids (walk2 s)) /\
     trace s = T1 ++ count_report logicNum physicNum observed
               ++ protect_events sm (last_fetched store [] W)
               ++ [EvLock;
                   EvPrepare (Z.of_nat (length (live_ids W))) fpath;
                   EvReset] ++ T2 /\
     (o = Ret tt /\ walk2 s = W /\
      (exists T2',
         T2 = T2' ++ count_report logicNum physicNum observed)
      \/
      o = Fail Abort /\
      exists T2' v post,
        T2 = T2' ++ [EvIncrement None;
                     EvStderr (IncrementMismatch false (v_logic v)
                                 (v_physic v) (-1) physicNum logicNum)] /\
        W = walk2 s ++ v :: post /\
        lookup_record store (v_physic v) = None)).
Proof.
  unfold build_purged. unfold bind at 1.
  destruct (sample_purged_loop _ _ _ _ _ _ _ _ _ _ _ _ _)
    as [[[[p1 np1] sm]|f] s1] eqn:E1;
    apply sample_purged_loop_spec in E1;
    destruct E1 as (C1 & T1 & w1 & [L1 Tr1 A1 B1] & H1);
    cbn in L1, Tr1, A1, B1, C1.
  - (* the sampling pass came to its end *)
    destruct H1 as (-> & -> & -> & F1 & Ok1 & R1 & K1). cbn in R1.
    set (W := Reconciler_walk del purged (Z.to_nat logicNum) 0 0) in *.
    rewrite !Z.add_0_l.
    unfold bind at 1.
    destruct (check_count_spec logicNum physicNum (Z.of_nat (length W)) s1)
      as (s2 & -> & [L2 Tr2 A2 B2] & C2 & R2).
    unfold bind at 1, get_rec at 1. unfold bind at 1.
    destruct (emptyCheckProtect_spec sm (rec s2) s2)
      as (s3 & -> & [L3 Tr3 A3 B3] & C3).
    unfold bind at 1, lock_lock at 1. unfold bind at 1, emit at 1.
    unfold bind at 1, iter_reset at 1.
    cbn [cursor rec draws owns_lock trace walk1 walk2].
    unfold bind at 1.
    destruct (record_purged_loop _ _ _ _ _ _ _ _ _) as [[p2|f] s4] eqn:E4;
      apply record_purged_loop_spec in E4; try reflexivity;
      destruct E4 as (T2 & w2 & [L4 Tr4 A4 B4] & R4 & AR4 & H4);
      cbn in L4, Tr4, A4, B4; fold W in H4.
    + destruct H4 as (-> & -> & C4). rewrite Z.add_0_l.
      destruct (check_count_spec logicNum physicNum (Z.of_nat (length W)) s4)
        as (s5 & -> & [L5 Tr5 A5 B5] & C5 & R5).
      intros [= <- <-]. right.
      assert (HB : walk2 s5 = W).
      { rewrite B5, B4, B3, B2, !app_nil_r, B1. reflexivity. }
      rewrite A5, A4, A3, A2, !app_nil_r, A1.
      rewrite L5, L4.
      split_and!; try reflexivity; try assumption.
      exists T1, sm,
        (T2 ++ count_report logicNum physicNum (Z.of_nat (length W))).
      split_and!; try assumption.
      * now rewrite forallb_app, R4, count_report_recording.
      * rewrite HB, add_records_app, AR4.
        rewrite (sampling_add_records _ (count_report_sampling _ _ _)).
        apply app_nil_r.
      * rewrite Tr5, Tr4, Tr3, Tr2, Tr1, <- !app_assoc, R2, R1.
        reflexivity.
      * left. split_and!; try reflexivity; try assumption.
        now exists T2.
    + destruct H4 as (-> & T2' & v & post & -> & HW & Hl).
      intros [= <- <-]. right.
      assert (HB : walk2 s4 = w2).
      { rewrite B4, B3, B2, !app_nil_r, B1. reflexivity. }
      rewrite A4, A3, A2, !app_nil_r, A1, L4.
      split_and!; try reflexivity; try assumption.
      exists T1, sm,
        (T2' ++ [EvIncrement None;
                 EvStderr (IncrementMismatch false (v_logic v) (v_physic v)
                             (-1) physicNum logicNum)]).
      split_and!; try assumption.
      * now rewrite HB.
      * rewrite Tr4, Tr3, Tr2, Tr1, <- !app_assoc, R2, R1. reflexivity.
      * right. split; [reflexivity|].
        exists T2', v, post. split_and!; try reflexivity; try assumption.
        now rewrite HB.
  - (* the sampling pass aborted *)
    destruct H1 as (-> & evs0 & l' & p' & post & -> & S0 & N0 & K0 & HW
                    & Hl).
    intros [= <- <-]. left.
    split_and!; try reflexivity; try assumption.
    exists evs0, l', p', post. rewrite A1. now split_and!.
Qed.

(** ** Anatomy of a call *)

Lemma closing_spec (m : M unit) s o s' :
  (let* _ := m in
   emit EvCompleteBuild;; emit EvDestroyBuilder;; lock_unlock) s = (o, s') ->
  match m s with
  | (Ret _, s1) =>
      o = Ret tt /\ owns_lock s' = false /\
      trace s' = trace s1 ++ closing /\
      walk1 s' = walk1 s1 /\ walk2 s' = walk2 s1
  | (Fail f, s1) => o = Fail f /\ s' = s1
  end.
Proof.
  unfold bind at 1. destruct (m s) as [[[]|f] s1].
  - unfold bind, emit, lock_unlock. intros [= <- <-]. cbn.
    rewrite <- !app_assoc. now split_and!.
  - intros [= <- <-]. now split.
Qed.

Lemma build_by_iter_anatomy schema fpath getStore isDel isPurged random
    recId0 o s :
  build_by_iter schema fpath getStore isDel isPurged random recId0 = (o, s) ->
  anatomy schema fpath getStore isDel isPurged recId0 o s.
Proof.
  unfold build_by_iter.
  destruct (Qlt_le_dec (m_dictZipSampleRatio schema) 0) as [Hneg|Hpos].
  { intros [= <- <-]. apply Rejected. now left. }
  destruct getStore as [store|].
  2:{ intros [= <- <-]. apply Rejected. now right. }
  unfold build_from_store.
  set (bound := sampleUpperBound _).
  assert (HA : forall o s,
    (let* _ := build_without_purge fpath store isDel random recId0 bound in
     emit EvCompleteBuild;; emit EvDestroyBuilder;; lock_unlock) initial
      = (o, s) ->
    no_purge isPurged = true ->
    anatomy schema fpath (Some store) isDel isPurged recId0 o s).
  { clear o s. intros o s E Hno. apply closing_spec in E.
    destruct (build_without_purge _ _ _ _ _ _ _) as [o1 s1] eqn:E1.
    apply build_without_purge_spec in E1
      as (-> & L1 & A1 & B1 & T1 & sm & T2 & Ok & R & AR & Tr).
    destruct E as (-> & L & Tr' & A & B).
    eapply NoPurgeBuilt with (T1 := T1) (sm := sm) (T2 := T2);
      try reflexivity; try assumption; try congruence.
    rewrite Tr', Tr, <- !app_assoc. cbn.
    unfold numDataRows. reflexivity. }
  destruct isPurged as [purged|]; [|intros E; now apply HA].
  destruct (fv_size purged =? 0)%nat eqn:Hsz; [intros E; now apply HA|].
  clear HA. intros E. apply closing_spec in E.
  unfold build_with_purge in E.
  destruct isDel as [del|].
  2:{ cbn in E. destruct E as [-> ->]. now apply DeletionBitmapMissing. }
  destruct (build_purged _ _ _ _ _ _ _ _ _) as [o1 s1] eqn:E1.
  apply build_purged_spec in E1. rewrite Nat2Z.id in E1. cbv zeta in E1.
  destruct E1 as [(-> & L1 & B1 & evs0 & l & p & post & Tr & S0 & N0 & K0
                   & HW & Hl)
                 |(A1 & F1 & L1 & T1 & sm & T2 & Ok & R & K1 & AR & Tr & H)].
  - destruct E as [-> ->].
    eapply SamplingAborted; try reflexivity; eassumption.
  - destruct H as [(-> & B1 & T2' & ->)|(-> & T2' & v & post & -> & HW & Hl)].
    + destruct E as (-> & L & Tr' & A & B).
      rewrite forallb_app in R. apply andb_true_iff in R as [R _].
      rewrite add_records_app,
        (sampling_add_records _ (count_report_sampling _ _ _)),
        app_nil_r, B1 in AR.
      eapply PurgeBuilt with (T1 := T1) (sm := sm) (T2 := T2');
        try reflexivity; try assumption; try congruence.
      rewrite Tr', Tr, <- !app_assoc. reflexivity.
    + destruct E as [-> ->].
      rewrite forallb_app in R. apply andb_true_iff in R as [R _].
      rewrite add_records_app, app_nil_r in AR.
      eapply RecordingAborted with (T1 := T1) (sm := sm) (T2 := T2');
        try reflexivity; try eassumption.
Qed.

(** ** The sample ratio *)

Lemma requested_or_default_pos r0 : (0 < requested_or_default r0)%Q.
Proof.
  unfold requested_or_default.
  destruct (Qlt_le_dec FLT_EPSILON r0) as [H|H]; [|reflexivity].
  eapply Qlt_trans; [|exact H]. reflexivity.
Qed.

Lemma shrink_bounds S r :
  0 < S -> (0 < r)%Q ->
  (0 < shrink S r /\
   inject_Z S * shrink S r <= inject_Z INT32_MAX * (95 # 100))%Q.
Proof.
  intros HS Hr. unfold shrink.
  assert (HSq : (0 < inject_Z S)%Q).
  { change 0%Q with (inject_Z 0). now rewrite <- Zlt_Qlt. }
  set (T := (inject_Z INT32_MAX * (95 # 100))%Q).
  assert (HT : (0 < T)%Q) by reflexivity.
  destruct (Qlt_le_dec (inject_Z S * r) T) as [H|H].
  - split; [exact Hr|]. now apply Qlt_le_weak.
  - split.
    + apply Qlt_shift_div_l; lra.
    + assert (E : (inject_Z S * (T / inject_Z S) == T)%Q) by (field; lra).
      rewrite E. apply Qle_refl.
Qed.

Lemma cap_bounds r : (0 < r -> 0 < cap r /\ cap r <= 1 # 2 /\ cap r <= r)%Q.
Proof.
  intros Hr. unfold cap. destruct (Qlt_le_dec (1 # 2) r) as [H|H].
  - split_and!; [reflexivity|apply Qle_refl|now apply Qlt_le_weak].
  - split_and!; [exact Hr|exact H|apply Qle_refl].
Qed.

(** C2.  For every total size [S > 0] and requested ratio [r0 >= 0], the
    ratio [r'] that [build_by_iter] computes satisfies [0 < r' <= 0.5] and
    [r' * S < 0.95 * 2^31], strictly. *)
Theorem effective_sample_ratio_bounds (S : Z) (r0 : Q) :
  0 < S -> (0 <= r0)%Q ->
  (0 < effective_sample_ratio r0 S /\
   effective_sample_ratio r0 S <= 1 # 2 /\
   effective_sample_ratio r0 S * inject_Z S
     < (95 # 100) * inject_Z (2 ^ 31))%Q.
Proof.
  intros HS _. unfold effective_sample_ratio.
  pose proof (requested_or_default_pos r0) as Hr.
  destruct (shrink_bounds S _ HS Hr) as [Hs1 Hs2].
  destruct (cap_bounds _ Hs1) as (Hc1 & Hc2 & Hc3).
  set (c := cap _) in *. set (sh := shrink _ _) in *.
  assert (HSq : (0 < inject_Z S)%Q).
  { change 0%Q with (inject_Z 0). now rewrite <- Zlt_Qlt. }
  split_and!; try assumption.
  apply Qle_lt_trans with (inject_Z S * sh)%Q.
  - rewrite (Qmult_comm c). apply Qmult_le_l; assumption.
  - eapply Qle_lt_trans; [exact Hs2|]. reflexivity.
Qed.

Lemma effective_sample_ratio_bounds_witness :
  (0 < effective_sample_ratio 0 (10 ^ 12) /\
   effective_sample_ratio 0 (10 ^ 12) <= 1 # 2 /\
   effective_sample_ratio 0 (10 ^ 12) * inject_Z (10 ^ 12)
     < (95 # 100) * inject_Z (2 ^ 31))%Q.
Proof.
  apply (effective_sample_ratio_bounds (10 ^ 12) 0).
  - reflexivity.
  - apply Qle_refl.
Defined.

(** ** Shape of the walk *)

Lemma Reconciler_walk_logic del purged n : forall l p,
  map v_logic (Reconciler_walk del purged n l p)
  = List.filter (fun k => negb (terark_bit_test purged k))
      (seqZ l (Z.of_nat n)).
Proof.
  induction n as [|n IH]; intros l p; [reflexivity|].
  rewrite seqZ_cons by lia. cbn [Reconciler_walk List.filter].
  replace (Z.pred (Z.of_nat (S n))) with (Z.of_nat n) by lia.
  replace (Z.succ l) with (l + 1) by lia.
  destruct (terark_bit_test purged l); cbn [negb map v_logic];
    now rewrite IH.
Qed.

Lemma Reconciler_walk_physic del purged n : forall l p,
  map v_physic (Reconciler_walk del purged n l p)
  = seqZ p (Z.of_nat (length (Reconciler_walk del purged n l p))).
Proof.
  induction n as [|n IH]; intros l p; [reflexivity|].
  cbn [Reconciler_walk].
  destruct (terark_bit_test purged l); [apply IH|].
  cbn [map v_physic length]. rewrite IH, (seqZ_cons p) by lia.
  do 2 f_equal; lia.
Qed.

Lemma Reconciler_walk_length del purged n l p :
  Z.of_nat (length (Reconciler_walk del purged n l p))
  = Z.of_nat n
    - Z.of_nat (length (List.filter (terark_bit_test purged)
                          (seqZ l (Z.of_nat n)))).
Proof.
  rewrite <- (length_map v_logic), Reconciler_walk_logic.
  pose proof (List.filter_length (terark_bit_test purged)
                (seqZ l (Z.of_nat n))) as H.
  rewrite length_seqZ in H. lia.
Qed.

Lemma Reconciler_walk_lookup del purged n l p i v :
  Reconciler_walk del purged n l p !! i = Some v ->
  v_physic v = p + Z.of_nat i.
Proof.
  intros H.
  assert (H' : map v_physic (Reconciler_walk del purged n l p) !! i
               = Some (v_physic v)).
  { change (map v_physic) with (fmap (M := list) v_physic).
    now rewrite list_lookup_fmap, H. }
  rewrite Reconciler_walk_physic in H'.
  apply lookup_seqZ in H'. tauto.
Qed.

(** The entries that follow one the store does not have are not in the
    store either. *)
Lemma Reconciler_walk_tail_outside store del purged n l p pre v post :
  0 <= p ->
  Reconciler_walk del purged n l p = pre ++ v :: post ->
  lookup_record store (v_physic v) = None ->
  Forall (fun u => lookup_record store (v_physic u) = None) (v :: post).
Proof.
  intros Hp HW Hv.
  assert (Pv : v_physic v = p + Z.of_nat (length pre)).
  { apply (Reconciler_walk_lookup del purged n l).
    rewrite HW. now rewrite list_lookup_middle. }
  assert (Hlen : (length (records store) <= Z.to_nat (v_physic v))%nat).
  { unfold lookup_record in Hv.
    destruct (Z.ltb_spec (v_physic v) 0); [lia|].
    now apply lookup_ge_None_1. }
  apply Forall_lookup_2. intros i u Hu.
  assert (Pu : v_physic u = p + Z.of_nat (length pre + i)).
  { apply (Reconciler_walk_lookup del purged n l).
    rewrite HW. rewrite lookup_app_r by lia.
    now replace (length pre + i - length pre)%nat with i by lia. }
  unfold lookup_record.
  destruct (Z.ltb_spec (v_physic u) 0); [reflexivity|].
  apply lookup_ge_None_2. lia.
Qed.

Lemma live_ids_outside store w :
  Forall (in_store store) w ->
  Forall (fun u => lookup_record store (v_physic u) = None) w ->
  live_ids w = [].
Proof.
  induction w as [|u w IH]; [reflexivity|].
  intros Hin Hout. apply Forall_cons in Hin as [Hu Hin].
  apply Forall_cons in Hout as [Hu' Hout].
  rewrite live_ids_cons. destruct (v_live u) eqn:Hl; [|now apply IH].
  destruct (Hu Hl) as [r Hr]. congruence.
Qed.

Lemma live_ids_identity isDel ks :
  live_ids (map (Reconciler_identity isDel) ks)
  = List.filter (null_or_not_deleted isDel) ks.
Proof.
  induction ks as [|k ks IH]; [reflexivity|].
  cbn [map List.filter]. rewrite live_ids_cons.
  cbn [Reconciler_identity v_live v_physic].
  destruct (null_or_not_deleted isDel k); now rewrite IH.
Qed.

(** ** Events of a kind *)

Lemma sampling_not_prepare evs :
  forallb sampling_event evs = true -> existsb is_prepare evs = false.
Proof.
  induction evs as [|e evs IH]; [reflexivity|]. cbn.
  intros [He H]%andb_true_iff. rewrite IH by assumption.
  now destruct e.
Qed.

Lemma recording_not_prepare evs :
  forallb recording_event evs = true -> existsb is_prepare evs = false.
Proof.
  induction evs as [|e evs IH]; [reflexivity|]. cbn.
  intros [He H]%andb_true_iff. rewrite IH by assumption.
  now destruct e.
Qed.

Lemma recording_no_miss evs :
  forallb recording_event evs = true -> no_miss evs.
Proof.
  unfold no_miss. induction evs as [|e evs IH]; [reflexivity|]. cbn.
  intros [He H]%andb_true_iff. rewrite IH by assumption.
  now destruct e.
Qed.

Lemma no_miss_existsb evs : no_miss evs -> existsb is_miss evs = false.
Proof.
  unfold no_miss. induction evs as [|e evs IH]; [reflexivity|]. cbn.
  intros [He H]%andb_true_iff. rewrite IH by assumption.
  now destruct (is_miss e).
Qed.

Lemma protect_events_sampling sm r :
  forallb sampling_event (protect_events sm r) = true.
Proof. unfold protect_events. now destruct (0 =? sm). Qed.

Lemma protect_events_no_miss sm r : no_miss (protect_events sm r).
Proof. unfold protect_events, no_miss. now destruct (0 =? sm). Qed.

Lemma count_report_no_miss N M p : no_miss (count_report N M p).
Proof. unfold count_report, no_miss. now destruct (negb _). Qed.

Lemma no_miss_closing : no_miss closing.
Proof. reflexivity. Qed.

Lemma sample_events_no_miss sm sm' evs :
  sample_events_ok sm sm' evs -> no_miss evs.
Proof. now intros (_ & H & _). Qed.

Lemma sample_events_sampling sm sm' evs :
  sample_events_ok sm sm' evs -> forallb sampling_event evs = true.
Proof. now intros (H & _). Qed.

(** ** The two passes agree *)

Lemma recording_seek_hits evs :
  forallb recording_event evs = true -> seek_hits evs = [].
Proof.
  induction evs as [|e evs IH]; [reflexivity|].
  intros [He H]%andb_true_iff.
  change (e :: evs) with ([e] ++ evs). rewrite seek_hits_app.
  rewrite IH by assumption. now destruct e.
Qed.

Lemma protect_events_add_records sm r : add_records (protect_events sm r) = [].
Proof. apply sampling_add_records, protect_events_sampling. Qed.

Lemma count_report_add_records N M p : add_records (count_report N M p) = [].
Proof. apply sampling_add_records, count_report_sampling. Qed.

Lemma protect_events_seek_hits sm r : seek_hits (protect_events sm r) = [].
Proof. unfold protect_events. now destruct (0 =? sm). Qed.

Lemma count_report_seek_hits N M p : seek_hits (count_report N M p) = [].
Proof. unfold count_report. now destruct (negb _). Qed.



(** ** The walk of the Reconciler *)

Lemma identity_walk_logic isDel n :
  map v_logic (identity_walk isDel 0 n) = seqZ 0 (Z.of_nat n).
Proof.
  unfold identity_walk. rewrite map_map. cbn [Reconciler_identity v_logic].
  apply map_id.
Qed.

Lemma identity_walk_physic isDel n :
  map v_physic (identity_walk isDel 0 n) = seqZ 0 (Z.of_nat n).
Proof.
  unfold identity_walk. rewrite map_map. cbn [Reconciler_identity v_physic].
  apply map_id.
Qed.

Lemma Reconciler_walk_kept del purged n :
  length (Reconciler_walk del purged n 0 0)
  = length (kept_ids purged (Z.of_nat n)).
Proof.
  unfold kept_ids. rewrite <- Reconciler_walk_logic with (del := del) (p := 0).
  now rewrite length_map.
Qed.

Lemma lookup_record_None store p :
  0 <= p -> lookup_record store p = None ->
  (length (records store) <= Z.to_nat p)%nat.
Proof.
  unfold lookup_record. intros Hp.
  destruct (Z.ltb_spec p 0); [lia|]. apply lookup_ge_None_1.
Qed.

(** A walk that stopped at an entry the store does not have is longer
    than the store. *)
Lemma walk_longer_than_store store del purged n pre v post :
  Reconciler_walk del purged n 0 0 = pre ++ v :: post ->
  lookup_record store (v_physic v) = None ->
  (length (records store) < length (Reconciler_walk del purged n 0 0))%nat.
Proof.
  intros HW Hl.
  assert (Pv : v_physic v = 0 + Z.of_nat (length pre)).
  { apply (Reconciler_walk_lookup del purged n 0).
    rewrite HW. now rewrite list_lookup_middle. }
  apply lookup_record_None in Hl; [|lia].
  rewrite HW, length_app. cbn. lia.
Qed.

Lemma identity_walk_live isDel n :
  map v_live (identity_walk isDel 0 n)
  = map (null_or_not_deleted isDel) (seqZ 0 (Z.of_nat n)).
Proof. unfold identity_walk. now rewrite map_map. Qed.

(** C3.  Without purge bitmap (absent or empty) every call with valid
    arguments walks all the ids of the source: the sampling pass gives
    every logical id [k] the physical id [k], the deletion bit it tests for
    the record of physical id [k] is bit [k], and so the records handed to
    [addRecord] are the records whose own id is not deleted.  With a purge
    bitmap over [N] logical ids, [p] of them marked, a sampling pass that
    came to its end has visited the logical ids that are not marked, in
    order, given the [j]-th of them the physical id [j], and produced
    [N - p] physical ids, those of the live ones being the ids it looked
    up with [seekExact]; and it comes to its end whenever there is a
    deletion bitmap and the source has at least [N - p] records. *)
Theorem reconciler_walk_maps_ids schema fpath store isDel isPurged random
    recId0 o s :
  build_by_iter schema fpath (Some store) isDel isPurged random recId0
    = (o, s) ->
  (0 <= m_dictZipSampleRatio schema)%Q ->
  (no_purge isPurged = true ->
   map v_logic (walk1 s) = seqZ 0 (numDataRows store) /\
   map v_physic (walk1 s) = map v_logic (walk1 s) /\
   map v_live (walk1 s)
   = map (null_or_not_deleted isDel) (seqZ 0 (numDataRows store)) /\
   add_records (trace s)
   = map (record_of store)
       (List.filter (null_or_not_deleted isDel)
          (seqZ 0 (numDataRows store))))
  /\
  (forall purged, isPurged = Some purged -> fv_size purged <> 0%nat ->
   let N := Z.of_nat (fv_size purged) in
   let p := Z.of_nat (length (purged_ids (bldata purged) N)) in
   (existsb is_prepare (trace s) = true ->
    map v_logic (walk1 s) = kept_ids (bldata purged) N /\
    map v_physic (walk1 s) = seqZ 0 (N - p) /\
    Z.of_nat (length (walk1 s)) = N - p /\
    seek_hits (trace s) = live_ids (walk1 s)) /\
   (isDel <> None -> N - p <= numDataRows store ->
    existsb is_prepare (trace s) = true)).
Proof.
  intros E Hr. apply build_by_iter_anatomy in E.
  assert (HB : forall purged del,
    walk1 s = Reconciler_walk del (bldata purged) (fv_size purged) 0 0 ->
    let N := Z.of_nat (fv_size purged) in
    let p := Z.of_nat (length (purged_ids (bldata purged) N)) in
    map v_logic (walk1 s) = kept_ids (bldata purged) N /\
    map v_physic (walk1 s) = seqZ 0 (N - p) /\
    Z.of_nat (length (walk1 s)) = N - p).
  { intros purged del ->. cbv zeta. unfold kept_ids, purged_ids.
    rewrite Reconciler_walk_logic, Reconciler_walk_physic,
      Reconciler_walk_length. now split_and!. }
  destruct E as
    [ Hrej
    | Hno Hdel
    | st s T1 sm T2 Hst Hno Hl Hw1 Hw2 Hok HT2 HAR Htr
    | st pu de s evs0 l p post Hst Hpu Hde Hno Hl Hw2 Htr Hsam Hmiss HK0 HW Hlk
    | st pu de s T1 sm T2 v post Hst Hpu Hde Hno W N M Hl Hw1 Hin HW Hlk
        Hok HK HT2 HAR Htr
    | st pu de s T1 sm T2 Hst Hpu Hde Hno W N M Hl Hw1 Hin Hw2 Hok HK HT2
        HAR Htr ].
  - destruct Hrej as [H|H]; [|discriminate H].
    exfalso. apply (Qlt_not_le _ _ H Hr).
  - split; [congruence|]. intros purged _ _. cbv zeta.
    split; [discriminate|]. intros Hd. contradiction.
  - injection Hst as <-. split.
    + intros _.
      rewrite Hw1, identity_walk_logic, identity_walk_physic,
        identity_walk_live.
      split_and!; try reflexivity.
      rewrite Htr, !add_records_app,
        (sampling_add_records _ (sample_events_sampling _ _ _ Hok)),
        protect_events_add_records, HAR, Hw2.
      cbn. rewrite app_nil_r. unfold identity_walk, numDataRows.
      now rewrite live_ids_identity.
    + intros purged -> Hsz. cbn in Hno.
      apply Nat.eqb_eq in Hno. contradiction.
  - split; [congruence|].
    intros purged Hp _. rewrite Hp in Hpu. injection Hpu as <-.
    injection Hst as <-. cbv zeta. split.
    + rewrite Htr, existsb_app, (sampling_not_prepare _ Hsam).
      discriminate.
    + intros _ Hfit. exfalso.
      pose proof (walk_longer_than_store _ _ _ _ _ _ _ HW Hlk) as Hlong.
      pose proof (Reconciler_walk_length de (bldata purged)
                    (fv_size purged) 0 0) as Hlen.
      unfold purged_ids, numDataRows in Hfit. lia.
  - split; [congruence|].
    intros purged Hp _. rewrite Hp in Hpu. injection Hpu as <-.
    assert (Hprep : existsb is_prepare (trace s) = true).
    { rewrite Htr, !existsb_app. cbn. now rewrite !orb_true_r. }
    cbv zeta. split; [intros _|intros _ _; exact Hprep].
    destruct (HB purged de Hw1) as (A & B & C).
    split_and!; try assumption.
    rewrite Htr, !seek_hits_app, HK, count_report_seek_hits,
      protect_events_seek_hits, (recording_seek_hits _ HT2), Hw1.
    cbn. now rewrite !app_nil_r.
  - split; [congruence|].
    intros purged Hp _. rewrite Hp in Hpu. injection Hpu as <-.
    assert (Hprep : existsb is_prepare (trace s) = true).
    { rewrite Htr, !existsb_app. cbn. now rewrite !orb_true_r. }
    cbv zeta. split; [intros _|intros _ _; exact Hprep].
    destruct (HB purged de Hw1) as (A & B & C).
    split_and!; try assumption.
    rewrite Htr, !seek_hits_app, HK, !count_report_seek_hits,
      protect_events_seek_hits, (recording_seek_hits _ HT2), Hw1.
    cbn. now rewrite !app_nil_r.
Qed.

Lemma reconciler_walk_maps_ids_witness :
  let store := Samples.five_records in
  let isDel := Some (Samples.bits 8) in
  let purged := Samples.bitvec 7 18 in
  let a := build_by_iter Samples.schema0 "out" (Some store) isDel None
             Samples.always 0 in
  let b := build_by_iter Samples.schema0 "out" (Some store) isDel
             (Some purged) Samples.always 0 in
  let N := Z.of_nat (fv_size purged) in
  let p := Z.of_nat (length (purged_ids (bldata purged) N)) in
  (map v_logic (walk1 a.2) = seqZ 0 (numDataRows store) /\
   map v_physic (walk1 a.2) = map v_logic (walk1 a.2) /\
   map v_live (walk1 a.2)
   = map (null_or_not_deleted isDel) (seqZ 0 (numDataRows store)) /\
   add_records (trace a.2)
   = map (record_of store)
       (List.filter (null_or_not_deleted isDel)
          (seqZ 0 (numDataRows store))))
  /\
  (map v_logic (walk1 b.2) = kept_ids (bldata purged) N /\
   map v_physic (walk1 b.2) = seqZ 0 (N - p) /\
   Z.of_nat (length (walk1 b.2)) = N - p /\
   seek_hits (trace b.2) = live_ids (walk1 b.2)).
Proof.
  intros store isDel purged a b N p. split.
  - apply (reconciler_walk_maps_ids Samples.schema0 "out" store isDel None
             Samples.always 0 a.1 a.2).
    + vm_compute. reflexivity.
    + discriminate.
    + reflexivity.
  - apply (reconciler_walk_maps_ids Samples.schema0 "out" store isDel
             (Some purged) Samples.always 0 b.1 b.2).
    + vm_compute. reflexivity.
    + discriminate.
    + reflexivity.
    + discriminate.
    + vm_compute. reflexivity.
Defined.

(** ** A record the iterator does not find *)

(** The input of the counterexample of C5: two records, three logical ids
    none of which is purged or deleted. *)
Lemma seek_miss_terminates_the_process :
  let r := build_by_iter Samples.schema0 "out" (Some Samples.two_records)
             (Some (Samples.bits 0)) (Some (Samples.bitvec 3 0))
             Samples.never 0 in
  existsb is_miss (trace r.2) = true /\ r.1 = Fail Abort /\
  trace r.2 = [EvSeekExact 0 true; EvSeekExact 1 true; EvSeekExact 2 false;
               EvStderr (SeekMiss 2 2 3 2)].
Proof. vm_compute. now split_and!. Qed.

(** C5, amended.  When a [seekExact] of the sampling pass finds nothing,
    the build writes a diagnostic that names the logical id, the physical
    id, [logicNum] and [physicNum], and terminates the process with
    [abort]: these are the last two events of the trace, the ids are those
    the walk had reached, no lookup before it failed, the lock was never
    taken and the trainer was never asked to prepare. *)
Theorem seek_miss_is_reported_then_aborts schema fpath getStore isDel
    isPurged random recId0 o s :
  build_by_iter schema fpath getStore isDel isPurged random recId0
    = (o, s) ->
  existsb is_miss (trace s) = true ->
  o = Fail Abort /\ owns_lock s = false /\
  existsb is_prepare (trace s) = false /\
  exists store purged del evs0 l p post,
    getStore = Some store /\ isPurged = Some purged /\ isDel = Some del /\
    trace s = evs0 ++ [EvSeekExact p false;
                       EvStderr (SeekMiss l p (Z.of_nat (fv_size purged))
                                   (to_size_t (numDataRows store)))] /\
    no_miss evs0 /\
    Reconciler_walk del (bldata purged) (fv_size purged) 0 0
    = walk1 s ++ {| v_logic := l; v_physic := p; v_live := true |} :: post /\
    lookup_record store p = None.
Proof.
  intros E Hmiss. apply build_by_iter_anatomy in E.
  destruct E as
    [ Hrej
    | Hno Hdel
    | st s T1 sm T2 Hst Hno Hl Hw1 Hw2 Hok HT2 HAR Htr
    | st pu de s evs0 l p post Hst Hpu Hde Hno Hl Hw2 Htr Hsam Hnm HK0 HW Hlk
    | st pu de s T1 sm T2 v post Hst Hpu Hde Hno W N M Hl Hw1 Hin HW Hlk
        Hok HK HT2 HAR Htr
    | st pu de s T1 sm T2 Hst Hpu Hde Hno W N M Hl Hw1 Hin Hw2 Hok HK HT2
        HAR Htr ].
  - discriminate Hmiss.
  - discriminate Hmiss.
  - exfalso. rewrite no_miss_existsb in Hmiss; [discriminate|].
    rewrite Htr.
    repeat apply no_miss_app;
      eauto using sample_events_no_miss, protect_events_no_miss,
        recording_no_miss, no_miss_closing.
  - split_and!; try assumption; try reflexivity.
    + rewrite Htr, existsb_app, (sampling_not_prepare _ Hsam). reflexivity.
    + exists st, pu, de, evs0, l, p, post. now split_and!.
  - exfalso. rewrite no_miss_existsb in Hmiss; [discriminate|].
    rewrite Htr.
    repeat apply no_miss_app;
      eauto using sample_events_no_miss, protect_events_no_miss,
        recording_no_miss, count_report_no_miss.
    reflexivity.
  - exfalso. rewrite no_miss_existsb in Hmiss; [discriminate|].
    rewrite Htr.
    repeat apply no_miss_app;
      eauto using sample_events_no_miss, protect_events_no_miss,
        recording_no_miss, count_report_no_miss, no_miss_closing.
Qed.

Lemma seek_miss_is_reported_then_aborts_witness :
  let r := build_by_iter Samples.schema0 "out" (Some Samples.two_records)
             (Some (Samples.bits 0)) (Some (Samples.bitvec 3 0))
             Samples.never 0 in
  r.1 = Fail Abort /\ owns_lock r.2 = false /\
  existsb is_prepare (trace r.2) = false /\
  exists store purged del evs0 l p post,
    Some Samples.two_records = Some store /\
    Some (Samples.bitvec 3 0) = Some purged /\
    Some (Samples.bits 0) = Some del /\
    trace r.2 = evs0 ++ [EvSeekExact p false;
                       EvStderr (SeekMiss l p (Z.of_nat (fv_size purged))
                                   (to_size_t (numDataRows store)))] /\
    no_miss evs0 /\
    Reconciler_walk del (bldata purged) (fv_size purged) 0 0
    = walk1 r.2 ++ {| v_logic := l; v_physic := p; v_live := true |} :: post /\
    lookup_record store p = None.
Proof.
  intros r.
  apply (seek_miss_is_reported_then_aborts Samples.schema0 "out"
           (Some Samples.two_records) (Some (Samples.bits 0))
           (Some (Samples.bitvec 3 0)) Samples.never 0 r.1 r.2).
  - vm_compute. reflexivity.
  - vm_compute. reflexivity.
Defined.

(** ** The count of physical ids *)

Lemma Reconciler_walk_length_le del purged n l p :
  (length (Reconciler_walk del purged n l p) <= n)%nat.
Proof.
  pose proof (Reconciler_walk_length del purged n l p). lia.
Qed.

Lemma to_size_t_small z : 0 <= z < 2 ^ 64 -> to_size_t z = z.
Proof. intros H. unfold to_size_t. now apply Z.mod_small. Qed.

Lemma count_report_mismatch N M p :
  0 <= p < 2 ^ 64 -> p <> M ->
  count_report N M p = [EvStderr (CountMismatch p M N)].
Proof.
  intros Hp Hne. unfold count_report. rewrite to_size_t_small by assumption.
  destruct (Z.eqb_spec p M); [contradiction|reflexivity].
Qed.

(** The input of the counterexample of C6: two records, and a purge bitmap
    that covers one logical id. *)
Lemma count_mismatch_does_not_fail_the_build :
  let r := build_by_iter Samples.schema0 "out" (Some Samples.two_records)
             (Some (Samples.bits 0)) (Some (Samples.bitvec 1 0))
             Samples.never 0 in
  Z.of_nat (length (walk1 r.2)) <> numDataRows Samples.two_records /\
  Z.of_nat (length (walk2 r.2)) <> numDataRows Samples.two_records /\
  r.1 = Ret tt /\
  trace r.2
  = [EvSeekExact 0 true; EvStderr (CountMismatch 1 2 1);
     EvAddSample (list_byte_of_string "ab");
     EvLock; EvPrepare 1 "out"; EvReset;
     EvIncrement (Some 0); EvAddRecord (list_byte_of_string "ab");
     EvStderr (CountMismatch 1 2 1);
     EvCompleteBuild; EvDestroyBuilder; EvUnlock].
Proof. vm_compute. split_and!; congruence. Qed.

(** C6, amended.  In the branch with a purge bitmap, when a pass ends with
    a number of physical ids that differs from the number of records the
    source declares, the build writes a diagnostic with the observed
    count, the declared count and the logical count to stderr: after the
    sampling pass before the lock is taken, after the recording pass right
    before [completeBuild].  The diagnostic does not fail the build. *)
Theorem count_mismatch_is_reported schema fpath store isDel purged random
    recId0 o s :
  build_by_iter schema fpath (Some store) isDel (Some purged) random recId0
    = (o, s) ->
  fv_size purged <> 0%nat ->
  Z.of_nat (fv_size purged) < 2 ^ 64 ->
  numDataRows store < 2 ^ 64 ->
  let N := Z.of_nat (fv_size purged) in
  let M := numDataRows store in
  (existsb is_prepare (trace s) = true ->
   Z.of_nat (length (walk1 s)) <> M ->
   exists pre post,
     trace s = pre ++ EvStderr (CountMismatch (Z.of_nat (length (walk1 s)))
                                  M N) :: post /\
     forallb sampling_event pre = true)
  /\
  (o = Ret tt ->
   Z.of_nat (length (walk2 s)) <> M ->
   exists pre,
     trace s = pre ++ EvStderr (CountMismatch (Z.of_nat (length (walk2 s)))
                                  M N) :: closing).
Proof.
  intros E Hsz HN HM. apply build_by_iter_anatomy in E.
  assert (HM' : to_size_t (numDataRows store) = numDataRows store).
  { apply to_size_t_small. unfold numDataRows in *. lia. }
  assert (Hlen : forall del,
    0 <= Z.of_nat (length (Reconciler_walk del (bldata purged)
                             (fv_size purged) 0 0)) < 2 ^ 64).
  { intros del.
    pose proof (Reconciler_walk_length_le del (bldata purged)
                  (fv_size purged) 0 0). lia. }
  destruct E as
    [ Hrej
    | Hno Hdel
    | st s T1 sm T2 Hst Hno Hl Hw1 Hw2 Hok HT2 HAR Htr
    | st pu de s evs0 l p post Hst Hpu Hde Hno Hl Hw2 Htr Hsam Hnm HK0 HW Hlk
    | st pu de s T1 sm T2 v post Hst Hpu Hde Hno W N M Hl Hw1 Hin HW Hlk
        Hok HK HT2 HAR Htr
    | st pu de s T1 sm T2 Hst Hpu Hde Hno W N M Hl Hw1 Hin Hw2 Hok HK HT2
        HAR Htr ].
  - split; [discriminate|discriminate].
  - split; [discriminate|discriminate].
  - cbn in Hno. apply Nat.eqb_eq in Hno. contradiction.
  - split; [|discriminate]. intros Hprep.
    rewrite Htr, existsb_app, (sampling_not_prepare _ Hsam) in Hprep.
    discriminate Hprep.
  - injection Hst as <-. injection Hpu as <-.
    split; [|discriminate]. intros _ Hne.
    subst M. rewrite HM' in Htr. rewrite Hw1 in *. subst W.
    rewrite count_report_mismatch in Htr by auto.
    exists T1. eexists. split; [exact Htr|].
    eapply sample_events_sampling; eassumption.
  - injection Hst as <-. injection Hpu as <-.
    subst M. rewrite HM' in Htr. rewrite Hw1, Hw2 in *. subst W.
    split.
    + intros _ Hne. rewrite !count_report_mismatch in Htr by auto.
      exists T1. eexists. split; [exact Htr|].
      eapply sample_events_sampling; eassumption.
    + intros _ Hne. rewrite !count_report_mismatch in Htr by auto.
      eexists. rewrite Htr. rewrite !app_assoc. rewrite <- app_assoc.
      reflexivity.
Qed.

Lemma count_mismatch_is_reported_witness :
  let r := build_by_iter Samples.schema0 "out" (Some Samples.two_records)
             (Some (Samples.bits 0)) (Some (Samples.bitvec 1 0))
             Samples.never 0 in
  let N := Z.of_nat (fv_size (Samples.bitvec 1 0)) in
  let M := numDataRows Samples.two_records in
  (existsb is_prepare (trace r.2) = true ->
   Z.of_nat (length (walk1 r.2)) <> M ->
   exists pre post,
     trace r.2 = pre ++ EvStderr (CountMismatch
                                    (Z.of_nat (length (walk1 r.2))) M N)
                        :: post /\
     forallb sampling_event pre = true)
  /\
  (r.1 = Ret tt ->
   Z.of_nat (length (walk2 r.2)) <> M ->
   exists pre,
     trace r.2 = pre ++ EvStderr (CountMismatch
                                    (Z.of_nat (length (walk2 r.2))) M N)
                        :: closing).
Proof.
  intros r.
  apply (count_mismatch_is_reported Samples.schema0 "out"
           Samples.two_records (Some (Samples.bits 0)) (Samples.bitvec 1 0)
           Samples.never 0 r.1 r.2).
  - vm_compute. reflexivity.
  - vm_compute. discriminate.
  - vm_compute. reflexivity.
  - vm_compute. reflexivity.
Defined.

(** ** The sample set at [prepare] *)

Lemma prepare_split_unique X Y n path : forall pre n' path' post,
  existsb is_prepare X = false -> existsb is_prepare Y = false ->
  X ++ EvPrepare n path :: Y = pre ++ EvPrepare n' path' :: post ->
  pre = X /\ n' = n /\ path' = path /\ post = Y.
Proof.
  induction X as [|x X IH]; intros pre n' path' post HX HY E.
  - destruct pre as [|e pre]; cbn in E.
    + injection E as <- <- <-. now split_and!.
    + injection E as <- ->. rewrite existsb_app in HY. cbn in HY.
      rewrite orb_true_r in HY. discriminate HY.
  - cbn in HX. apply orb_false_iff in HX as [Hx HX].
    destruct pre as [|e pre]; cbn in E.
    + injection E as -> _. discriminate Hx.
    + injection E as <- E. apply IH in E; try assumption.
      destruct E as (-> & -> & -> & ->). now split_and!.
Qed.

Lemma filter_nonempty_existsb {A} (f : A -> bool) l :
  length (List.filter f l) <> 0%nat -> existsb f l = true.
Proof.
  induction l as [|x l IH]; cbn; [congruence|].
  destruct (f x); [reflexivity|exact IH].
Qed.

Lemma protect_events_sample r : existsb is_sample (protect_events 0 r) = true.
Proof.
  unfold protect_events. cbn. destruct (empty r) eqn:He; cbn.
  - reflexivity.
  - now rewrite He.
Qed.

Lemma emptyCheckProtect_fallback r s :
  emptyCheckProtect 0 r s
  = emit (EvAddSample (if empty r then fallback_sample else r)) s.
Proof. unfold emptyCheckProtect. cbn. now destruct (empty r). Qed.

(** What stands in the trace before [prepare], given what the sampling
    pass left there: the samples of the pass, the sample of
    [emptyCheckProtect] if the pass took none, and the lock. *)
Lemma before_prepare T1 sm extra r n path rest pre n' path' post :
  sample_events_ok 0 sm T1 ->
  forallb sampling_event extra = true ->
  List.filter is_sample extra = [] ->
  existsb is_prepare rest = false ->
  T1 ++ extra ++ protect_events sm r ++ [EvLock; EvPrepare n path; EvReset]
     ++ rest
  = pre ++ EvPrepare n' path' :: post ->
  existsb is_sample pre = true /\
  exists T, forallb sampling_event T = true /\
    pre = T ++ protect_events
                 (Z.of_nat (length (List.filter is_sample T))) r
            ++ [EvLock].
Proof.
  intros (Hs & _ & Hsm) Hse Hfe Hrest E. rewrite Z.add_0_l in Hsm.
  assert (E' : (T1 ++ extra ++ protect_events sm r ++ [EvLock])
               ++ EvPrepare n path :: EvReset :: rest
               = pre ++ EvPrepare n' path' :: post).
  { rewrite <- E, <- !app_assoc. reflexivity. }
  apply prepare_split_unique in E' as (-> & _).
  - split.
    + rewrite !existsb_app.
      destruct (List.filter is_sample T1) eqn:HF.
      * cbn in Hsm. subst sm. rewrite protect_events_sample.
        now rewrite !orb_true_r.
      * rewrite (filter_nonempty_existsb is_sample T1); [reflexivity|].
        now rewrite HF.
    + exists (T1 ++ extra). rewrite forallb_app, Hs, Hse.
      split; [reflexivity|].
      rewrite List.filter_app, Hfe, app_nil_r, <- Hsm, <- !app_assoc.
      reflexivity.
  - rewrite !existsb_app, (sampling_not_prepare _ Hs),
      (sampling_not_prepare _ Hse),
      (sampling_not_prepare _ (protect_events_sampling sm r)).
    reflexivity.
  - exact Hrest.
Qed.

Lemma count_report_no_sample N M p :
  List.filter is_sample (count_report N M p) = [].
Proof. unfold count_report. now destruct (negb _). Qed.

(** C7.  Before every call of [prepare] a sample that is not empty has
    been handed to the trainer.  More precisely, what precedes [prepare] in
    the trace is the events of the sampling pass, then, if the pass handed
    over no sample, the one sample of [emptyCheckProtect] (the last record
    the pass left in [rec] if it is not empty, the literal otherwise), then
    the lock. *)
Theorem sample_set_nonempty_at_prepare schema fpath store isDel isPurged
    random recId0 o s pre n path post :
  build_by_iter schema fpath (Some store) isDel isPurged random recId0
    = (o, s) ->
  trace s = pre ++ EvPrepare n path :: post ->
  existsb is_sample pre = true /\
  exists T, forallb sampling_event T = true /\
    pre = T ++ protect_events
                 (Z.of_nat (length (List.filter is_sample T)))
                 (last_record_encountered store isDel isPurged)
            ++ [EvLock].
Proof.
  intros E Htrace. apply build_by_iter_anatomy in E.
  unfold last_record_encountered.
  destruct E as
    [ Hrej
    | Hno Hdel
    | st s T1 sm T2 Hst Hno Hl Hw1 Hw2 Hok HT2 HAR Htr
    | st pu de s evs0 l p post' Hst Hpu Hde Hno Hl Hw2 Htr Hsam Hnm HK0 HW Hlk
    | st pu de s T1 sm T2 v post' Hst Hpu Hde Hno W N M Hl Hw1 Hin HW Hlk
        Hok HK HT2 HAR Htr
    | st pu de s T1 sm T2 Hst Hpu Hde Hno W N M Hl Hw1 Hin Hw2 Hok HK HT2
        HAR Htr ].
  - destruct pre; discriminate Htrace.
  - destruct pre; discriminate Htrace.
  - injection Hst as <-. rewrite Hno. rewrite Htr in Htrace.
    eapply (before_prepare T1 sm []); [exact Hok|reflexivity|reflexivity|
                                       |exact Htrace].
    rewrite existsb_app, (recording_not_prepare _ HT2). reflexivity.
  - exfalso.
    assert (H : existsb is_prepare (trace s) = true).
    { rewrite Htrace, existsb_app. cbn. apply orb_true_r. }
    rewrite Htr, existsb_app, (sampling_not_prepare _ Hsam) in H.
    discriminate H.
  - injection Hst as <-. subst isPurged isDel. rewrite Hno.
    rewrite Htr in Htrace.
    eapply (before_prepare T1 sm (count_report N M _));
      [exact Hok|apply count_report_sampling|apply count_report_no_sample|
      |exact Htrace].
    rewrite existsb_app, (recording_not_prepare _ HT2). reflexivity.
  - injection Hst as <-. subst isPurged isDel. rewrite Hno.
    rewrite Htr in Htrace.
    eapply (before_prepare T1 sm (count_report N M _));
      [exact Hok|apply count_report_sampling|apply count_report_no_sample|
      |exact Htrace].
    rewrite !existsb_app, (recording_not_prepare _ HT2),
      (recording_not_prepare _ (count_report_recording N M _)).
    reflexivity.
Qed.

Lemma sample_set_nonempty_at_prepare_witness :
  let store := Samples.five_records in
  let pre := [EvIncrement (Some 0); EvIncrement (Some 1);
              EvIncrement (Some 2); EvIncrement (Some 3);
              EvIncrement (Some 4); EvIncrement None;
              EvAddSample (list_byte_of_string "e"); EvLock] in
  existsb is_sample pre = true /\
  exists T, forallb sampling_event T = true /\
    pre = T ++ protect_events
                 (Z.of_nat (length (List.filter is_sample T)))
                 (last_record_encountered store None None)
            ++ [EvLock].
Proof.
  intros store pre.
  set (r := build_by_iter Samples.schema0 "out" (Some store) None None
              Samples.never 0).
  apply (sample_set_nonempty_at_prepare Samples.schema0 "out" store None
           None Samples.never 0 r.1 r.2 pre 5 "out"
           (skipn 9 (trace r.2))).
  - vm_compute. reflexivity.
  - vm_compute. reflexivity.
Defined.

(** ** The lock *)

(** The input of the counterexample of C8: two records and three logical
    ids, the last of them deleted.  The sampling pass never looks the
    third id up; the recording pass finds the iterator exhausted, and
    [abort] ends the process while the lock is held. *)
Lemma lock_is_held_when_recording_aborts :
  let r := build_by_iter Samples.schema0 "out" (Some Samples.two_records)
             (Some (Samples.bits 4)) (Some (Samples.bitvec 3 0))
             Samples.never 0 in
  r.1 = Fail Abort /\ owns_lock r.2 = true /\
  In EvLock (trace r.2) /\ ~ In EvUnlock (trace r.2).
Proof.
  vm_compute. split_and!; try reflexivity.
  - do 4 right. now left.
  - intros H. repeat (destruct H as [H|H]; [discriminate H|]). exact H.
Qed.

(** C8, amended.  The trace of every call is made of the events of the
    sampling pass, during which the lock is not held, and, if that pass
    came to its end, of [lock], [prepare], [reset] and the events of the
    recording pass, in this order.  A call that returns ends with
    [completeBuild], the destruction of the builder and [unlock], and does
    not own the lock afterwards; a call that does not reach [lock] does
    not own it either.  When the recording pass aborts, the process ends
    with the lock held. *)
Theorem lock_spans_prepare_to_completion schema fpath getStore isDel
    isPurged random recId0 o s :
  build_by_iter schema fpath getStore isDel isPurged random recId0
    = (o, s) ->
  exists T1, forallb sampling_event T1 = true /\
    ((trace s = T1 /\ owns_lock s = false /\ o <> Ret tt)
     \/
     exists n T2, forallb recording_event T2 = true /\
       ((o = Ret tt /\ owns_lock s = false /\
         trace s = T1 ++ [EvLock; EvPrepare n fpath; EvReset] ++ T2
                   ++ closing)
        \/
        (o = Fail Abort /\ owns_lock s = true /\
         trace s = T1 ++ [EvLock; EvPrepare n fpath; EvReset] ++ T2))).
Proof.
  intros E. apply build_by_iter_anatomy in E.
  destruct E as
    [ Hrej
    | Hno Hdel
    | st s T1 sm T2 Hst Hno Hl Hw1 Hw2 Hok HT2 HAR Htr
    | st pu de s evs0 l p post Hst Hpu Hde Hno Hl Hw2 Htr Hsam Hnm HK0 HW Hlk
    | st pu de s T1 sm T2 v post Hst Hpu Hde Hno W N M Hl Hw1 Hin HW Hlk
        Hok HK HT2 HAR Htr
    | st pu de s T1 sm T2 Hst Hpu Hde Hno W N M Hl Hw1 Hin Hw2 Hok HK HT2
        HAR Htr ].
  - exists []. split; [reflexivity|]. left. now split_and!.
  - exists []. split; [reflexivity|]. left. now split_and!.
  - exists (T1 ++ protect_events sm (List.last (records st) [])).
    rewrite forallb_app, (sample_events_sampling _ _ _ Hok),
      protect_events_sampling.
    split; [reflexivity|]. right. eexists. exists T2.
    split; [assumption|]. left. split_and!; try easy.
    rewrite Htr, <- !app_assoc. reflexivity.
  - eexists. split; [|left; split_and!; [exact Htr|assumption|discriminate]].
    rewrite forallb_app, Hsam. reflexivity.
  - exists (T1 ++ count_report N M (Z.of_nat (length W))
               ++ protect_events sm (last_fetched st [] W)).
    rewrite !forallb_app, (sample_events_sampling _ _ _ Hok),
      count_report_sampling, protect_events_sampling.
    split; [reflexivity|]. right. eexists. eexists.
    split; [|right; split_and!; [reflexivity|assumption|]].
    2:{ rewrite Htr, <- !app_assoc. reflexivity. }
    rewrite forallb_app, HT2. reflexivity.
  - exists (T1 ++ count_report N M (Z.of_nat (length W))
               ++ protect_events sm (last_fetched st [] W)).
    rewrite !forallb_app, (sample_events_sampling _ _ _ Hok),
      count_report_sampling, protect_events_sampling.
    split; [reflexivity|]. right. eexists.
    exists (T2 ++ count_report N M (Z.of_nat (length W))).
    split; [|left; split_and!; [reflexivity|assumption|]].
    2:{ rewrite Htr, <- !app_assoc. reflexivity. }
    rewrite forallb_app, HT2, count_report_recording. reflexivity.
Qed.

Lemma lock_spans_prepare_to_completion_witness :
  let r := build_by_iter Samples.schema0 "out" (Some Samples.two_records)
             (Some (Samples.bits 4)) (Some (Samples.bitvec 3 0))
             Samples.never 0 in
  exists T1, forallb sampling_event T1 = true /\
    ((trace r.2 = T1 /\ owns_lock r.2 = false /\ r.1 <> Ret tt)
     \/
     exists n T2, forallb recording_event T2 = true /\
       ((r.1 = Ret tt /\ owns_lock r.2 = false /\
         trace r.2 = T1 ++ [EvLock; EvPrepare n "out"; EvReset] ++ T2
                     ++ closing)
        \/
        (r.1 = Fail Abort /\ owns_lock r.2 = true /\
         trace r.2 = T1 ++ [EvLock; EvPrepare n "out"; EvReset] ++ T2))).
Proof.
  intros r.
  apply (lock_spans_prepare_to_completion Samples.schema0 "out"
           (Some Samples.two_records) (Some (Samples.bits 4))
           (Some (Samples.bitvec 3 0)) Samples.never 0 r.1 r.2).
  vm_compute. reflexivity.
Defined.

(** ** The count given to [prepare] *)

(** C4 fails without purge bitmap: of two records the first is deleted,
    one record is live, and [prepare] is given 2, the id of the last record
    plus one. *)
Theorem prepare_counts_deleted_records_without_purge :
  let r := build_by_iter Samples.schema0 "out" (Some Samples.two_records)
             (Some (Samples.bits 1)) None Samples.never 0 in
  r.1 = Ret tt /\
  live_ids (walk1 r.2) = [1] /\
  trace r.2
  = [EvIncrement (Some 0); EvIncrement (Some 1); EvIncrement None;
     EvAddSample (list_byte_of_string "cd");
     EvLock; EvPrepare 2 "out"; EvReset;
     EvIncrement (Some 0);
     EvIncrement (Some 1); EvAddRecord (list_byte_of_string "cd");
     EvIncrement None;
     EvCompleteBuild; EvDestroyBuilder; EvUnlock].
Proof. vm_compute. now split_and!. Qed.

(** Without purge bitmap [prepare] is given the number of records of the
    source, whatever the deletion bitmap says; over an empty source it is
    given what the uninitialised [recId] holds, plus one. *)
Lemma prepare_count_without_purge schema fpath store isDel isPurged random
    recId0 o s :
  build_by_iter schema fpath (Some store) isDel isPurged random recId0
    = (o, s) ->
  no_purge isPurged = true ->
  (0 <= m_dictZipSampleRatio schema)%Q ->
  In (EvPrepare (match records store with
                 | [] => recId0 + 1
                 | _ :: _ => numDataRows store
                 end) fpath) (trace s).
Proof.
  intros E Hno Hr. apply build_by_iter_anatomy in E.
  destruct E as
    [ Hrej
    | Hno' Hdel
    | st s T1 sm T2 Hst Hno' Hl Hw1 Hw2 Hok HT2 HAR Htr
    | st pu de s evs0 l p post Hst Hpu Hde Hno' Hl Hw2 Htr Hsam Hnm HK0 HW Hlk
    | st pu de s T1 sm T2 v post Hst Hpu Hde Hno' W N M Hl Hw1 Hin HW Hlk
        Hok HK HT2 HAR Htr
    | st pu de s T1 sm T2 Hst Hpu Hde Hno' W N M Hl Hw1 Hin Hw2 Hok HK HT2
        HAR Htr ];
    try congruence.
  - destruct Hrej as [H|H]; [|discriminate H].
    exfalso. apply (Qlt_not_le _ _ H Hr).
  - injection Hst as <-. rewrite Htr.
    apply in_or_app. right. apply in_or_app. right. right. left.
    f_equal. unfold numDataRows. destruct (records store); cbn [length]; lia.
Qed.

(** With a purge bitmap [prepare] is given the number of live records. *)
Lemma prepare_count_with_purge schema fpath store isDel isPurged random
    recId0 o s n path :
  build_by_iter schema fpath (Some store) isDel isPurged random recId0
    = (o, s) ->
  no_purge isPurged = false ->
  In (EvPrepare n path) (trace s) ->
  n = Z.of_nat (length (live_ids (walk1 s))).
Proof.
  intros E Hno Hin.
  assert (Hsplit : exists pre post, trace s = pre ++ EvPrepare n path :: post).
  { apply in_split in Hin. exact Hin. }
  destruct Hsplit as (pre & post & Hsplit).
  apply build_by_iter_anatomy in E.
  destruct E as
    [ Hrej
    | Hno' Hdel
    | st s T1 sm T2 Hst Hno' Hl Hw1 Hw2 Hok HT2 HAR Htr
    | st pu de s evs0 l p post' Hst Hpu Hde Hno' Hl Hw2 Htr Hsam Hnm HK0 HW Hlk
    | st pu de s T1 sm T2 v post' Hst Hpu Hde Hno' W N M Hl Hw1 Hin' HW Hlk
        Hok HK HT2 HAR Htr
    | st pu de s T1 sm T2 Hst Hpu Hde Hno' W N M Hl Hw1 Hin' Hw2 Hok HK HT2
        HAR Htr ];
    try congruence.
  - destruct Hin.
  - destruct Hin.
  - exfalso.
    assert (H : existsb is_prepare (trace s) = true).
    { rewrite Hsplit, existsb_app. cbn. apply orb_true_r. }
    rewrite Htr, existsb_app, (sampling_not_prepare _ Hsam) in H.
    discriminate H.
  - rewrite Hw1. rewrite Htr in Hsplit.
    assert (E' : (T1 ++ count_report N M (Z.of_nat (length W))
                  ++ protect_events sm (last_fetched st [] W) ++ [EvLock])
                 ++ EvPrepare (Z.of_nat (length (live_ids W))) fpath
                 :: EvReset :: T2
                    ++ [EvIncrement None;
                        EvStderr (IncrementMismatch false (v_logic v)
                                    (v_physic v) (-1) M N)]
                 = pre ++ EvPrepare n path :: post).
    { rewrite <- Hsplit, <- !app_assoc. reflexivity. }
    apply prepare_split_unique in E' as (_ & -> & _); [reflexivity| |].
    + rewrite !existsb_app,
        (sampling_not_prepare _ (sample_events_sampling _ _ _ Hok)),
        (sampling_not_prepare _ (count_report_sampling N M _)),
        (sampling_not_prepare _ (protect_events_sampling sm _)).
      reflexivity.
    + cbn. rewrite existsb_app, (recording_not_prepare _ HT2). reflexivity.
  - rewrite Hw1. rewrite Htr in Hsplit.
    assert (E' : (T1 ++ count_report N M (Z.of_nat (length W))
                  ++ protect_events sm (last_fetched st [] W) ++ [EvLock])
                 ++ EvPrepare (Z.of_nat (length (live_ids W))) fpath
                 :: EvReset :: T2
                    ++ count_report N M (Z.of_nat (length W)) ++ closing
                 = pre ++ EvPrepare n path :: post).
    { rewrite <- Hsplit, <- !app_assoc. reflexivity. }
    apply prepare_split_unique in E' as (_ & -> & _); [reflexivity| |].
    + rewrite !existsb_app,
        (sampling_not_prepare _ (sample_events_sampling _ _ _ Hok)),
        (sampling_not_prepare _ (count_report_sampling N M _)),
        (sampling_not_prepare _ (protect_events_sampling sm _)).
      reflexivity.
    + cbn. rewrite !existsb_app, (recording_not_prepare _ HT2),
        (recording_not_prepare _ (count_report_recording N M _)).
      reflexivity.
Qed.

(** ** Persistence *)

Import Persist.

Lemma string_length_app (a b : string) :
  String.length (a ++ b) = (String.length a + String.length b)%nat.
Proof.
  induction a as [|c a IH]; [reflexivity|].
  change (String c a ++ b)%string with (String c (a ++ b)).
  cbn [String.length Nat.add]. now f_equal.
Qed.

Lemma substring_whole (b : string) : substring 0 (String.length b) b = b.
Proof. induction b as [|c b IH]; cbn; [reflexivity|now rewrite IH]. Qed.

Lemma substring_app_r (a b : string) :
  substring (String.length a) (String.length b) (a ++ b) = b.
Proof.
  induction a as [|c a IH]; [apply substring_whole|].
  change (String c a ++ b)%string with (String c (a ++ b)). exact IH.
Qed.

Lemma endsWith_app (a b : string) : endsWith (a ++ b) b = true.
Proof.
  unfold endsWith. rewrite string_length_app.
  destruct (Nat.ltb_spec (String.length a + String.length b)
              (String.length b)) as [H|H]; [lia|].
  replace (String.length a + String.length b - String.length b)%nat
    with (String.length a) by lia.
  rewrite substring_app_r. apply String.eqb_refl.
Qed.

(** C9.  [save] hands the store to the serializer of its own class, and
    to no other: for a class that has a serializer the result is the file
    system with one file written, by that serializer, at the normalised
    path; for any other class the call throws [std::invalid_argument] and
    writes nothing. *)
Theorem save_dispatches_on_the_class (m_store : BlobStore) (path : string)
    (fs : gmap string File) :
  match own_serializer (store_class m_store) with
  | Some serializer =>
      save m_store path fs
      = Ret (<[save_fpath path :=
                 {| written_by := serializer; holds := m_store |}]> fs)
  | None => save m_store path fs = Fail InvalidArgument
  end.
Proof.
  unfold save, save_mmap, dynamic_cast_BaseDFA,
    dynamic_cast_FastZipBlobStore, dynamic_cast_DictZipBlobStore.
  destruct (store_class m_store); reflexivity.
Qed.

(** Every class that [build] and [nltBuild] instantiate has a
    serializer. *)
Lemma built_classes_have_a_serializer schema :
  is_Some (own_serializer (build schema)) /\
  is_Some (own_serializer (nltBuild schema)).
Proof.
  unfold build, nltBuild.
  destruct (Qlt_le_dec 0 (m_dictZipSampleRatio schema));
    destruct (m_useFastZip schema);
    destruct (m_rankSelectClass schema =? -256);
    destruct (m_rankSelectClass schema =? 256);
    destruct (m_rankSelectClass schema =? 512); cbn; eauto.
Qed.

(** C10.  [save] and [load] compute the same file path from a path: the
    path itself if it ends with ".nlt", the path followed by ".nlt" if it
    does not; the computed path always ends with ".nlt"; and [load] of a
    path after a [save] to the same path that returned yields the store
    that was saved. *)
Theorem save_and_load_agree_on_the_path (path : string) :
  save_fpath path = load_fpath path /\
  (endsWith path ".nlt" = true -> save_fpath path = path) /\
  (endsWith path ".nlt" = false -> save_fpath path = (path ++ ".nlt")%string) /\
  endsWith (save_fpath path) ".nlt" = true /\
  forall m_store fs fs',
    save m_store path fs = Ret fs' -> load path fs' = Some m_store.
Proof.
  split_and!.
  - reflexivity.
  - unfold save_fpath. now intros ->.
  - unfold save_fpath. now intros ->.
  - unfold save_fpath. destruct (endsWith path ".nlt") eqn:E.
    + exact E.
    + apply endsWith_app.
  - intros m_store fs fs'. unfold save, load, load_from, save_mmap.
    change (load_fpath path) with (save_fpath path).
    destruct (dynamic_cast_BaseDFA m_store);
      [|destruct (dynamic_cast_FastZipBlobStore m_store);
        [|destruct (dynamic_cast_DictZipBlobStore m_store)]];
      intros [= <-] || discriminate;
      now rewrite lookup_insert_eq.
Qed.

(** ** Outcomes, and the scenarios of section 8 *)

(** The loop bound of the model is never the reason a build stops. *)
Lemma build_by_iter_has_enough_fuel schema fpath getStore isDel isPurged
    random recId0 :
  (build_by_iter schema fpath getStore isDel isPurged random recId0).1
  <> Fail OutOfFuel.
Proof.
  destruct (build_by_iter _ _ _ _ _ _ _) as [o s] eqn:E.
  apply build_by_iter_anatomy in E. destruct E; discriminate.
Qed.

(** Scenario B: ten records, ids 2 and 5 deleted, no purge bitmap; the
    recording pass hands over the other eight, in order. *)
Example scenario_B :
  let r := build_by_iter Samples.schema0 "out" (Some Samples.ten_records)
             (Some (Samples.bits 36)) None Samples.never 0 in
  r.1 = Ret tt /\ live_ids (walk2 r.2) = [0; 1; 3; 4; 6; 7; 8; 9] /\
  List.filter (fun e => match e with EvAddRecord _ => true | _ => false end)
    (trace r.2)
  = map (fun x => EvAddRecord (list_byte_of_string x))
      ["r0"; "r1"; "r3"; "r4"; "r6"; "r7"; "r8"; "r9"].
Proof. vm_compute. now split_and!. Qed.

(** Scenario C: ten logical ids, 1, 4 and 7 purged, 3 deleted, seven
    records; logical id 3 is physical id 2 and is left out, and [prepare]
    is given 6. *)
Example scenario_C :
  let r := build_by_iter Samples.schema0 "out" (Some Samples.seven_records)
             (Some (Samples.bits 8)) (Some (Samples.bitvec 10 146))
             Samples.never 0 in
  r.1 = Ret tt /\
  walk1 r.2 !! 2%nat
  = Some {| v_logic := 3; v_physic := 2; v_live := false |} /\
  live_ids (walk2 r.2) = [0; 1; 3; 4; 5; 6] /\
  In (EvPrepare 6 "out") (trace r.2).
Proof.
  vm_compute. split_and!; try reflexivity.
  do 8 right. now left.
Qed.

Example save_fpath_examples :
  save_fpath "table/col" = "table/col.nlt"%string /\
  load_fpath "table/col.nlt" = "table/col.nlt"%string /\
  save_fpath ".nlt" = ".nlt"%string /\
  save_fpath "nlt" = "nlt.nlt"%string.
Proof. vm_compute. now split_and!. Qed.
Import Persist.

(** * Further properties *)

(** ** The sample ratio and the threshold *)

(** X1.  Lines 137-139 reduce the ratio for large data only.  While the
    sample volume [dataSize * sampleRatio] is at most [2^30] the ratio is
    the requested one (or the default), capped at one half; from [2^31]
    on it is smaller than the requested one.  The two limits leave the
    interval around [0.95 * INT32_MAX] open, in which the rounding of the
    code's doubles decides. *)
Theorem effective_sample_ratio_by_data_size (r0 : Q) (S : Z) :
  ((inject_Z S * requested_or_default r0 <= inject_Z (2 ^ 30))%Q ->
   effective_sample_ratio r0 S = cap (requested_or_default r0)) /\
  ((inject_Z (2 ^ 31) <= inject_Z S * requested_or_default r0)%Q ->
   (effective_sample_ratio r0 S < requested_or_default r0)%Q).
Proof.
  pose proof (requested_or_default_pos r0) as Hr.
  unfold effective_sample_ratio, shrink.
  set (r := requested_or_default r0) in *.
  set (T := (inject_Z INT32_MAX * (95 # 100))%Q).
  assert (HT : (inject_Z (2 ^ 30) < T /\ T < inject_Z (2 ^ 31))%Q)
    by (split; reflexivity).
  assert (H30 : (0 < inject_Z (2 ^ 30))%Q) by reflexivity.
  split; intros H; destruct (Qlt_le_dec (inject_Z S * r) T) as [Hlt|Hge];
    try lra; try reflexivity.
  assert (HS : (0 < inject_Z S)%Q) by nra.
  assert (Hq : (T / inject_Z S < r)%Q).
  { apply Qlt_shift_div_r; [exact HS|]. lra. }
  unfold cap. destruct (Qlt_le_dec (1 # 2) (T / inject_Z S)); lra.
Qed.

Lemma effective_sample_ratio_floor (r0 : Q) (S : Z) :
  S < 2 ^ 63 -> (1 # 2 ^ 33 <= effective_sample_ratio r0 S)%Q.
Proof.
  intros HS. unfold effective_sample_ratio.
  assert (Hr : (1 # 2 ^ 33 <= requested_or_default r0)%Q).
  { unfold requested_or_default.
    destruct (Qlt_le_dec FLT_EPSILON r0) as [H|H].
    - apply Qlt_le_weak. eapply Qle_lt_trans; [|exact H]. discriminate.
    - discriminate. }
  assert (Hs : (1 # 2 ^ 33 <= shrink S (requested_or_default r0))%Q).
  { unfold shrink. destruct (Qlt_le_dec _ _) as [H|H]; [exact Hr|].
    set (T := (inject_Z INT32_MAX * (95 # 100))%Q) in *.
    assert (HT : (inject_Z (2 ^ 30) <= T)%Q) by discriminate.
    assert (P : (0 < inject_Z S)%Q).
    { assert (0 < T)%Q by reflexivity.
      assert (0 < requested_or_default r0)%Q
        by apply requested_or_default_pos.
      nra. }
    assert (HSq : (inject_Z S <= inject_Z (2 ^ 63))%Q).
    { rewrite <- Zle_Qle. lia. }
    apply Qle_shift_div_l; [exact P|].
    apply Qle_trans with (inject_Z (2 ^ 30)); [|exact HT].
    apply Qle_trans with ((1 # 2 ^ 33) * inject_Z (2 ^ 63))%Q.
    - apply Qmult_le_l; [reflexivity|exact HSq].
    - discriminate. }
  unfold cap. destruct (Qlt_le_dec _ _); [discriminate|exact Hs].
Qed.

(** X3.  The acceptance threshold is at most [2^63] whatever the requested
    ratio and the size, so a number of [2^63] or more is never accepted;
    and for a size in the range of [llong] it is at least 1, so a draw of
    0 is always accepted.  (The bounds are not tight here: in the code
    [2^64 - 1] is rounded to [2^64] before it is multiplied, and the
    threshold of the ratio one half is [2^63] itself.) *)
Theorem sampleUpperBound_range (r0 : Q) (S : Z) :
  0 <= sampleUpperBound (effective_sample_ratio r0 S) <= 2 ^ 63 /\
  (S < 2 ^ 63 -> 1 <= sampleUpperBound (effective_sample_ratio r0 S)).
Proof.
  unfold sampleUpperBound.
  set (r := effective_sample_ratio r0 S).
  assert (Hhi : (r <= 1 # 2)%Q).
  { unfold r, effective_sample_ratio, cap.
    destruct (Qlt_le_dec _ _); [apply Qle_refl|assumption]. }
  assert (Hlo : (0 <= r)%Q).
  { unfold r, effective_sample_ratio.
    pose proof (requested_or_default_pos r0) as Hr.
    set (x := shrink S _).
    assert (Hx : (0 <= x)%Q).
    { unfold x, shrink. destruct (Qlt_le_dec _ _) as [H|H]; [lra|].
      set (T := (inject_Z INT32_MAX * (95 # 100))%Q) in *.
      assert (0 < T)%Q by reflexivity.
      assert (P : (0 < inject_Z S)%Q) by nra.
      apply Qlt_le_weak, Qlt_shift_div_l; lra. }
    unfold cap. destruct (Qlt_le_dec _ _); [discriminate|exact Hx]. }
  assert (Hm : (0 < inject_Z (UINT64_MAX - 0))%Q) by reflexivity.
  split; [split|].
  - change 0 with (Qfloor (inject_Z 0)) at 1. apply Qfloor_resp_le. nra.
  - apply Z.le_trans
      with (Qfloor (inject_Z 0 + inject_Z (UINT64_MAX - 0) * (1 # 2))).
    + apply Qfloor_resp_le. nra.
    + vm_compute. discriminate.
  - intros HS. pose proof (effective_sample_ratio_floor r0 S HS) as Hf.
    fold r in Hf.
    change 1 with (Qfloor (inject_Z 1)) at 1. apply Qfloor_resp_le.
    apply Qle_trans
      with (inject_Z 0 + inject_Z (UINT64_MAX - 0) * (1 # 2 ^ 33))%Q.
    + discriminate.
    + apply Qplus_le_r. apply Qmult_le_l; [exact Hm|exact Hf].
Qed.

(** ** What the passes keep true *)

Lemma add_samples_app a b :
  add_samples (a ++ b) = add_samples a ++ add_samples b.
Proof. apply flat_map_app. Qed.

Lemma sampled_from_snoc random bound recs r : forall k,
  sampled_from random bound k (recs ++ [r])
  = sampled_from random bound k recs
    ++ (if empty r then []
        else if random (k + length (List.filter nonempty recs))%nat <? bound
             then [r] else []).
Proof.
  induction recs as [|x recs IH]; intros k;
    cbn [app sampled_from List.filter length].
  - rewrite Nat.add_0_r. destruct (empty r); [reflexivity|].
    now destruct (_ <? _).
  - unfold nonempty at 1. destruct (empty x) eqn:Hx; cbn [negb].
    + apply IH.
    + rewrite IH. cbn [length]. rewrite Nat.add_succ_comm.
      now destruct (random k <? bound).
Qed.

Lemma sampled_from_sublist random bound recs : forall k,
  sublist (sampled_from random bound k recs) recs.
Proof.
  induction recs as [|x recs IH]; intros k; cbn [sampled_from].
  - constructor.
  - destruct (empty x); [now apply sublist_cons|].
    destruct (random k <? bound);
      [now apply sublist_skip|now apply sublist_cons].
Qed.

Lemma sampled_from_nonempty random bound recs : forall k,
  Forall (fun r => empty r = false) (sampled_from random bound k recs).
Proof.
  induction recs as [|x recs IH]; intros k; cbn [sampled_from].
  - constructor.
  - destruct (empty x) eqn:Hx; [apply IH|].
    destruct (random k <? bound); [|apply IH].
    constructor; [exact Hx|apply IH].
Qed.

Lemma after_sampling_refl s : after_sampling s s.
Proof. now constructor. Qed.

Lemma after_sampling_trans s1 s2 s3 :
  after_sampling s1 s2 -> after_sampling s2 s3 -> after_sampling s1 s3.
Proof. intros [A1 D1 S1] [A2 D2 S2]. constructor; congruence. Qed.

Lemma sampling_inv_after store random bound s s' :
  after_sampling s s' ->
  sampling_inv store random bound s -> sampling_inv store random bound s'.
Proof.
  intros [A D S] [I1 I2]. constructor; rewrite ?A, ?D, ?S; assumption.
Qed.

Lemma live_records_snoc store w v :
  live_records store (w ++ [v])
  = live_records store w
    ++ (if v_live v then [record_of store (v_physic v)] else []).
Proof.
  unfold live_records. rewrite live_ids_app, map_app. f_equal.
  rewrite live_ids_cons. now destruct (v_live v).
Qed.

(** A history grows by an entry that is not live. *)
Lemma sampling_inv_dead store random bound s s' v :
  v_live v = false ->
  walk1 s' = walk1 s ++ [v] -> draws s' = draws s ->
  add_samples (trace s') = add_samples (trace s) ->
  sampling_inv store random bound s -> sampling_inv store random bound s'.
Proof.
  intros Hv A D S [I1 I2].
  constructor; rewrite ?A, ?D, ?S, ?live_records_snoc, ?Hv, ?app_nil_r;
    assumption.
Qed.

(** A history grows by a live entry whose record [r] was fetched, and
    perhaps sampled. *)
Lemma sampling_inv_live store random bound s s' v r :
  v_live v = true -> record_of store (v_physic v) = r ->
  walk1 s' = walk1 s ++ [v] ->
  draws s' = (if empty r then draws s else S (draws s)) ->
  add_samples (trace s')
  = add_samples (trace s) ++ decided random bound (draws s) r ->
  sampling_inv store random bound s -> sampling_inv store random bound s'.
Proof.
  intros Hv Hr A D S [I1 I2].
  constructor; rewrite ?A, ?live_records_snoc, ?Hv, ?Hr.
  - rewrite S, sampled_from_snoc, <- I1, <- I2. reflexivity.
  - rewrite D, List.filter_app, length_app, <- I2. cbn. unfold nonempty.
    destruct (empty r); cbn; lia.
Qed.

Lemma maybe_sample_effect random bound sm s o s' :
  maybe_sample random bound sm s = (o, s') ->
  walk1 s' = walk1 s /\ walk2 s' = walk2 s /\
  draws s' = (if empty (rec s) then draws s else S (draws s)) /\
  add_samples (trace s')
  = add_samples (trace s) ++ decided random bound (draws s) (rec s) /\
  (forallb quiet (trace s) = true -> forallb quiet (trace s') = true).
Proof.
  unfold maybe_sample, bind, get_rec, random_draw, emit, ret, decided.
  destruct (empty (rec s)) eqn:He.
  - intros [= <- <-]. split_and!; auto. now rewrite app_nil_r.
  - destruct (random (draws s) <? bound); intros [= <- <-]; cbn.
    + split_and!; try reflexivity.
      * now rewrite add_samples_app.
      * intros H. now rewrite forallb_app, H.
    + split_and!; auto. now rewrite app_nil_r.
Qed.

Lemma lookup_record_nat store (c : nat) :
  lookup_record store (Z.of_nat c) = records store !! c.
Proof.
  unfold lookup_record.
  destruct (Z.ltb_spec (Z.of_nat c) 0); [lia|]. now rewrite Nat2Z.id.
Qed.

Section SamplingKeeps.
Variables (store : ReadableStore) (random : nat -> Z).

Lemma sample_purged_body_keeps del purged logicNum physicNum bound
    l p np sm s o s' :
  sample_purged_body store random del purged logicNum physicNum bound
    l p np sm s = (o, s') ->
  sampling_inv store random bound s ->
  sampling_inv store random bound s' /\ walk2 s' = walk2 s.
Proof.
  unfold sample_purged_body.
  destruct (terark_bit_test purged l); cbn [negb].
  { intros [= <- <-]. now split. }
  destruct (terark_bit_test del l); cbn [negb].
  { unfold bind, note_visit1, ret. intros [= <- <-] I.
    split; [|reflexivity].
    eapply (sampling_inv_dead store random bound s _
              {| v_logic := l; v_physic := p; v_live := false |});
      [| | | |exact I]; reflexivity. }
  unfold bind at 1, iter_seekExact at 1.
  destruct (lookup_record store p) as [r|] eqn:Hl; cbn [negb].
  - unfold bind at 1.
    destruct (maybe_sample _ _ _ _) as [o1 s1] eqn:E1.
    pose proof (maybe_sample_spec _ _ _ _ _ _ E1)
      as (_ & _ & sm' & evs & -> & _ & _).
    apply maybe_sample_effect in E1 as (A & B & D & S & _).
    cbn [walk1 walk2 draws rec trace] in A, B, D, S.
    unfold bind, note_visit1, ret. intros [= <- <-] I.
    split; [|exact B].
    eapply (sampling_inv_live store random bound s _
              {| v_logic := l; v_physic := p; v_live := true |} r);
      [reflexivity|now apply record_of_Some| | | |exact I];
      cbn [walk1 draws trace].
    + now rewrite A.
    + exact D.
    + rewrite add_samples_app in S. cbn in S.
      rewrite app_nil_r in S. exact S.
  - unfold bind, emit, fail. intros [= <- <-] I.
    split; [|reflexivity].
    apply (sampling_inv_after store random bound s); [|exact I].
    constructor; cbn; try reflexivity.
    rewrite <- app_assoc, add_samples_app. cbn. apply app_nil_r.
Qed.

Lemma sample_purged_loop_keeps del purged logicNum physicNum bound n :
  forall l p np sm s o s',
  sample_purged_loop store random del purged logicNum physicNum bound
    n l p np sm s = (o, s') ->
  sampling_inv store random bound s ->
  sampling_inv store random bound s' /\ walk2 s' = walk2 s.
Proof.
  induction n as [|n IH]; intros l p np sm s o s'.
  - intros [= <- <-]. now split.
  - cbn [sample_purged_loop]. unfold bind at 1.
    destruct (sample_purged_body _ _ _ _ _ _ _ _ _ _ _ _)
      as [[[[p1 np1] sm1]|f] s1] eqn:E1; intros E I;
      apply sample_purged_body_keeps in E1 as [I1 B1]; try assumption.
    + apply IH in E as [I2 B2]; [|exact I1]. split; congruence.
    + injection E as <- <-. now split.
Qed.

Lemma sample_loop_keeps isDel bound fuel : forall recId sm s o s',
  sample_loop store isDel random fuel bound recId sm s = (o, s') ->
  sampling_inv store random bound s -> forallb quiet (trace s) = true ->
  sampling_inv store random bound s' /\ walk2 s' = walk2 s /\
  forallb quiet (trace s') = true.
Proof.
  assert (Hstep : forall fuel,
    (forall recId sm s o s',
       sample_loop store isDel random fuel bound recId sm s = (o, s') ->
       sampling_inv store random bound s -> forallb quiet (trace s) = true ->
       sampling_inv store random bound s' /\ walk2 s' = walk2 s /\
       forallb quiet (trace s') = true) ->
    forall sm s o s' r,
      records store !! cursor s = Some r ->
      (let* sampled :=
         (if null_or_not_deleted isDel (Z.of_nat (cursor s))
          then maybe_sample random bound sm else ret sm) in
       note_visit1 {| v_logic := Z.of_nat (cursor s);
                      v_physic := Z.of_nat (cursor s);
                      v_live := null_or_not_deleted isDel
                                  (Z.of_nat (cursor s)) |};;
       sample_loop store isDel random fuel bound (Z.of_nat (cursor s))
         sampled)
        {| cursor := S (cursor s); rec := r; draws := draws s;
           owns_lock := owns_lock s;
           trace := trace s ++ [EvIncrement (Some (Z.of_nat (cursor s)))];
           walk1 := walk1 s; walk2 := walk2 s |} = (o, s') ->
      sampling_inv store random bound s -> forallb quiet (trace s) = true ->
      sampling_inv store random bound s' /\ walk2 s' = walk2 s /\
      forallb quiet (trace s') = true).
  { clear fuel. intros fuel IH sm s o s' r Hr.
    set (c := Z.of_nat (cursor s)).
    assert (Hrec : record_of store c = r).
    { apply record_of_Some. unfold c. now rewrite lookup_record_nat. }
    destruct (null_or_not_deleted isDel c) eqn:Hlive.
    - unfold bind at 1.
      destruct (maybe_sample _ _ _ _) as [o1 s1] eqn:E1.
      pose proof (maybe_sample_spec _ _ _ _ _ _ E1)
        as (_ & _ & sm' & evs & -> & _ & _).
      apply maybe_sample_effect in E1 as (A & B & D & S & Qt).
      cbn [walk1 walk2 draws rec trace] in A, B, D, S, Qt.
      unfold bind at 1, note_visit1 at 1. intros E I Hq.
      apply IH in E as (I2 & B2 & Q2).
      + cbn [walk2] in B2. split_and!; congruence.
      + eapply (sampling_inv_live store random bound s _
                  {| v_logic := c; v_physic := c; v_live := true |} r);
          [reflexivity|exact Hrec| | | |exact I];
          cbn [walk1 draws trace].
        * now rewrite A.
        * exact D.
        * rewrite add_samples_app in S. cbn in S.
          rewrite app_nil_r in S. exact S.
      + cbn [trace]. apply Qt. now rewrite forallb_app, Hq.
    - unfold bind at 1, ret at 1. unfold bind at 1, note_visit1 at 1.
      intros E I Hq. apply IH in E as (I2 & B2 & Q2).
      + cbn [walk2] in B2. now split_and!.
      + eapply (sampling_inv_dead store random bound s _
                  {| v_logic := c; v_physic := c; v_live := false |});
          [reflexivity| | | |exact I]; cbn [walk1 draws trace];
          try reflexivity.
        rewrite add_samples_app. cbn. apply app_nil_r.
      + cbn [trace]. now rewrite forallb_app, Hq. }
  induction fuel as [|fuel IH]; intros recId sm s o s';
    cbn [sample_loop]; unfold bind at 1, iter_increment at 1;
    destruct (records store !! cursor s) as [r|] eqn:Hr.
  - unfold fail. intros [= <- <-] I Hq. cbn.
    split_and!; try reflexivity.
    + apply (sampling_inv_after store random bound s); [|exact I].
      constructor; cbn; try reflexivity.
      rewrite add_samples_app. cbn. apply app_nil_r.
    + now rewrite forallb_app, Hq.
  - unfold ret. intros [= <- <-] I Hq. cbn.
    split_and!; try reflexivity.
    + apply (sampling_inv_after store random bound s); [|exact I].
      constructor; cbn; try reflexivity.
      rewrite add_samples_app. cbn. apply app_nil_r.
    + now rewrite forallb_app, Hq.
  - intros E. eapply (Hstep fuel IH); eassumption.
  - unfold ret. intros [= <- <-] I Hq. cbn.
    split_and!; try reflexivity.
    + apply (sampling_inv_after store random bound s); [|exact I].
      constructor; cbn; try reflexivity.
      rewrite add_samples_app. cbn. apply app_nil_r.
    + now rewrite forallb_app, Hq.
Qed.
End SamplingKeeps.

Section RecordingKeeps.
Variable store : ReadableStore.

Lemma recording_inv_snoc s s' v :
  walk2 s' = walk2 s ++ [v] -> has_record store v ->
  recording_inv store s -> recording_inv store s'.
Proof.
  unfold recording_inv. intros -> Hv H.
  apply Forall_app. split; [exact H|now constructor].
Qed.

Lemma record_purged_body_keeps del purged logicNum physicNum l p s o s' :
  record_purged_body store del purged logicNum physicNum l p s = (o, s') ->
  after_sampling s s' /\
  (recording_inv store s -> recording_inv store s').
Proof.
  unfold record_purged_body.
  destruct (terark_bit_test purged l); cbn [negb].
  { intros [= <- <-]. split; [apply after_sampling_refl|auto]. }
  unfold bind at 1, iter_increment at 1.
  destruct (records store !! cursor s) as [r|] eqn:Hr.
  - destruct (negb true || negb (p =? Z.of_nat (cursor s))).
    + unfold bind, emit, fail. intros [= <- <-].
      split; [|auto].
      constructor; cbn; try reflexivity.
      rewrite <- app_assoc, add_samples_app. cbn. apply app_nil_r.
    + assert (Hv : forall live,
        has_record store {| v_logic := l;
                            v_physic := Z.of_nat (cursor s);
                            v_live := live |}).
      { intros live. unfold has_record. cbn.
        rewrite lookup_record_nat, Hr. eauto. }
      destruct (terark_bit_test del l); cbn [negb];
        unfold bind, get_rec, emit, note_visit2, ret;
        intros [= <- <-]; cbn [rec].
      * split.
        -- constructor; cbn; try reflexivity.
           rewrite add_samples_app. cbn. apply app_nil_r.
        -- intros H.
           eapply (recording_inv_snoc s); [reflexivity|apply Hv|exact H].
      * split.
        -- constructor; cbn; try reflexivity.
           rewrite <- app_assoc, add_samples_app. cbn. apply app_nil_r.
        -- intros H.
           eapply (recording_inv_snoc s); [reflexivity|apply Hv|exact H].
  - cbn [negb orb]. unfold bind, emit, fail. intros [= <- <-].
    split; [|auto].
    constructor; cbn; try reflexivity.
    rewrite <- app_assoc, add_samples_app. cbn. apply app_nil_r.
Qed.

Lemma record_purged_loop_keeps del purged logicNum physicNum n :
  forall l p s o s',
  record_purged_loop store del purged logicNum physicNum n l p s
    = (o, s') ->
  after_sampling s s' /\
  (recording_inv store s -> recording_inv store s').
Proof.
  induction n as [|n IH]; intros l p s o s'.
  - intros [= <- <-]. split; [apply after_sampling_refl|auto].
  - cbn [record_purged_loop]. unfold bind at 1.
    destruct (record_purged_body _ _ _ _ _ _ _ _) as [[p1|f] s1] eqn:E1;
      intros E; apply record_purged_body_keeps in E1 as [A1 R1].
    + apply IH in E as [A2 R2].
      split; [eapply after_sampling_trans; eassumption|auto].
    + injection E as <- <-. now split.
Qed.

Lemma record_loop_keeps isDel fuel : forall recId s o s',
  record_loop store isDel fuel recId s = (o, s') ->
  after_sampling s s' /\
  (recording_inv store s -> recording_inv store s') /\
  (forallb quiet (trace s) = true -> forallb quiet (trace s') = true).
Proof.
  assert (Hend : forall s e, quiet e = true ->
    add_samples [e] = [] ->
    after_sampling s
      {| cursor := cursor s; rec := rec s; draws := draws s;
         owns_lock := owns_lock s; trace := trace s ++ [e];
         walk1 := walk1 s; walk2 := walk2 s |} /\
    (recording_inv store s ->
     recording_inv store
       {| cursor := cursor s; rec := rec s; draws := draws s;
          owns_lock := owns_lock s; trace := trace s ++ [e];
          walk1 := walk1 s; walk2 := walk2 s |}) /\
    (forallb quiet (trace s) = true ->
     forallb quiet (trace s ++ [e]) = true)).
  { intros s e He Hs. split_and!.
    - constructor; cbn; try reflexivity.
      rewrite add_samples_app, Hs. apply app_nil_r.
    - auto.
    - intros H. rewrite forallb_app, H. cbn. now rewrite He. }
  induction fuel as [|fuel IH]; intros recId s o s';
    cbn [record_loop]; unfold bind at 1, iter_increment at 1;
    destruct (records store !! cursor s) as [r|] eqn:Hr.
  - unfold fail. intros [= <- <-]. cbn.
    split_and!; auto.
    + constructor; cbn; try reflexivity.
      rewrite add_samples_app. cbn. apply app_nil_r.
    + intros H. now rewrite forallb_app, H.
  - unfold ret. intros [= <- <-]. now apply Hend.
  - assert (Hv : forall live,
      has_record store {| v_logic := Z.of_nat (cursor s);
                          v_physic := Z.of_nat (cursor s);
                          v_live := live |}).
    { intros live. unfold has_record. cbn.
      rewrite lookup_record_nat, Hr. eauto. }
    destruct (null_or_not_deleted isDel (Z.of_nat (cursor s)));
      unfold bind, get_rec, emit, ret, note_visit2; cbn [rec];
      intros E; apply IH in E as (A & R & Qt);
      cbn [trace walk2] in A, R, Qt.
    + split_and!.
      * destruct A as [A1 A2 A3]. cbn in A1, A2, A3.
        constructor; try assumption. rewrite A3.
        rewrite !add_samples_app. cbn. now rewrite !app_nil_r.
      * intros H. apply R.
        eapply (recording_inv_snoc s); [reflexivity|apply Hv|exact H].
      * intros H. apply Qt. rewrite !forallb_app, H. reflexivity.
    + split_and!.
      * destruct A as [A1 A2 A3]. cbn in A1, A2, A3.
        constructor; try assumption. rewrite A3.
        rewrite !add_samples_app. cbn. now rewrite !app_nil_r.
      * intros H. apply R.
        eapply (recording_inv_snoc s); [reflexivity|apply Hv|exact H].
      * intros H. apply Qt. rewrite !forallb_app, H. reflexivity.
  - unfold ret. intros [= <- <-]. now apply Hend.
Qed.
End RecordingKeeps.

(** ** The calls around the passes *)

Section Keeps.
Variables (store : ReadableStore) (P : event -> bool).

Lemma keeps_ret {A} (a : A) : keeps store P (ret a).
Proof.
  intros s o s' [= <- <-]. split; [apply after_sampling_refl|auto].
Qed.

Lemma keeps_bind {A B} (m : M A) (k : A -> M B) :
  keeps store P m -> (forall a, keeps store P (k a)) ->
  keeps store P (bind m k).
Proof.
  intros Hm Hk s o s'. unfold bind.
  destruct (m s) as [[a|f] s1] eqn:E1; intros E;
    apply Hm in E1 as (A1 & R1 & Q1).
  - apply Hk in E as (A2 & R2 & Q2).
    split; [eapply after_sampling_trans; eassumption|auto].
  - injection E as <- <-. auto.
Qed.

Lemma keeps_emit e :
  add_samples [e] = [] -> P e = true -> keeps store P (emit e).
Proof.
  intros He HP s o s' [= <- <-]. split_and!.
  - constructor; cbn; try reflexivity.
    rewrite add_samples_app, He. apply app_nil_r.
  - auto.
  - cbn. intros H. rewrite forallb_app, H. cbn. now rewrite HP.
Qed.

Lemma keeps_get_rec : keeps store P get_rec.
Proof.
  intros s o s' [= <- <-]. split; [apply after_sampling_refl|auto].
Qed.

Lemma keeps_lock_lock : P EvLock = true -> keeps store P lock_lock.
Proof.
  intros HP s o s' [= <- <-]. split_and!.
  - constructor; cbn; try reflexivity.
    rewrite add_samples_app. apply app_nil_r.
  - auto.
  - cbn. intros H. rewrite forallb_app, H. cbn. now rewrite HP.
Qed.

Lemma keeps_lock_unlock : P EvUnlock = true -> keeps store P lock_unlock.
Proof.
  intros HP s o s' [= <- <-]. split_and!.
  - constructor; cbn; try reflexivity.
    rewrite add_samples_app. apply app_nil_r.
  - auto.
  - cbn. intros H. rewrite forallb_app, H. cbn. now rewrite HP.
Qed.

Lemma keeps_iter_reset : P EvReset = true -> keeps store P iter_reset.
Proof.
  intros HP s o s' [= <- <-]. split_and!.
  - constructor; cbn; try reflexivity.
    rewrite add_samples_app. apply app_nil_r.
  - auto.
  - cbn. intros H. rewrite forallb_app, H. cbn. now rewrite HP.
Qed.
End Keeps.

Lemma forallb_any_event evs : forallb any_event evs = true.
Proof. induction evs; [reflexivity|assumption]. Qed.

Lemma keeps_check_count store logicNum physicNum p :
  keeps store any_event (check_count logicNum physicNum p).
Proof.
  unfold check_count. destruct (negb _).
  - now apply keeps_emit.
  - apply keeps_ret.
Qed.

Lemma keeps_record_purged_loop store del purged logicNum physicNum n l p :
  keeps store any_event
    (record_purged_loop store del purged logicNum physicNum n l p).
Proof.
  intros s o s' E. apply record_purged_loop_keeps in E as [A R].
  split_and!; auto. intros _. apply forallb_any_event.
Qed.

Lemma keeps_record_loop store isDel fuel recId :
  keeps store quiet (record_loop store isDel fuel recId).
Proof. intros s o s' E. now apply record_loop_keeps in E. Qed.

Lemma build_facts_after store random bound left s s' :
  after_sampling s s' -> recording_inv store s' ->
  build_facts store random bound left s ->
  build_facts store random bound left s'.
Proof.
  intros [A D S] R [_ F2 F3].
  constructor; cbv zeta; rewrite ?A, ?D, ?S; assumption.
Qed.

Lemma add_samples_count evs :
  Forall (fun r => empty r = false) (add_samples evs) ->
  length (add_samples evs) = length (List.filter is_sample evs).
Proof.
  induction evs as [|e evs IH]; [reflexivity|].
  change (e :: evs) with ([e] ++ evs).
  rewrite add_samples_app, List.filter_app, !length_app.
  intros [H1 H2]%Forall_app. rewrite IH by assumption. f_equal.
  destruct e; try reflexivity. cbn in *.
  apply Forall_inv in H1. now rewrite H1.
Qed.

(** [emptyCheckProtect] at the end of the sampling pass: either the pass
    took samples and nothing is added, or it took none and the trace gets
    its one sample, which is not empty. *)
Lemma emptyCheckProtect_facts store random bound sm r s :
  sampling_inv store random bound s ->
  sm = Z.of_nat (length (List.filter is_sample (trace s))) ->
  walk2 s = [] ->
  exists s', emptyCheckProtect sm r s = (Ret tt, s') /\
    build_facts store random bound r s' /\ walk2 s' = [] /\
    trace s' = trace s ++ protect_events sm r.
Proof.
  intros [I1 I2] Hsm Hw.
  rewrite <- add_samples_count in Hsm
    by (rewrite I1; apply sampled_from_nonempty).
  unfold emptyCheckProtect, protect_events, fallback_sample.
  destruct (Z.eqb_spec 0 sm) as [H0|H0].
  - assert (Hnil : add_samples (trace s) = []).
    { destruct (add_samples (trace s)); [reflexivity|cbn in Hsm; lia]. }
    destruct (empty r) eqn:He; eexists; (split; [reflexivity|]);
      (split_and!; [|exact Hw|reflexivity]);
      (constructor; cbv zeta; cbn [trace walk1 walk2 draws];
       rewrite ?add_samples_app, ?Hnil, <- ?I1; cbn;
       [unfold recording_inv; rewrite Hw; constructor
       |exact I2
       |right; split; [exact Hnil|now rewrite He]]).
  - eexists. split; [reflexivity|].
    split_and!; [|exact Hw|now rewrite app_nil_r].
    constructor; try assumption; [|now left].
    unfold recording_inv. rewrite Hw. constructor.
Qed.

(** ** What holds when a build ends *)

Lemma sampling_inv_initial store random bound :
  sampling_inv store random bound initial.
Proof. now constructor. Qed.

Lemma build_facts_of_sampling store random bound left s :
  sampling_inv store random bound s -> walk2 s = [] ->
  build_facts store random bound left s.
Proof.
  intros [I1 I2] Hw. constructor; try assumption; [|now left].
  unfold recording_inv. rewrite Hw. constructor.
Qed.

Lemma build_without_purge_facts fpath store isDel random recId0 bound o s :
  build_without_purge fpath store isDel random recId0 bound initial
    = (o, s) ->
  build_facts store random bound (List.last (records store) []) s /\
  forallb quiet (trace s) = true.
Proof.
  unfold build_without_purge. unfold bind at 1.
  destruct (sample_loop _ _ _ _ _ _ _ _) as [o1 s1] eqn:E1.
  pose proof (sample_loop_keeps _ _ _ _ _ _ _ _ _ _ E1
                (sampling_inv_initial store random bound) eq_refl)
    as (I1 & B1 & Q1).
  apply sample_loop_spec in E1; [|reflexivity].
  destruct E1 as (sm & T1 & -> & [L1 Tr1 A1 _] & (_ & _ & Hsm) & _ & R1).
  cbn in Tr1, B1, R1. rewrite Z.add_0_l, <- Tr1 in Hsm.
  unfold bind at 1, get_rec at 1. unfold bind at 1.
  destruct (emptyCheckProtect_facts store random bound sm (rec s1) s1 I1
              Hsm B1) as (s2 & -> & F2 & W2 & Tr2).
  rewrite R1 in F2.
  intros E.
  assert (K : keeps store quiet
    (lock_lock;;
     emit (EvPrepare
             (match length (records store) with
              | O => recId0
              | S _ => Z.of_nat (length (records store)) - 1
              end + 1) fpath);;
     iter_reset;;
     (let* _ := record_loop store isDel (length (records store))
                  (match length (records store) with
                   | O => recId0
                   | S _ => Z.of_nat (length (records store)) - 1
                   end) in
      ret tt))).
  { apply keeps_bind; [now apply keeps_lock_lock|intros _].
    apply keeps_bind; [now apply keeps_emit|intros _].
    apply keeps_bind; [now apply keeps_iter_reset|intros _].
    apply keeps_bind; [apply keeps_record_loop|intros _].
    apply keeps_ret. }
  apply K in E as (A & R & Qt).
  split.
  - apply (build_facts_after store random bound _ s2);
      [exact A| |exact F2].
    apply R, F2.
  - apply Qt. rewrite Tr2, forallb_app, Q1.
    unfold protect_events. now destruct (0 =? sm).
Qed.

Lemma build_purged_facts fpath store random del purged logicNum physicNum
    bound o s :
  build_purged fpath store random del purged logicNum physicNum bound
    initial = (o, s) ->
  build_facts store random bound
    (last_fetched store []
       (Reconciler_walk del purged (Z.to_nat logicNum) 0 0)) s.
Proof.
  unfold build_purged. unfold bind at 1.
  destruct (sample_purged_loop _ _ _ _ _ _ _ _ _ _ _ _ _)
    as [o1 s1] eqn:E1.
  pose proof (sample_purged_loop_keeps _ _ _ _ _ _ _ _ _ _ _ _ _ _ _ E1
                (sampling_inv_initial store random bound)) as (I1 & B1).
  cbn in B1.
  apply sample_purged_loop_spec in E1.
  destruct o1 as [[[p1 np1] sm]|f].
  - destruct E1 as (_ & T1 & w1 & [L1 Tr1 A1 _] & _ & _ & _ & _
                    & (_ & _ & Hsm) & R1 & _).
    cbn in Tr1, R1. rewrite Z.add_0_l, <- Tr1 in Hsm.
    unfold bind at 1.
    destruct (check_count_spec logicNum physicNum p1 s1)
      as (s2 & E2 & [L2 Tr2 A2 B2] & _ & R2).
    rewrite E2.
    pose proof (keeps_check_count store logicNum physicNum p1 _ _ _ E2)
      as (AS2 & _ & _).
    assert (I2 : sampling_inv store random bound s2)
      by now apply (sampling_inv_after store random bound s1).
    assert (Hsm2 : sm = Z.of_nat (length (List.filter is_sample (trace s2)))).
    { rewrite Tr2, List.filter_app, count_report_no_sample, app_nil_r.
      exact Hsm. }
    assert (W2 : walk2 s2 = []) by now rewrite B2, app_nil_r.
    unfold bind at 1, get_rec at 1. unfold bind at 1.
    destruct (emptyCheckProtect_facts store random bound sm (rec s2) s2 I2
                Hsm2 W2) as (s3 & -> & F3 & W3 & Tr3).
    rewrite R2, R1 in F3.
    intros E.
    assert (K : keeps store any_event
      (lock_lock;;
       emit (EvPrepare np1 fpath);;
       iter_reset;;
       (let* physicId :=
          record_purged_loop store del purged logicNum physicNum
            (Z.to_nat logicNum) 0 0 in
        check_count logicNum physicNum physicId))).
    { apply keeps_bind; [now apply keeps_lock_lock|intros _].
      apply keeps_bind; [now apply keeps_emit|intros _].
      apply keeps_bind; [now apply keeps_iter_reset|intros _].
      apply keeps_bind; [apply keeps_record_purged_loop|intros q].
      apply keeps_check_count. }
    apply K in E as (A & R & _).
    apply (build_facts_after store random bound _ s3);
      [exact A| |exact F3].
    apply R, F3.
  - intros [= <- <-]. now apply build_facts_of_sampling.
Qed.

Lemma build_facts_initial store random bound left :
  build_facts store random bound left initial.
Proof.
  apply build_facts_of_sampling; [apply sampling_inv_initial|reflexivity].
Qed.

(** [build_from_store] runs the passes with the threshold of lines
    165-166, and then ends the build. *)
Lemma build_from_store_passes schema fpath store isDel isPurged random
    recId0 :
  build_from_store schema fpath store isDel isPurged random recId0
  = (build_passes fpath store isDel isPurged random recId0
       (sampleUpperBound
          (effective_sample_ratio (m_dictZipSampleRatio schema)
             (dataInflateSize store)));;
     emit EvCompleteBuild;; emit EvDestroyBuilder;; lock_unlock).
Proof. reflexivity. Qed.

(** What holds of the state the passes end in, for every threshold. *)
Lemma build_passes_facts fpath store isDel isPurged random recId0
    threshold o s :
  build_passes fpath store isDel isPurged random recId0 threshold initial
    = (o, s) ->
  build_facts store random threshold
    (last_record_encountered store isDel isPurged) s.
Proof.
  unfold build_passes, last_record_encountered, no_purge.
  assert (HB : forall purged,
    build_with_purge fpath store isDel random threshold purged initial
      = (o, s) ->
    build_facts store random threshold
      (match isDel with
       | Some del =>
           last_fetched store []
             (Reconciler_walk del (bldata purged) (fv_size purged) 0 0)
       | None => []
       end) s).
  { intros purged. unfold build_with_purge. destruct isDel as [del|].
    - intros E. apply build_purged_facts in E.
      now rewrite Nat2Z.id in E.
    - intros [= <- <-]. apply build_facts_initial. }
  destruct isPurged as [purged|].
  - destruct (fv_size purged =? 0)%nat.
    + intros E. now apply build_without_purge_facts in E.
    + apply HB.
  - intros E. now apply build_without_purge_facts in E.
Qed.

(** What holds of the state every call ends in, whatever the outcome. *)
Lemma build_by_iter_facts schema fpath store isDel isPurged random recId0 :
  let r := build_by_iter schema fpath (Some store) isDel isPurged random
             recId0 in
  build_facts store random
    (sampleUpperBound
       (effective_sample_ratio (m_dictZipSampleRatio schema)
          (dataInflateSize store)))
    (last_record_encountered store isDel isPurged) r.2 /\
  (no_purge isPurged = true -> forallb quiet (trace r.2) = true).
Proof.
  cbv zeta. unfold build_by_iter.
  destruct (Qlt_le_dec (m_dictZipSampleRatio schema) 0) as [Hneg|Hpos].
  { split; [apply build_facts_initial|reflexivity]. }
  unfold build_from_store. set (bound := sampleUpperBound _).
  assert (Kq : keeps store quiet
            (emit EvCompleteBuild;; emit EvDestroyBuilder;; lock_unlock)).
  { apply keeps_bind; [now apply keeps_emit|intros _].
    apply keeps_bind; [now apply keeps_emit|intros _].
    now apply keeps_lock_unlock. }
  assert (Ka : keeps store any_event
            (emit EvCompleteBuild;; emit EvDestroyBuilder;; lock_unlock)).
  { apply keeps_bind; [now apply keeps_emit|intros _].
    apply keeps_bind; [now apply keeps_emit|intros _].
    now apply keeps_lock_unlock. }
  assert (HA : forall o s,
    (let* _ := build_without_purge fpath store isDel random recId0 bound in
     emit EvCompleteBuild;; emit EvDestroyBuilder;; lock_unlock) initial
      = (o, s) ->
    build_facts store random bound (List.last (records store) []) s /\
    forallb quiet (trace s) = true).
  { intros o s. unfold bind at 1.
    destruct (build_without_purge _ _ _ _ _ _ _) as [[[]|f] s1] eqn:E1;
      apply build_without_purge_facts in E1 as [F1 Q1].
    - intros E2. apply Kq in E2 as (A & R & Qt). split; [|auto].
      apply (build_facts_after store random bound _ s1);
        [exact A| |exact F1].
      apply R, F1.
    - intros [= <- <-]. now split. }
  assert (HB : forall purged o s,
    (let* _ := build_with_purge fpath store isDel random bound purged in
     emit EvCompleteBuild;; emit EvDestroyBuilder;; lock_unlock) initial
      = (o, s) ->
    build_facts store random bound
      (match isDel with
       | Some del =>
           last_fetched store []
             (Reconciler_walk del (bldata purged) (fv_size purged) 0 0)
       | None => []
       end) s).
  { intros purged o s. unfold bind at 1, build_with_purge.
    destruct isDel as [del|].
    2:{ intros [= <- <-]. apply build_facts_initial. }
    destruct (build_purged _ _ _ _ _ _ _ _ _) as [[[]|f] s1] eqn:E1;
      apply build_purged_facts in E1; rewrite Nat2Z.id in E1.
    - intros E2. apply Ka in E2 as (A & R & _).
      apply (build_facts_after store random bound _ s1);
        [exact A| |exact E1].
      apply R, E1.
    - intros [= <- <-]. exact E1. }
  unfold last_record_encountered.
  destruct isPurged as [purged|]; cbn [no_purge].
  - destruct (fv_size purged =? 0)%nat.
    + match goal with
      | |- build_facts _ _ _ _ (snd ?r) /\ _ =>
          destruct (HA _ _ (surjective_pairing r)) as [F Q]
      end.
      now split.
    + split; [|discriminate].
      match goal with
      | |- build_facts _ _ _ _ (snd ?r) =>
          exact (HB _ _ _ (surjective_pairing r))
      end.
  - match goal with
    | |- build_facts _ _ _ _ (snd ?r) /\ _ =>
        destruct (HA _ _ (surjective_pairing r)) as [F Q]
    end.
    now split.
Qed.

(** ** Consequences for the whole call *)

(** What the anatomy of a call says about the records handed over and
    about the live ids of the two histories. *)
Lemma anatomy_live_ids schema fpath store isDel isPurged recId0 o s :
  anatomy schema fpath (Some store) isDel isPurged recId0 o s ->
  add_records (trace s) = map (record_of store) (live_ids (walk2 s)) /\
  sublist (live_ids (walk1 s)) (expected_live_ids store isDel isPurged) /\
  (existsb is_prepare (trace s) = true ->
   live_ids (walk1 s) = expected_live_ids store isDel isPurged /\
   live_ids (walk2 s) = live_ids (walk1 s)).
Proof.
  intros E. unfold expected_live_ids.
  destruct E as
    [ Hrej
    | Hno Hdel
    | st s T1 sm T2 Hst Hno Hl Hw1 Hw2 Hok HT2 HAR Htr
    | st pu de s evs0 l p post Hst Hpu Hde Hno Hl Hw2 Htr Hsam Hmiss HK0 HW
        Hlk
    | st pu de s T1 sm T2 v post Hst Hpu Hde Hno W N M Hl Hw1 Hin HW Hlk
        Hok HK HT2 HAR Htr
    | st pu de s T1 sm T2 Hst Hpu Hde Hno W N M Hl Hw1 Hin Hw2 Hok HK HT2
        HAR Htr ].
  - split_and!; [reflexivity|apply sublist_nil_l|discriminate].
  - split_and!; [reflexivity|apply sublist_nil_l|discriminate].
  - injection Hst as <-. rewrite Hno, Hw1, Hw2.
    assert (E : live_ids (identity_walk isDel 0 (length (records store)))
                = List.filter (null_or_not_deleted isDel)
                    (seqZ 0 (numDataRows store))).
    { unfold identity_walk, numDataRows. apply live_ids_identity. }
    split_and!.
    + rewrite Htr, !add_records_app,
        (sampling_add_records _ (sample_events_sampling _ _ _ Hok)),
        protect_events_add_records, HAR, Hw2.
      cbn. now rewrite app_nil_r.
    + now rewrite E.
    + now intros _.
  - subst isPurged isDel. rewrite Hno, Hw2.
    split_and!.
    + rewrite Htr, add_records_app, (sampling_add_records _ Hsam).
      reflexivity.
    + rewrite HW, live_ids_app. now apply sublist_inserts_r.
    + intros Hprep.
      rewrite Htr, existsb_app, (sampling_not_prepare _ Hsam) in Hprep.
      discriminate Hprep.
  - injection Hst as <-. subst isPurged isDel. rewrite Hno, Hw1.
    assert (Hlive : live_ids W = live_ids (walk2 s)).
    { rewrite HW at 1. rewrite live_ids_app.
      rewrite (live_ids_outside store (v :: post)), app_nil_r;
        [reflexivity| |].
      - rewrite HW in Hin. now apply Forall_app in Hin as [_ Hin].
      - eapply Reconciler_walk_tail_outside; [|exact HW|exact Hlk]. lia. }
    split_and!; [|reflexivity|now intros _].
    rewrite Htr, !add_records_app,
      (sampling_add_records _ (sample_events_sampling _ _ _ Hok)),
      count_report_add_records, protect_events_add_records, HAR.
    cbn. now rewrite app_nil_r.
  - injection Hst as <-. subst isPurged isDel. rewrite Hno, Hw1, Hw2.
    split_and!; [|reflexivity|now intros _].
    rewrite Htr, !add_records_app,
      (sampling_add_records _ (sample_events_sampling _ _ _ Hok)),
      !count_report_add_records, protect_events_add_records, HAR.
    cbn. now rewrite app_nil_r.
Qed.

(** *** Arguments that are not valid *)

(** X4.  The call throws [std::invalid_argument] exactly when the requested
    ratio is negative or the iterator has no store.  When it throws, the
    lock was not taken, the generator was not called, and of the calls
    that the trace records none was made on the iterator or on the
    trainer: at most the builder, created before the store is asked for,
    has been destroyed. *)
Theorem invalid_arguments_are_rejected_before_the_passes schema fpath
    getStore isDel isPurged random recId0 :
  let r := build_by_iter schema fpath getStore isDel isPurged random
             recId0 in
  (r.1 = Fail InvalidArgument <->
   (m_dictZipSampleRatio schema < 0)%Q \/ getStore = None) /\
  (r.1 = Fail InvalidArgument ->
   owns_lock r.2 = false /\ draws r.2 = 0%nat /\
   forallb unwinding_event (trace r.2) = true).
Proof.
  cbv zeta.
  destruct (build_by_iter _ _ _ _ _ _ _) as [o s] eqn:E. cbn [fst snd].
  pose proof (build_by_iter_anatomy _ _ _ _ _ _ _ _ _ E) as An.
  unfold build_by_iter in E.
  destruct (Qlt_le_dec (m_dictZipSampleRatio schema) 0) as [Hneg|Hpos].
  { injection E as <- <-. split; [|now intros _]. split; auto. }
  destruct getStore as [store|].
  2:{ injection E as <- <-. split; [|now intros _]. split; auto. }
  clear E. split.
  - destruct An as [[H|H]| | | | | ];
      try lra; try discriminate H;
      (split; [discriminate|intros [K|K]; [lra|discriminate K]]).
  - destruct An as [[H|H]| | | | | ];
      try lra; try discriminate H; discriminate.
Qed.

(** *** Without a purge bitmap *)

(** X5.  Without a purge bitmap (none, or one of length 0) a call with valid
    arguments always returns: it never aborts, writes no diagnostic, makes
    no random-access lookup, and does not own the lock when it is done. *)
Theorem build_without_purge_always_returns schema fpath store isDel
    isPurged random recId0 :
  no_purge isPurged = true ->
  (0 <= m_dictZipSampleRatio schema)%Q ->
  let r := build_by_iter schema fpath (Some store) isDel isPurged random
             recId0 in
  r.1 = Ret tt /\ owns_lock r.2 = false /\
  forallb quiet (trace r.2) = true.
Proof.
  intros Hno Hr. cbv zeta.
  destruct (build_by_iter_facts schema fpath store isDel isPurged random
              recId0) as [_ Hq].
  destruct (build_by_iter _ _ _ _ _ _ _) as [o s] eqn:E. cbn [fst snd] in *.
  apply build_by_iter_anatomy in E.
  destruct E as [[H|H]|H| | | | ];
    try lra; try discriminate H; try congruence.
  split_and!; auto.
Qed.

Lemma build_without_purge_always_returns_witness :
  let r := build_by_iter Samples.schema0 "out" (Some Samples.ten_records)
             (Some (Samples.bits 36)) (Some (Samples.bitvec 0 0))
             Samples.always 0 in
  r.1 = Ret tt /\ owns_lock r.2 = false /\
  forallb quiet (trace r.2) = true.
Proof.
  apply (build_without_purge_always_returns Samples.schema0 "out"
           Samples.ten_records (Some (Samples.bits 36))
           (Some (Samples.bitvec 0 0)) Samples.always 0).
  - reflexivity.
  - discriminate.
Defined.

(** *** With a purge bitmap *)

Lemma lookup_record_Some store p :
  is_Some (lookup_record store p) ->
  0 <= p < Z.of_nat (length (records store)).
Proof.
  unfold lookup_record. destruct (Z.ltb_spec p 0).
  - intros [x Hx]. discriminate Hx.
  - intros H1%lookup_lt_is_Some_1. lia.
Qed.

(** A walk all of whose entries the store has is not longer than the
    store. *)
Lemma walk_within_store store del purged n :
  Forall (has_record store) (Reconciler_walk del purged n 0 0) ->
  (length (Reconciler_walk del purged n 0 0) <= length (records store))%nat.
Proof.
  set (W := Reconciler_walk del purged n 0 0). intros HF.
  destruct (length W) as [|k] eqn:Hk; [lia|].
  destruct (lookup_lt_is_Some_2 W k) as [v Hv]; [lia|].
  pose proof (Reconciler_walk_lookup _ _ _ _ _ _ _ Hv) as Pv.
  rewrite Forall_lookup in HF. apply HF in Hv.
  apply lookup_record_Some in Hv. lia.
Qed.

(** X6.  With a purge bitmap and a deletion bitmap, a call with valid
    arguments returns exactly when the logical ids that the purge bitmap
    does not mark are at most as many as the records of the store; otherwise
    it ends in [abort]. *)
Theorem build_with_purge_returns_iff schema fpath store del purged random
    recId0 :
  fv_size purged <> 0%nat ->
  (0 <= m_dictZipSampleRatio schema)%Q ->
  let r := build_by_iter schema fpath (Some store) (Some del) (Some purged)
             random recId0 in
  (r.1 = Ret tt <->
   (length (kept_ids (bldata purged) (Z.of_nat (fv_size purged)))
    <= length (records store))%nat) /\
  (r.1 = Ret tt \/ r.1 = Fail Abort).
Proof.
  intros Hsz Hr. cbv zeta.
  destruct (build_by_iter_facts schema fpath store (Some del) (Some purged)
              random recId0) as [[Hrec _ _] _].
  destruct (build_by_iter _ _ _ _ _ _ _) as [o s] eqn:E. cbn [fst snd] in *.
  apply build_by_iter_anatomy in E.
  rewrite <- (Reconciler_walk_kept del).
  destruct E as
    [ [H|H]
    | Hno Hdel
    | st s T1 sm T2 Hst Hno Hl Hw1 Hw2 Hok HT2 HAR Htr
    | st pu de s evs0 l p post Hst Hpu Hde Hno Hl Hw2 Htr Hsam Hmiss HK0 HW
        Hlk
    | st pu de s T1 sm T2 v post Hst Hpu Hde Hno W N M Hl Hw1 Hin HW Hlk
        Hok HK HT2 HAR Htr
    | st pu de s T1 sm T2 Hst Hpu Hde Hno W N M Hl Hw1 Hin Hw2 Hok HK HT2
        HAR Htr ].
  - lra.
  - discriminate H.
  - discriminate Hdel.
  - cbn in Hno. apply Nat.eqb_eq in Hno. contradiction.
  - injection Hst as <-. injection Hpu as <-. injection Hde as <-.
    split; [|now right]. split; [discriminate|]. intros Hle. exfalso.
    pose proof (walk_longer_than_store _ _ _ _ _ _ _ HW Hlk). lia.
  - injection Hst as <-. injection Hpu as <-. injection Hde as <-.
    split; [|now right]. split; [discriminate|]. intros Hle. exfalso.
    pose proof (walk_longer_than_store _ _ _ _ _ _ _ HW Hlk) as Hlt.
    unfold W in *. lia.
  - injection Hst as <-. injection Hpu as <-. injection Hde as <-.
    split; [|now left]. split; [intros _|reflexivity].
    apply walk_within_store. unfold recording_inv in Hrec.
    now rewrite Hw2 in Hrec.
Qed.

Lemma build_with_purge_returns_iff_witness :
  let r := build_by_iter Samples.schema0 "out" (Some Samples.seven_records)
             (Some (Samples.bits 8)) (Some (Samples.bitvec 10 146))
             Samples.never 0 in
  (r.1 = Ret tt <->
   (length (kept_ids (bldata (Samples.bitvec 10 146))
              (Z.of_nat (fv_size (Samples.bitvec 10 146))))
    <= length (records Samples.seven_records))%nat) /\
  (r.1 = Ret tt \/ r.1 = Fail Abort).
Proof.
  apply (build_with_purge_returns_iff Samples.schema0 "out"
           Samples.seven_records (Samples.bits 8) (Samples.bitvec 10 146)
           Samples.never 0).
  - discriminate.
  - discriminate.
Defined.

(** *** The samples *)

Lemma sublist_map {A B} (f : A -> B) l1 l2 :
  sublist l1 l2 -> sublist (map f l1) (map f l2).
Proof. induction 1; cbn; constructor; assumption. Qed.

Lemma sublist_List_filter {A} (f : A -> bool) l :
  sublist (List.filter f l) l.
Proof.
  induction l as [|x l IH]; cbn; [constructor|].
  destruct (f x); now constructor.
Qed.

Lemma add_samples_nil_no_sample evs :
  add_samples evs = [] -> List.filter is_sample evs = [].
Proof.
  induction evs as [|e evs IH]; [reflexivity|].
  change (e :: evs) with ([e] ++ evs).
  rewrite add_samples_app, List.filter_app.
  intros [H1 H2]%app_eq_nil. rewrite IH by assumption.
  destruct e; try reflexivity; discriminate H1.
Qed.

(** A trace in which [emptyCheckProtect] follows the sampling decisions
    has a sample. *)
Lemma protected_trace_has_sample T1 sm mid r rest :
  sample_events_ok 0 sm T1 ->
  add_samples (T1 ++ mid ++ protect_events sm r ++ rest) <> [].
Proof.
  intros (_ & _ & Hsm). rewrite !add_samples_app. intros H.
  apply app_eq_nil in H as [H1 H]. apply app_eq_nil in H as [_ H].
  apply app_eq_nil in H as [H2 _].
  apply add_samples_nil_no_sample in H1. rewrite H1 in Hsm.
  cbn in Hsm. subst sm. unfold protect_events in H2. discriminate H2.
Qed.

(** Passes that reach [prepare] have walked all the live ids and have
    handed over a sample. *)
Lemma build_passes_at_prepare fpath store isDel isPurged random recId0
    threshold o s :
  build_passes fpath store isDel isPurged random recId0 threshold initial
    = (o, s) ->
  existsb is_prepare (trace s) = true ->
  live_ids (walk1 s) = expected_live_ids store isDel isPurged /\
  add_samples (trace s) <> [].
Proof.
  unfold build_passes, expected_live_ids, no_purge.
  assert (HA : build_without_purge fpath store isDel random recId0
                 threshold initial = (o, s) ->
    live_ids (walk1 s)
    = List.filter (null_or_not_deleted isDel) (seqZ 0 (numDataRows store))
    /\ add_samples (trace s) <> []).
  { intros E. apply build_without_purge_spec in E.
    destruct E as (_ & _ & Hw1 & _ & T1 & sm & T2 & Hok & _ & _ & Htr).
    split.
    - rewrite Hw1. unfold identity_walk, numDataRows.
      apply live_ids_identity.
    - rewrite Htr. now apply (protected_trace_has_sample T1 sm []). }
  destruct isPurged as [purged|]; [|intros E _; now apply HA].
  destruct (fv_size purged =? 0)%nat; [intros E _; now apply HA|].
  unfold build_with_purge. destruct isDel as [del|].
  2:{ intros [= <- <-]. discriminate. }
  intros E Hprep. apply build_purged_spec in E. rewrite Nat2Z.id in E.
  destruct E as [(_ & _ & _ & evs0 & l & p & post & Htr & Hsam & _)
                |(Hw1 & _ & _ & T1 & sm & T2 & Hok & _ & _ & _ & Htr & _)].
  - rewrite Htr, existsb_app, (sampling_not_prepare _ Hsam) in Hprep.
    discriminate Hprep.
  - split; [now rewrite Hw1|].
    rewrite Htr. now apply protected_trace_has_sample.
Qed.

(** X7.  For every value of the threshold: when the sampling pass has
    completed, the samples are the records the draws selected; of the live
    records that are not empty, in the order of the source, the k-th is a
    sample exactly when the k-th value of the generator is below the
    threshold.  When the draws selected no record, there is one sample: the
    record the pass left in [rec] (the last record of the source without
    purge bitmap, deleted or not; the last live record with one), or
    "Hello World!" if that is empty. *)
Theorem samples_are_the_selected_records fpath store isDel isPurged random
    recId0 (threshold : Z) :
  let r := build_passes fpath store isDel isPurged random recId0 threshold
             initial in
  let left := last_record_encountered store isDel isPurged in
  existsb is_prepare (trace r.2) = true ->
  add_samples (trace r.2)
  = match sampled_from random threshold 0
            (map (record_of store)
               (expected_live_ids store isDel isPurged))
    with
    | [] => [if empty left then fallback_sample else left]
    | picked => picked
    end.
Proof.
  cbv zeta. intros Hprep.
  destruct (build_passes _ _ _ _ _ _ _ _) as [o s] eqn:E.
  cbn [fst snd] in *.
  destruct (build_passes_facts _ _ _ _ _ _ _ _ _ E) as [_ _ Hs].
  destruct (build_passes_at_prepare _ _ _ _ _ _ _ _ _ E Hprep)
    as [Hw1 Hne].
  cbv zeta in Hs. unfold live_records in Hs. rewrite Hw1 in Hs.
  destruct (sampled_from _ _ _ _) as [|x picked].
  - destruct Hs as [Hs|[_ Hs]]; [contradiction|exact Hs].
  - destruct Hs as [Hs|[Hs _]]; [exact Hs|discriminate Hs].
Qed.

Lemma samples_are_the_selected_records_witness :
  let store := Samples.five_records in
  let isDel := Some (Samples.bits 8) in
  let random := fun k => if Nat.even k then 2 ^ 63 - 1 else 2 ^ 63 in
  let r := build_passes "out" store isDel None random 0 (2 ^ 63) initial in
  let left := last_record_encountered store isDel None in
  add_samples (trace r.2)
  = match sampled_from random (2 ^ 63) 0
            (map (record_of store) (expected_live_ids store isDel None))
    with
    | [] => [if empty left then fallback_sample else left]
    | picked => picked
    end.
Proof.
  intros store isDel random.
  apply (samples_are_the_selected_records "out" store isDel None random 0
           (2 ^ 63)).
  vm_compute. reflexivity.
Defined.

(** X8.  No call ever hands an empty sample to the trainer; and the samples
    are records of live entries, each taken at most once and in the order of
    the source, unless there is just the one sample of [emptyCheckProtect]. *)
Theorem samples_are_nonempty_live_records schema fpath store isDel isPurged
    random recId0 :
  let r := build_by_iter schema fpath (Some store) isDel isPurged random
             recId0 in
  Forall (fun x => empty x = false) (add_samples (trace r.2)) /\
  (sublist (add_samples (trace r.2))
     (map (record_of store) (expected_live_ids store isDel isPurged)) \/
   exists x, add_samples (trace r.2) = [x]).
Proof.
  cbv zeta.
  destruct (build_by_iter_facts schema fpath store isDel isPurged random
              recId0) as [[_ _ Hs] _].
  destruct (build_by_iter _ _ _ _ _ _ _) as [o s] eqn:E. cbn [fst snd] in *.
  apply build_by_iter_anatomy, anatomy_live_ids in E as (_ & Hsub & _).
  cbv zeta in Hs. destruct Hs as [->|(_ & ->)].
  - split; [apply sampled_from_nonempty|]. left.
    etrans; [apply sampled_from_sublist|].
    unfold live_records. now apply sublist_map.
  - split; [|right; eauto].
    constructor; [|constructor].
    destruct (empty (last_record_encountered _ _ _)) eqn:He;
      [reflexivity|exact He].
Qed.

(** X9.  When the sampling pass has completed, the generator has been called
    once for every live record that is not empty, and for no other. *)
Theorem generator_is_called_once_per_record schema fpath store isDel
    isPurged random recId0 :
  let r := build_by_iter schema fpath (Some store) isDel isPurged random
             recId0 in
  existsb is_prepare (trace r.2) = true ->
  draws r.2
  = length (List.filter nonempty
              (map (record_of store)
                 (expected_live_ids store isDel isPurged))).
Proof.
  cbv zeta. intros Hprep.
  destruct (build_by_iter_facts schema fpath store isDel isPurged random
              recId0) as [[_ Hd _] _].
  destruct (build_by_iter _ _ _ _ _ _ _) as [o s] eqn:E. cbn [fst snd] in *.
  apply build_by_iter_anatomy, anatomy_live_ids in E as (_ & _ & Hlive).
  destruct (Hlive Hprep) as [Hw1 _].
  unfold live_records in Hd. now rewrite Hw1 in Hd.
Qed.

Lemma generator_is_called_once_per_record_witness :
  let r := build_by_iter Samples.schema0 "out" (Some Samples.five_records)
             (Some (Samples.bits 8)) (Some (Samples.bitvec 7 18))
             Samples.never 0 in
  draws r.2
  = length (List.filter nonempty
              (map (record_of Samples.five_records)
                 (expected_live_ids Samples.five_records
                    (Some (Samples.bits 8))
                    (Some (Samples.bitvec 7 18))))).
Proof.
  apply (generator_is_called_once_per_record Samples.schema0 "out"
           Samples.five_records (Some (Samples.bits 8))
           (Some (Samples.bitvec 7 18)) Samples.never 0).
  vm_compute. reflexivity.
Defined.

(** *** The records *)

Lemma records_of_seqZ store :
  map (record_of store) (seqZ 0 (Z.of_nat (length (records store))))
  = records store.
Proof.
  apply list_eq. intros i.
  change (map (record_of store)) with (fmap (M := list) (record_of store)).
  rewrite list_lookup_fmap.
  destruct (records store !! i) as [x|] eqn:Hx.
  - pose proof (lookup_lt_Some _ _ _ Hx) as Hi.
    rewrite lookup_seqZ_lt, Z.add_0_l by lia.
    change (Some (record_of store (Z.of_nat i)) = Some x).
    unfold record_of. now rewrite lookup_record_nat, Hx.
  - pose proof (lookup_ge_None_1 _ _ Hx) as Hi.
    now rewrite lookup_seqZ_ge by lia.
Qed.

(** The records of the live entries of a history that numbers its
    entries from zero and stays within the store are records of the
    store, in its order. *)
Lemma walk_records_sublist store w :
  (forall i v, w !! i = Some v -> v_physic v = Z.of_nat i) ->
  Forall (has_record store) w ->
  sublist (map (record_of store) (live_ids w)) (records store).
Proof.
  intros Hphys Hhas.
  assert (Hmap : map v_physic w = seqZ 0 (Z.of_nat (length w))).
  { apply list_eq. intros i.
    change (map v_physic) with (fmap (M := list) v_physic).
    rewrite list_lookup_fmap.
    destruct (w !! i) as [v|] eqn:Hv.
    - pose proof (lookup_lt_Some _ _ _ Hv) as Hi.
      rewrite lookup_seqZ_lt, Z.add_0_l by lia.
      change (Some (v_physic v) = Some (Z.of_nat i)).
      now rewrite (Hphys _ _ Hv).
    - pose proof (lookup_ge_None_1 _ _ Hv) as Hi.
      now rewrite lookup_seqZ_ge by lia. }
  assert (Hlen : (length w <= length (records store))%nat).
  { destruct (length w) as [|k] eqn:Hk; [lia|].
    destruct (lookup_lt_is_Some_2 w k) as [v Hv]; [lia|].
    pose proof (Hphys _ _ Hv) as Pv.
    rewrite Forall_lookup in Hhas. apply Hhas in Hv.
    apply lookup_record_Some in Hv. lia. }
  rewrite <- (records_of_seqZ store) at 1. apply sublist_map.
  unfold live_ids. etrans.
  - apply sublist_map, sublist_List_filter.
  - rewrite Hmap.
    replace (Z.of_nat (length (records store)))
      with (Z.of_nat (length w)
            + (Z.of_nat (length (records store)) - Z.of_nat (length w)))
      by lia.
    rewrite seqZ_app by lia. now apply sublist_inserts_r.
Qed.

Lemma anatomy_walk2_physic schema fpath store isDel isPurged recId0 o s :
  anatomy schema fpath (Some store) isDel isPurged recId0 o s ->
  forall i v, walk2 s !! i = Some v -> v_physic v = Z.of_nat i.
Proof.
  intros E.
  destruct E as
    [ Hrej
    | Hno Hdel
    | st s T1 sm T2 Hst Hno Hl Hw1 Hw2 Hok HT2 HAR Htr
    | st pu de s evs0 l p post Hst Hpu Hde Hno Hl Hw2 Htr Hsam Hmiss HK0 HW
        Hlk
    | st pu de s T1 sm T2 v post Hst Hpu Hde Hno W N M Hl Hw1 Hin HW Hlk
        Hok HK HT2 HAR Htr
    | st pu de s T1 sm T2 Hst Hpu Hde Hno W N M Hl Hw1 Hin Hw2 Hok HK HT2
        HAR Htr ];
    intros i u Hu.
  - discriminate Hu.
  - discriminate Hu.
  - rewrite Hw2 in Hu.
    assert (H : map v_physic (identity_walk isDel 0 (length (records st)))
                !! i = Some (v_physic u)).
    { change (map v_physic) with (fmap (M := list) v_physic).
      now rewrite list_lookup_fmap, Hu. }
    rewrite identity_walk_physic in H. apply lookup_seqZ in H. lia.
  - rewrite Hw2 in Hu. discriminate Hu.
  - apply (Reconciler_walk_lookup de (bldata pu) (fv_size pu) 0 0 i).
    fold W. rewrite HW. now apply lookup_app_l_Some.
  - rewrite Hw2 in Hu.
    now apply (Reconciler_walk_lookup de (bldata pu) (fv_size pu) 0 0 i).
Qed.

(** X10.  Whatever the outcome, the records handed to [addRecord] are
    records of the source, each handed over at most once, in the order of
    the source. *)
Theorem added_records_are_source_records schema fpath store isDel isPurged
    random recId0 :
  let r := build_by_iter schema fpath (Some store) isDel isPurged random
             recId0 in
  sublist (add_records (trace r.2)) (records store).
Proof.
  cbv zeta.
  destruct (build_by_iter_facts schema fpath store isDel isPurged random
              recId0) as [[Hrec _ _] _].
  destruct (build_by_iter _ _ _ _ _ _ _) as [o s] eqn:E. cbn [fst snd] in *.
  apply build_by_iter_anatomy in E.
  pose proof (anatomy_walk2_physic _ _ _ _ _ _ _ _ E) as Hphys.
  apply anatomy_live_ids in E as (-> & _).
  now apply walk_records_sublist.
Qed.

(** *** The call of [prepare] *)

Lemma prepare_calls_app a b :
  prepare_calls (a ++ b) = prepare_calls a ++ prepare_calls b.
Proof. apply flat_map_app. Qed.

Lemma no_prepare_calls evs :
  existsb is_prepare evs = false -> prepare_calls evs = [].
Proof.
  induction evs as [|e evs IH]; [reflexivity|]. cbn [existsb].
  intros [He H]%orb_false_iff. change (e :: evs) with ([e] ++ evs).
  rewrite prepare_calls_app, (IH H).
  destruct e; try reflexivity; discriminate He.
Qed.

Lemma prepare_calls_sampling evs :
  forallb sampling_event evs = true -> prepare_calls evs = [].
Proof. intros H. now apply no_prepare_calls, sampling_not_prepare. Qed.

Lemma prepare_calls_recording evs :
  forallb recording_event evs = true -> prepare_calls evs = [].
Proof. intros H. now apply no_prepare_calls, recording_not_prepare. Qed.

Lemma prepare_calls_existsb evs :
  prepare_calls evs <> [] -> existsb is_prepare evs = true.
Proof.
  intros H. destruct (existsb is_prepare evs) eqn:E; [reflexivity|].
  now apply no_prepare_calls in E.
Qed.

(** The calls of [prepare] that the anatomy of a call shows. *)
Lemma anatomy_prepare_calls schema fpath store isDel isPurged recId0 o s :
  anatomy schema fpath (Some store) isDel isPurged recId0 o s ->
  prepare_calls (trace s) = [] /\ o <> Ret tt \/
  prepare_calls (trace s)
  = [(if no_purge isPurged
      then match records store with
           | [] => recId0 + 1
           | _ :: _ => numDataRows store
           end
      else Z.of_nat (length (live_ids (walk1 s))), fpath)].
Proof.
  intros E.
  destruct E as
    [ Hrej
    | Hno Hdel
    | st s T1 sm T2 Hst Hno Hl Hw1 Hw2 Hok HT2 HAR Htr
    | st pu de s evs0 l p post Hst Hpu Hde Hno Hl Hw2 Htr Hsam Hmiss HK0 HW
        Hlk
    | st pu de s T1 sm T2 v post Hst Hpu Hde Hno W N M Hl Hw1 Hin HW Hlk
        Hok HK HT2 HAR Htr
    | st pu de s T1 sm T2 Hst Hpu Hde Hno W N M Hl Hw1 Hin Hw2 Hok HK HT2
        HAR Htr ].
  - now left.
  - now left.
  - right. injection Hst as <-.
    rewrite Hno, Htr, !prepare_calls_app,
      (prepare_calls_sampling _ (sample_events_sampling _ _ _ Hok)),
      (prepare_calls_sampling _ (protect_events_sampling sm _)),
      (prepare_calls_recording _ HT2).
    cbn. do 2 f_equal. unfold numDataRows.
    destruct (records store); cbn [length]; lia.
  - left. split; [|discriminate].
    rewrite Htr, prepare_calls_app, (prepare_calls_sampling _ Hsam).
    reflexivity.
  - right.
    rewrite Hno, Hw1, Htr, !prepare_calls_app,
      (prepare_calls_sampling _ (sample_events_sampling _ _ _ Hok)),
      (prepare_calls_sampling _ (count_report_sampling N M _)),
      (prepare_calls_sampling _ (protect_events_sampling sm _)),
      (prepare_calls_recording _ HT2).
    reflexivity.
  - right.
    rewrite Hno, Hw1, Htr, !prepare_calls_app,
      (prepare_calls_sampling _ (sample_events_sampling _ _ _ Hok)),
      !(prepare_calls_sampling _ (count_report_sampling N M _)),
      (prepare_calls_sampling _ (protect_events_sampling sm _)),
      (prepare_calls_recording _ HT2).
    reflexivity.
Qed.

(** X11.  [prepare] is called at most once, and a call that returns has
    called it; it is given the destination path; with a purge bitmap it is
    given the number of records that are then handed to [addRecord], without
    one the number of records of the source, deleted or not (over an empty
    source, what [recId] happens to hold, plus one). *)
Theorem prepare_is_called_at_most_once schema fpath store isDel isPurged
    random recId0 :
  let r := build_by_iter schema fpath (Some store) isDel isPurged random
             recId0 in
  match prepare_calls (trace r.2) with
  | [] => r.1 <> Ret tt
  | [(n, path)] =>
      path = fpath /\
      n = (if no_purge isPurged
           then match records store with
                | [] => recId0 + 1
                | _ :: _ => numDataRows store
                end
           else Z.of_nat (length (add_records (trace r.2))))
  | _ => False
  end.
Proof.
  cbv zeta.
  destruct (build_by_iter _ _ _ _ _ _ _) as [o s] eqn:E. cbn [fst snd].
  apply build_by_iter_anatomy in E.
  pose proof (anatomy_live_ids _ _ _ _ _ _ _ _ E) as (HAR & _ & Hlive).
  apply anatomy_prepare_calls in E as [[-> Ho]| Hp]; [exact Ho|].
  assert (Hprep : existsb is_prepare (trace s) = true).
  { apply prepare_calls_existsb. now rewrite Hp. }
  destruct (Hlive Hprep) as [_ H21].
  rewrite Hp. split; [reflexivity|].
  destruct (no_purge isPurged); [reflexivity|].
  now rewrite HAR, length_map, H21.
Qed.

(** *** The end of the call *)

Lemma forallb_not_In (P : event -> bool) evs e :
  forallb P evs = true -> P e = false -> ~ In e evs.
Proof.
  intros H He Hin. rewrite forallb_forall in H. apply H in Hin. congruence.
Qed.

(** X12.  [completeBuild] is called exactly by the calls that return: a call
    that throws or aborts has installed no store. *)
Theorem completeBuild_iff_the_call_returns schema fpath getStore isDel
    isPurged random recId0 :
  let r := build_by_iter schema fpath getStore isDel isPurged random
             recId0 in
  r.1 = Ret tt <-> In EvCompleteBuild (trace r.2).
Proof.
  cbv zeta.
  destruct (build_by_iter _ _ _ _ _ _ _) as [o s] eqn:E. cbn [fst snd].
  apply build_by_iter_anatomy in E.
  assert (HS : forall evs, forallb sampling_event evs = true ->
                 ~ In EvCompleteBuild evs).
  { intros evs H. now apply (forallb_not_In sampling_event). }
  assert (HR : forall evs, forallb recording_event evs = true ->
                 ~ In EvCompleteBuild evs).
  { intros evs H. now apply (forallb_not_In recording_event). }
  destruct E as
    [ Hrej
    | Hno Hdel
    | st s T1 sm T2 Hst Hno Hl Hw1 Hw2 Hok HT2 HAR Htr
    | st pu de s evs0 l p post Hst Hpu Hde Hno Hl Hw2 Htr Hsam Hmiss HK0 HW
        Hlk
    | st pu de s T1 sm T2 v post Hst Hpu Hde Hno W N M Hl Hw1 Hin HW Hlk
        Hok HK HT2 HAR Htr
    | st pu de s T1 sm T2 Hst Hpu Hde Hno W N M Hl Hw1 Hin Hw2 Hok HK HT2
        HAR Htr ].
  - split; [discriminate|intros []].
  - split; [discriminate|intros []].
  - split; [intros _|reflexivity].
    rewrite Htr, !in_app_iff. cbn. intuition.
  - split; [discriminate|]. rewrite Htr, in_app_iff. cbn.
    pose proof (HS _ Hsam). intuition discriminate.
  - split; [discriminate|]. rewrite Htr, !in_app_iff. cbn.
    pose proof (HS _ (sample_events_sampling _ _ _ Hok)).
    pose proof (HS _ (count_report_sampling N M (Z.of_nat (length W)))).
    pose proof (HS _ (protect_events_sampling sm
                        (last_fetched st [] W))).
    pose proof (HR _ HT2).
    intuition discriminate.
  - split; [intros _|reflexivity].
    rewrite Htr, !in_app_iff. cbn. intuition.
Qed.

(** *** What the outcome depends on *)

(** A call without purge bitmap, as far as the caller and the trainer's
    records see it. *)
Lemma no_purge_run_summary schema fpath store isDel isPurged recId0 o s :
  anatomy schema fpath (Some store) isDel isPurged recId0 o s ->
  (0 <= m_dictZipSampleRatio schema)%Q ->
  no_purge isPurged = true ->
  o = Ret tt /\ owns_lock s = false /\
  add_records (trace s)
  = map (record_of store) (expected_live_ids store isDel isPurged).
Proof.
  intros E Hr Hnp.
  pose proof (anatomy_live_ids _ _ _ _ _ _ _ _ E) as (HAR & _ & Hlive).
  pose proof (anatomy_prepare_calls _ _ _ _ _ _ _ _ E) as Hp.
  destruct E as [[H|H]|H| | | | ];
    try lra; try discriminate H; try congruence.
  split_and!; [reflexivity|assumption|].
  destruct Hp as [[_ Hp]|Hp]; [congruence|].
  destruct Hlive as [Hexp Hsame].
  { apply prepare_calls_existsb. now rewrite Hp. }
  now rewrite HAR, Hsame, Hexp.
Qed.

Lemma missing_deletion_bitmap_summary schema fpath store isPurged recId0
    o s :
  anatomy schema fpath (Some store) None isPurged recId0 o s ->
  (0 <= m_dictZipSampleRatio schema)%Q ->
  no_purge isPurged = false ->
  o = Fail AssertionFailed /\ s = initial.
Proof.
  intros E Hr Hnp.
  destruct E as
    [ [H|H]
    | Hno Hdel
    | st s T1 sm T2 Hst Hno Hl Hw1 Hw2 Hok HT2 HAR' Htr
    | st pu de s evs0 l p post Hst Hpu Hde Hno Hl Hw2 Htr Hsam Hmiss HK0 HW
        Hlk
    | st pu de s T1 sm T2 v post Hst Hpu Hde Hno W N M Hl Hw1 Hin HW Hlk
        Hok HK HT2 HAR' Htr
    | st pu de s T1 sm T2 Hst Hpu Hde Hno W N M Hl Hw1 Hin Hw2 Hok HK HT2
        HAR' Htr ];
    try lra; try discriminate H; try discriminate Hde; try congruence.
  now split.
Qed.

(** A call with a purge bitmap and a deletion bitmap: it aborts in the
    sampling pass when a live entry of the walk names no record of the
    store; otherwise it reaches the recording pass, hands over the
    records of the live entries, and returns or aborts according to the
    length of the walk. *)
Lemma purge_run_summary schema fpath store del purged recId0 o s :
  anatomy schema fpath (Some store) (Some del) (Some purged) recId0 o s ->
  recording_inv store s ->
  (0 <= m_dictZipSampleRatio schema)%Q ->
  fv_size purged <> 0%nat ->
  let W := Reconciler_walk del (bldata purged) (fv_size purged) 0 0 in
  ~ Forall (in_store store) W /\
  o = Fail Abort /\ owns_lock s = false /\ add_records (trace s) = [] \/
  Forall (in_store store) W /\
  add_records (trace s) = map (record_of store) (live_ids W) /\
  ((length W <= length (records store))%nat /\
   o = Ret tt /\ owns_lock s = false \/
   (length (records store) < length W)%nat /\
   o = Fail Abort /\ owns_lock s = true).
Proof.
  intros E Hrec Hr Hsz.
  pose proof (anatomy_live_ids _ _ _ _ _ _ _ _ E) as (HAR & _ & Hlive).
  pose proof (anatomy_prepare_calls _ _ _ _ _ _ _ _ E) as Hp.
  cbv zeta.
  destruct E as
    [ [H|H]
    | Hno Hdel
    | st s T1 sm T2 Hst Hno Hl Hw1 Hw2 Hok HT2 HAR' Htr
    | st pu de s evs0 l p post Hst Hpu Hde Hno Hl Hw2 Htr Hsam Hmiss HK0 HW
        Hlk
    | st pu de s T1 sm T2 v post Hst Hpu Hde Hno W N M Hl Hw1 Hin HW Hlk
        Hok HK HT2 HAR' Htr
    | st pu de s T1 sm T2 Hst Hpu Hde Hno W N M Hl Hw1 Hin Hw2 Hok HK HT2
        HAR' Htr ].
  - lra.
  - discriminate H.
  - discriminate Hdel.
  - cbn in Hno. apply Nat.eqb_eq in Hno. contradiction.
  - injection Hst as <-. injection Hpu as <-. injection Hde as <-.
    left. split_and!; try reflexivity; try assumption.
    + rewrite HW. intros HF. apply Forall_app in HF as [_ HF].
      apply Forall_inv in HF. destruct (HF eq_refl) as [x Hx].
      cbn in Hx. congruence.
    + now rewrite HAR, Hw2.
  - injection Hst as <-. injection Hpu as <-. injection Hde as <-.
    right. destruct Hp as [[Hp _]|Hp].
    { exfalso. rewrite Htr, !prepare_calls_app in Hp.
      apply app_eq_nil in Hp as [_ Hp]. apply app_eq_nil in Hp as [_ Hp].
      apply app_eq_nil in Hp as [_ Hp]. discriminate Hp. }
    destruct Hlive as [Hexp Hsame].
    { apply prepare_calls_existsb. now rewrite Hp. }
    split_and!; [exact Hin|now rewrite HAR, Hsame, Hw1|].
    right. split_and!; try reflexivity; try assumption.
    apply (walk_longer_than_store _ _ _ _ _ _ _ HW Hlk).
  - injection Hst as <-. injection Hpu as <-. injection Hde as <-.
    right. split_and!; [exact Hin|now rewrite HAR, Hw2|].
    left. split_and!; try reflexivity; try assumption.
    apply walk_within_store. unfold recording_inv in Hrec.
    now rewrite Hw2 in Hrec.
Qed.

(** X13.  What a call does for its caller does not depend on the sampling:
    two calls over the same source and bitmaps, whatever their sample ratios
    (not negative), their generators, their destination paths and the
    initial content of [recId], end the same way, own the lock or not alike,
    and hand the same records to [addRecord]. *)
Theorem outcome_does_not_depend_on_sampling schema schema' fpath fpath'
    store isDel isPurged random random' recId0 recId0' :
  (0 <= m_dictZipSampleRatio schema)%Q ->
  (0 <= m_dictZipSampleRatio schema')%Q ->
  let r := build_by_iter schema fpath (Some store) isDel isPurged random
             recId0 in
  let r' := build_by_iter schema' fpath' (Some store) isDel isPurged
              random' recId0' in
  r.1 = r'.1 /\ owns_lock r.2 = owns_lock r'.2 /\
  add_records (trace r.2) = add_records (trace r'.2).
Proof.
  intros Hr Hr'. cbv zeta.
  destruct (build_by_iter_facts schema fpath store isDel isPurged random
              recId0) as [[Hrec _ _] _].
  destruct (build_by_iter_facts schema' fpath' store isDel isPurged random'
              recId0') as [[Hrec' _ _] _].
  destruct (build_by_iter schema _ _ _ _ _ _) as [o s] eqn:E.
  destruct (build_by_iter schema' _ _ _ _ _ _) as [o' s'] eqn:E'.
  cbn [fst snd] in *.
  apply build_by_iter_anatomy in E, E'.
  destruct (no_purge isPurged) eqn:Hnp.
  { destruct (no_purge_run_summary _ _ _ _ _ _ _ _ E Hr Hnp)
      as (-> & -> & ->).
    destruct (no_purge_run_summary _ _ _ _ _ _ _ _ E' Hr' Hnp)
      as (-> & -> & ->).
    now split_and!. }
  destruct isPurged as [purged|]; [|discriminate Hnp].
  cbn in Hnp. apply Nat.eqb_neq in Hnp.
  destruct isDel as [del|].
  2:{ assert (Hnp' : no_purge (Some purged) = false).
      { cbn. now apply Nat.eqb_neq. }
      destruct (missing_deletion_bitmap_summary _ _ _ _ _ _ _ E Hr Hnp')
        as [-> ->].
      destruct (missing_deletion_bitmap_summary _ _ _ _ _ _ _ E' Hr' Hnp')
        as [-> ->].
      now split_and!. }
  pose proof (purge_run_summary _ _ _ _ _ _ _ _ E Hrec Hr Hnp) as S1.
  pose proof (purge_run_summary _ _ _ _ _ _ _ _ E' Hrec' Hr' Hnp) as S2.
  cbv zeta in S1, S2.
  destruct S1 as [(N1 & -> & -> & ->)
                 |(F1 & -> & [(L1 & -> & ->)|(L1 & -> & ->)])];
    destruct S2 as [(N2 & -> & -> & ->)
                   |(F2 & -> & [(L2 & -> & ->)|(L2 & -> & ->)])];
    try contradiction; try lia; now split_and!.
Qed.

Lemma outcome_does_not_depend_on_sampling_witness :
  let schema' :=
    {| m_dictZipSampleRatio := 3 # 10; m_checksumLevel := 1;
       m_useFastZip := true; m_rankSelectClass := 256 |} in
  let r := build_by_iter Samples.schema0 "out" (Some Samples.two_records)
             (Some (Samples.bits 4)) (Some (Samples.bitvec 3 0))
             Samples.never 0 in
  let r' := build_by_iter schema' "other" (Some Samples.two_records)
              (Some (Samples.bits 4)) (Some (Samples.bitvec 3 0))
              Samples.always 7 in
  r.1 = r'.1 /\ owns_lock r.2 = owns_lock r'.2 /\
  add_records (trace r.2) = add_records (trace r'.2).
Proof.
  intros schema'.
  apply (outcome_does_not_depend_on_sampling Samples.schema0 schema'
           "out" "other" Samples.two_records (Some (Samples.bits 4))
           (Some (Samples.bitvec 3 0)) Samples.never Samples.always 0 7).
  - discriminate.
  - discriminate.
Defined.

(** *** A purge bitmap that marks nothing *)

Lemma Reconciler_walk_nothing_purged del purged n : forall l,
  (forall k, l <= k < l + Z.of_nat n -> terark_bit_test purged k = false) ->
  Reconciler_walk del purged n l l
  = map (Reconciler_identity (Some del)) (seqZ l (Z.of_nat n)).
Proof.
  induction n as [|n IH]; intros l H; [reflexivity|].
  cbn [Reconciler_walk]. rewrite (H l) by lia.
  rewrite seqZ_cons by lia. cbn [map]. f_equal.
  replace (Z.pred (Z.of_nat (S n))) with (Z.of_nat n) by lia.
  rewrite <- Z.add_1_r. apply IH. intros k Hk. apply H. lia.
Qed.

Lemma purged_ids_nil purged N k :
  purged_ids purged N = [] -> 0 <= k < N -> terark_bit_test purged k = false.
Proof.
  unfold purged_ids. intros H Hk.
  destruct (terark_bit_test purged k) eqn:E; [exfalso|reflexivity].
  assert (Hin : In k (List.filter (terark_bit_test purged) (seqZ 0 N))).
  { apply filter_In. split; [|exact E].
    apply list_elem_of_In, elem_of_seqZ. lia. }
  rewrite H in Hin. destruct Hin.
Qed.

(** X14.  A purge bitmap that marks no id, over as many ids as the source
    has records, changes nothing for the records: the call returns, and
    hands to [addRecord] what the call without purge bitmap hands over. *)
Theorem purge_bitmap_that_marks_nothing schema fpath store del purged
    random recId0 :
  (0 <= m_dictZipSampleRatio schema)%Q ->
  fv_size purged = length (records store) ->
  fv_size purged <> 0%nat ->
  purged_ids (bldata purged) (Z.of_nat (fv_size purged)) = [] ->
  let r := build_by_iter schema fpath (Some store) (Some del)
             (Some purged) random recId0 in
  let r0 := build_by_iter schema fpath (Some store) (Some del) None
              random recId0 in
  r.1 = Ret tt /\ r0.1 = Ret tt /\
  add_records (trace r.2) = add_records (trace r0.2).
Proof.
  intros Hr Hsz Hnz Hnone. cbv zeta.
  destruct (build_by_iter_facts schema fpath store (Some del) (Some purged)
              random recId0) as [[Hrec _ _] _].
  destruct (build_by_iter schema _ _ _ (Some purged) _ _) as [o s] eqn:E.
  destruct (build_by_iter schema _ _ _ None _ _) as [o0 s0] eqn:E0.
  cbn [fst snd] in *.
  apply build_by_iter_anatomy in E, E0.
  destruct (no_purge_run_summary _ _ _ _ _ _ _ _ E0 Hr eq_refl)
    as (-> & _ & ->).
  pose proof (purge_run_summary _ _ _ _ _ _ _ _ E Hrec Hr Hnz) as S1.
  cbv zeta in S1.
  assert (HW : Reconciler_walk del (bldata purged) (fv_size purged) 0 0
               = identity_walk (Some del) 0 (length (records store))).
  { rewrite Reconciler_walk_nothing_purged, Hsz; [reflexivity|].
    intros k Hk. now apply (purged_ids_nil _ _ _ Hnone). }
  rewrite HW in S1.
  assert (Hlen : length (identity_walk (Some del) 0
                           (length (records store)))
                 = length (records store)).
  { rewrite <- (length_map v_physic), identity_walk_physic, length_seqZ.
    lia. }
  assert (Hin : Forall (in_store store)
                  (identity_walk (Some del) 0 (length (records store)))).
  { apply Forall_lookup. intros i v Hv _.
    assert (H : map v_physic
                  (identity_walk (Some del) 0 (length (records store)))
                !! i = Some (v_physic v)).
    { change (map v_physic) with (fmap (M := list) v_physic).
      now rewrite list_lookup_fmap, Hv. }
    rewrite identity_walk_physic in H. apply lookup_seqZ in H as [-> Hi].
    rewrite Z.add_0_l, lookup_record_nat.
    apply lookup_lt_is_Some_2. lia. }
  destruct S1 as [(N1 & _)|(_ & -> & [(_ & -> & _)|(L1 & _)])].
  - contradiction.
  - split_and!; try reflexivity.
    unfold expected_live_ids, identity_walk, numDataRows. cbn [no_purge].
    now rewrite live_ids_identity.
  - lia.
Qed.

Lemma purge_bitmap_that_marks_nothing_witness :
  let r := build_by_iter Samples.schema0 "out" (Some Samples.five_records)
             (Some (Samples.bits 8)) (Some (Samples.bitvec 5 0))
             Samples.always 0 in
  let r0 := build_by_iter Samples.schema0 "out" (Some Samples.five_records)
              (Some (Samples.bits 8)) None Samples.always 0 in
  r.1 = Ret tt /\ r0.1 = Ret tt /\
  add_records (trace r.2) = add_records (trace r0.2).
Proof.
  apply (purge_bitmap_that_marks_nothing Samples.schema0 "out"
           Samples.five_records (Samples.bits 8) (Samples.bitvec 5 0)
           Samples.always 0).
  - discriminate.
  - reflexivity.
  - discriminate.
  - reflexivity.
Defined.

(** ** Persistence *)

Lemma save_fpath_endsWith path : endsWith (save_fpath path) ".nlt" = true.
Proof.
  unfold save_fpath. destruct (endsWith path ".nlt") eqn:E.
  - exact E.
  - apply endsWith_app.
Qed.

Lemma save_fpath_fixed path : save_fpath (save_fpath path) = save_fpath path.
Proof.
  unfold save_fpath at 1. now rewrite save_fpath_endsWith.
Qed.

(** X15.  The path that [save] and [load] compute is a fixed point of the
    computation: saving to, or loading from, the computed path is the same
    as saving to, or loading from, the path itself. So a path that does not
    end with ".nlt" and the same path followed by ".nlt" name the same file. *)
Theorem path_normalisation_is_idempotent (path : string) :
  save_fpath (save_fpath path) = save_fpath path /\
  (forall m_store fs,
     save m_store (save_fpath path) fs = save m_store path fs) /\
  (forall fs, load (load_fpath path) fs = load path fs) /\
  (endsWith path ".nlt" = false ->
   forall m_store fs,
     save m_store (path ++ ".nlt") fs = save m_store path fs /\
     load (path ++ ".nlt") fs = load path fs).
Proof.
  assert (Hs : forall m_store fs,
            save m_store (save_fpath path) fs = save m_store path fs).
  { intros m_store fs. unfold save. now rewrite save_fpath_fixed. }
  assert (Hl : forall fs, load (load_fpath path) fs = load path fs).
  { intros fs. unfold load. change load_fpath with save_fpath.
    now rewrite save_fpath_fixed. }
  split_and!; try assumption.
  - apply save_fpath_fixed.
  - intros He m_store fs. rewrite <- Hs, <- Hl.
    unfold load_fpath, save_fpath. now rewrite He.
Qed.

(** X16.  Every store that this file creates can be saved: for the class
    that [build] or [nltBuild] instantiates for a schema, and for the
    [DictZipBlobStore] that [build_by_iter] installs, [save] does not throw,
    and [load] of the same path then yields the store. *)
Theorem created_stores_can_be_saved schema (c : StoreClass)
    (recs : list bytes) (path : string) (fs : gmap string File) :
  c = build schema \/ c = nltBuild schema \/ c = DictZipBlobStore ->
  let m_store := {| store_class := c; store_records := recs |} in
  exists fs', save m_store path fs = Ret fs' /\
              load path fs' = Some m_store.
Proof.
  intros Hc m_store.
  assert (Hser : is_Some (own_serializer c)).
  { destruct Hc as [->|[->| ->]]; [| |now eexists];
      unfold build, nltBuild;
      destruct (Qlt_le_dec 0 (m_dictZipSampleRatio schema));
      destruct (m_useFastZip schema);
      destruct (m_rankSelectClass schema =? -256);
      destruct (m_rankSelectClass schema =? 256);
      destruct (m_rankSelectClass schema =? 512); cbn; eauto. }
  unfold save, load, load_from, save_mmap, dynamic_cast_BaseDFA,
    dynamic_cast_FastZipBlobStore, dynamic_cast_DictZipBlobStore.
  change load_fpath with save_fpath. cbn [store_class m_store].
  destruct c; try (eexists; split; [reflexivity|];
                   now rewrite lookup_insert_eq).
  destruct Hser as [x Hx]. discriminate Hx.
Qed.

Lemma created_stores_can_be_saved_witness :
  let m_store := {| store_class := build Samples.schema0;
                    store_records := [] |} in
  exists fs', save m_store "table/col" (gmap_empty (A := File)) = Ret fs' /\
              load "table/col" fs' = Some m_store.
Proof.
  apply (created_stores_can_be_saved Samples.schema0
           (build Samples.schema0) [] "table/col" gmap_empty).
  left. reflexivity.
Defined.
